(** * evalml classification pipelines: target encoding, scoring, thresholds

    A shallow embedding of [evalml/pipelines/classification_pipeline.py],
    [evalml/automl/utils.py] and the estimator export list
    [evalml/pipelines/components/estimators/__init__.py], with the
    properties the pipeline tests rely on.

    Conventions.
    - Python integers are [Z].  [bool] is a subclass of [int] in Python
      ([True == 1], [False == 0], same hash), so boolean labels and boolean
      predictions are carried as the integers 1 and 0; [astype(int)] is
      then the identity on them.
    - Objective scores, thresholds and probabilities are Python floats that
      this code only stores and hands on (no arithmetic); they are carried
      as [Q].  Labels are integers (or booleans) or strings; float labels
      are left out.
    - A raised exception is a value: every operation that can raise returns
      an [outcome]. *)

From Stdlib Require Import ZArith QArith String Ascii List OrdersEx.
From Stdlib Require Import DecimalString DecimalZ DecimalPos.
From stdpp Require Import base option list sorting strings pretty gmap.

Open Scope string_scope.
Open Scope list_scope.
Open Scope Z_scope.

(** ** Python values, series and tables *)

(** A label value of a target column: an integer (or boolean) or a string. *)
Inductive value :=
  | VInt (z : Z)
  | VStr (s : string).

#[global] Instance value_eq_dec : EqDecision value.
Proof. solve_decision. Defined.

Definition is_int (v : value) : bool :=
  match v with VInt _ => true | VStr _ => false end.

Definition is_str (v : value) : bool :=
  match v with VStr _ => true | VInt _ => false end.

(** [<] of Python on two labels of one kind: integers by value, strings
    by code points.  Labels of two kinds are never compared: the encoder
    refuses such a target. *)
Definition value_compare (a b : value) : comparison :=
  match a, b with
  | VInt x, VInt y => Z.compare x y
  | VStr s, VStr t => String_as_OT.compare s t
  | VInt _, VStr _ => Lt
  | VStr _, VInt _ => Gt
  end.

Definition value_leb (a b : value) : bool :=
  match value_compare a b with Gt => false | _ => true end.

Definition value_le (a b : value) : Prop := value_leb a b = true.
Definition value_lt (a b : value) : Prop := value_compare a b = Lt.

#[global] Instance value_le_dec : RelDecision value_le.
Proof. intros a b. unfold value_le. apply _. Defined.

(** A pandas Series: optional name, index labels, cells. *)
Record series (A : Type) := Series {
  s_name : option value;
  s_index : list Z;
  s_values : list A;
}.
Arguments Series {A} _ _ _.
Arguments s_name {A} _.
Arguments s_index {A} _.
Arguments s_values {A} _.

(** The default index of a freshly built series, [RangeIndex(len)]. *)
Definition range_index (n : nat) : list Z := Z.of_nat <$> seq 0 n.

(** A pandas DataFrame, by columns: each column has a label and its cells. *)
Record table := Table {
  t_index : list Z;
  t_cols : list (value * list Q);
}.

Definition columns (t : table) : list value := fst <$> t_cols t.

(** ** Exceptions *)

Inductive exn_class :=
  | ValueError
  | TypeError
  | AttributeError
  | IndexError
  | PipelineNotYetFittedError
  | SyntaxError
  | OtherException.

#[global] Instance exn_class_eq_dec : EqDecision exn_class.
Proof. solve_decision. Defined.

(** An exception object: its class and [str(e)]. *)
Record exn := Exn { exn_cls : exn_class; exn_msg : string }.

#[global] Instance exn_eq_dec : EqDecision exn.
Proof. solve_decision. Defined.

(** What a call can raise: an ordinary exception, or the composite
    [PipelineScoreError] with its three attributes. *)
Inductive error :=
  | Raised (e : exn)
  | PipelineScoreError (exceptions : gmap string exn)
                       (scored_successfully : gmap string Q)
                       (message : string).

Inductive outcome (A : Type) :=
  | Ok (a : A)
  | Raise (e : error).
Arguments Ok {A} _.
Arguments Raise {A} _.

Definition raise {A} (c : exn_class) (msg : string) : outcome A :=
  Raise (Raised (Exn c msg)).

Definition obind {A B} (m : outcome A) (k : A → outcome B) : outcome B :=
  match m with
  | Ok a => k a
  | Raise e => Raise e
  end.

(** [[f(x) for x in l]] where [f] may raise: the first exception wins. *)
Fixpoint traverse {A B} (f : A → outcome B) (l : list A) : outcome (list B) :=
  match l with
  | [] => Ok []
  | x :: l' => obind (f x) (λ y, obind (traverse f l') (λ ys, Ok (y :: ys)))
  end.

(** ** sklearn's LabelEncoder *)

Module LabelEncoder.

(** The encoder object: [classes_] is absent until [fit]. *)
Record t := Make { classes_ : option (list value) }.

Definition new : t := Make None.

(** [fit(y)]: [classes_ = sorted(set(y))].  Labels must be uniformly
    numbers or uniformly strings. *)
Definition fit (y : list value) : outcome t :=
  if forallb is_int y || forallb is_str y
  then Ok (Make (Some (merge_sort value_le (remove_dups y))))
  else raise TypeError
         "Encoders require their input to be uniformly strings or numbers.".

(** Position of a label in [classes_]. *)
Definition index_of (cs : list value) (v : value) : option nat :=
  fst <$> list_find (λ c, c = v) cs.

(** [transform(y)]: each label to its position in [classes_]. *)
Definition transform (enc : t) (y : list value) : outcome (list Z) :=
  match classes_ enc with
  | None => raise ValueError "This LabelEncoder instance is not fitted yet."
  | Some cs =>
      traverse (λ v, match index_of cs v with
                 | Some i => Ok (Z.of_nat i)
                 | None => raise ValueError "y contains previously unseen labels"
                 end) y
  end.

(** [inverse_transform(y)]: each code in [0, n_classes) to its label. *)
Definition inverse_transform (enc : t) (y : list Z) : outcome (list value) :=
  match classes_ enc with
  | None => raise ValueError "This LabelEncoder instance is not fitted yet."
  | Some cs =>
      traverse (λ c : Z, match (if decide (0 ≤ c) then cs !! Z.to_nat c else None) with
                 | Some v => Ok v
                 | None => raise ValueError "y contains previously unseen labels"
                 end) y
  end.

End LabelEncoder.

(** ** Problem types and objectives *)

Inductive problem_type :=
  | BINARY
  | MULTICLASS
  | REGRESSION
  | TIME_SERIES_REGRESSION
  | TIME_SERIES_BINARY
  | TIME_SERIES_MULTICLASS.

#[global] Instance problem_type_eq_dec : EqDecision problem_type.
Proof. solve_decision. Defined.

(** [ProblemTypes.<X>.value], as in the table of
    [get_default_primary_search_objective]. *)
Definition problem_type_value (pt : problem_type) : string :=
  match pt with
  | BINARY => "binary"
  | MULTICLASS => "multiclass"
  | REGRESSION => "regression"
  | TIME_SERIES_REGRESSION => "time series regression"
  | TIME_SERIES_BINARY => "time series binary"
  | TIME_SERIES_MULTICLASS => "time series multiclass"
  end.

(** Modelled from the spec: [evalml.problem_types.is_binary] is imported by
    [automl/utils.py] but not defined in the sources at hand; a problem type
    is binary when it is [binary] or its time series variant. *)
Definition is_binary (pt : problem_type) : bool :=
  match pt with
  | BINARY | TIME_SERIES_BINARY => true
  | _ => false
  end.

(** What is handed to an objective as its prediction argument: the
    predicted labels, the predicted probabilities, or Python's [None]. *)
Inductive predictions :=
  | NoPredictions
  | Labels (s : series Z)
  | Probabilities (t : table).

Definition labels_or_none (o : option (series Z)) : predictions :=
  match o with Some s => Labels s | None => NoPredictions end.

Definition proba_or_none (o : option table) : predictions :=
  match o with Some t => Probabilities t | None => NoPredictions end.

(** What evaluating one objective gives: a float, or a raised exception. *)
Inductive scored :=
  | Scored (v : Q)
  | Failed (e : exn).

(** The interface of an objective object that the pipeline consumes.
    [objective_score y_true y_predicted X] is [objective.score(...)];
    [objective_optimize_threshold ypred_proba y_true X] is
    [objective.optimize_threshold(...)]. *)
Record objective := Objective {
  name : string;
  score_needs_proba : bool;
  can_optimize_threshold : bool;
  is_defined_for_problem_type : problem_type → bool;
  objective_score : series Z → predictions → table → scored;
  objective_optimize_threshold : series Q → series Z → table → outcome Q;
}.

(** ** Component parameters *)

(** A parameter value of a component: JSON data (a float is known by the
    text that Python prints for it, a dict by its entries in insertion
    order), or any other Python object (an array, a data frame, a class, an
    enum member, a component instance), known by its [repr]. *)
#[local] Unset Elimination Schemes.
Inductive pyvalue :=
  | PNone
  | PBool (b : bool)
  | PInt (z : Z)
  | PFloat (repr : string)
  | PStr (s : string)
  | PList (l : list pyvalue)
  | PDict (d : list (string * pyvalue))
  | PObject (repr : string).
#[local] Set Elimination Schemes.

Fixpoint pyvalue_eq (a b : pyvalue) {struct a} : Decision (a = b).
Proof.
  refine (match a, b with
          | PNone, PNone => left _
          | PBool x, PBool y => cast_if (decide (x = y))
          | PInt x, PInt y => cast_if (decide (x = y))
          | PFloat x, PFloat y => cast_if (decide (x = y))
          | PStr x, PStr y => cast_if (decide (x = y))
          | PList l1, PList l2 => cast_if (@list_eq_dec _ pyvalue_eq l1 l2)
          | PDict d1, PDict d2 =>
              cast_if (@list_eq_dec _ (@prod_eq_dec _ _ _ pyvalue_eq) d1 d2)
          | PObject x, PObject y => cast_if (decide (x = y))
          | _, _ => right _
          end); abstract congruence.
Defined.

#[global] Instance pyvalue_eq_dec : EqDecision pyvalue := pyvalue_eq.

(** The parameters of one component, and of a pipeline: dicts in insertion
    order. *)
Definition component_params := list (string * pyvalue).
Definition params := list (string * component_params).

(** ** Pipeline classes and component graphs *)

(** The class attribute [component_graph]: a list of components in order,
    or a dict from node name to the component followed by its parents.  A
    component of the list is given by the name under which the library
    knows it, or as a component class that the user defined. *)
Inductive component :=
  | ComponentName (name : string)
  | ComponentClass (class_name : string).

#[global] Instance component_eq_dec : EqDecision component.
Proof. solve_decision. Defined.

Inductive graph_spec :=
  | LinearGraph (components : list component)
  | NonlinearGraph (nodes : list (string * list string)).

#[global] Instance graph_spec_eq_dec : EqDecision graph_spec.
Proof. solve_decision. Defined.

(** A concrete pipeline class: [cls_mro] is the class followed by its
    ancestors (its identity); then the class attributes [problem_type] and
    [component_graph], and the other public attributes defined in the class
    body ([name], [custom_hyperparameters]) with their values as Python
    prints them. *)
Record pipeline_class := PipelineClass {
  cls_mro : list string;
  cls_problem_type : problem_type;
  cls_component_graph : graph_spec;
  cls_attributes : list (string * string);
}.

#[global] Instance pipeline_class_eq_dec : EqDecision pipeline_class.
Proof. solve_decision. Defined.

(** [class Sub(parent): pass]: a subclass that overrides nothing. *)
Definition subclass (cls_name : string) (parent : pipeline_class) : pipeline_class :=
  PipelineClass (cls_name :: cls_mro parent)
                (cls_problem_type parent) (cls_component_graph parent) [].

(** The component graph object and its estimator are capability providers
    outside this code: [G] is the graph object (with whatever it learned). *)
Class ComponentGraph (G : Type) := {
  cg_new : graph_spec → params → Z → G;
  cg_fit : G → table → series Z → G;
  cg_predict : G → table → series Z;
  cg_compute_estimator_features : G → table → table;
  cg_estimator_predict_proba : G → table → table;
}.

(** ** Calls and the state they run in *)

(** The calls a test would watch with a mock. *)
Inductive call :=
  | CallEncodeTargets
  | CallDecodeTargets
  | CallPredict
  | CallPredictProba
  | CallObjectiveScore (objective_name : string)
  | CallOptimizeThreshold (objective_name : string).

#[global] Instance call_eq_dec : EqDecision call.
Proof. solve_decision. Defined.

Section Pipelines.

Context {G : Type}.

(** A pipeline instance ([self]). *)
Record pipeline := Pipeline {
  p_class : pipeline_class;
  parameters : params;
  random_seed : Z;
  _component_graph : G;
  _encoder : LabelEncoder.t;
  _is_fitted : bool;
  input_target_name : option value;
  input_feature_names : list value;
  threshold : option Q;
}.

Definition problem_type_of (p : pipeline) : problem_type :=
  cls_problem_type (p_class p).

(** The interpreter state: the pipeline object and the log of calls. *)
Record world := World {
  self : pipeline;
  calls : list call;
}.

(** A method body: it reads and updates [self], logs calls, and returns
    or raises.  Updates made before a raise stay. *)
Definition prog (A : Type) : Type := world → outcome A * world.

Definition ret {A} (a : A) : prog A := λ w, (Ok a, w).

Definition bind {A B} (m : prog A) (k : A → prog B) : prog B :=
  λ w, match m w with
       | (Ok a, w') => k a w'
       | (Raise e, w') => (Raise e, w')
       end.

Definition throw {A} (e : error) : prog A := λ w, (Raise e, w).

Definition lift {A} (o : outcome A) : prog A := λ w, (o, w).

Definition get_self : prog pipeline := λ w, (Ok (self w), w).

Definition set_self (p : pipeline) : prog unit :=
  λ w, (Ok tt, World p (calls w)).

Definition log (c : call) : prog unit :=
  λ w, (Ok tt, World (self w) (calls w ++ [c])).

End Pipelines.

Arguments pipeline G : clear implicits.
Arguments world G : clear implicits.
Arguments prog G A : clear implicits.

Notation "'let*' x := m 'in' k" := (bind m (λ x, k))
  (at level 10, x name, m at level 100, k at level 200, only parsing).
Notation "'let*' ' x := m 'in' k" := (bind m (λ x, k))
  (at level 10, x strict pattern, m at level 100, k at level 200, only parsing).

(** ** Characters of the emitted texts *)

Definition dquote : string := String (ascii_of_nat 34) "".
Definition squote : string := "'".
Definition tab : string := String "009" "".
Definition nl : string := String "010" "".
Definition backslash : string := "\".

(** ** pandas operations used by the pipeline *)

(** [proba.columns = labels]: pandas refuses a list of another length. *)
Definition set_columns (t : table) (labels : list value) : outcome table :=
  if decide (length labels = length (t_cols t))
  then Ok (Table (t_index t) (zip labels (snd <$> t_cols t)))
  else raise ValueError "Length mismatch".

(** [df.iloc[:, i]]: the column at position [i], named by its label. *)
Definition iloc_column (t : table) (i : nat) : outcome (series Q) :=
  match t_cols t !! i with
  | Some (label, cells) => Ok (Series (Some label) (t_index t) cells)
  | None => raise IndexError "single positional indexer is out-of-bounds"
  end.

(** ** ClassificationPipeline *)

Section ClassificationPipeline.

Context {G : Type} `{ComponentGraph G}.

Definition with_encoder (p : pipeline G) (enc : LabelEncoder.t) : pipeline G :=
  Pipeline (p_class p) (parameters p) (random_seed p) (_component_graph p)
           enc (_is_fitted p) (input_target_name p) (input_feature_names p)
           (threshold p).

Definition with_threshold (p : pipeline G) (t : option Q) : pipeline G :=
  Pipeline (p_class p) (parameters p) (random_seed p) (_component_graph p)
           (_encoder p) (_is_fitted p) (input_target_name p)
           (input_feature_names p) t.

(** Modelled from the spec: [PipelineBase.__init__] is not among the
    sources; the component graph is constructed fresh from the class
    attribute and the parameters, and the pipeline starts unfitted, with no
    target name, no feature columns and no threshold. *)
Definition pipeline_base_init (cls : pipeline_class) (parameters : params)
    (random_seed : Z) (encoder : LabelEncoder.t) : pipeline G :=
  Pipeline cls parameters random_seed
           (cg_new (cls_component_graph cls) parameters random_seed)
           encoder false None [] None.

(** [__init__]: [self._encoder = LabelEncoder()], then the base class
    constructor. *)
Definition __init__ (cls : pipeline_class) (parameters : params) (random_seed : Z)
  : pipeline G :=
  pipeline_base_init cls parameters random_seed LabelEncoder.new.

(** [_encode_targets]: a [ValueError] of the encoder is raised again as
    [ValueError(str(e))]; index and name of [y] are kept. *)
Definition _encode_targets (y : series value) : prog G (series Z) :=
  let* _ := log CallEncodeTargets in
  let* p := get_self in
  match LabelEncoder.transform (_encoder p) (s_values y) with
  | Ok codes => ret (Series (s_name y) (s_index y) codes)
  | Raise (Raised (Exn ValueError msg)) => throw (Raised (Exn ValueError msg))
  | Raise e => throw e
  end.

(** [_decode_targets]: [y.astype(int)] is the identity on integer codes
    (booleans are already 1 and 0). *)
Definition _decode_targets (y : series Z) : prog G (list value) :=
  let* _ := log CallDecodeTargets in
  let* p := get_self in
  lift (LabelEncoder.inverse_transform (_encoder p) (s_values y)).

(** The property [classes_]. *)
Definition classes_ : prog G (list value) :=
  let* p := get_self in
  match LabelEncoder.classes_ (_encoder p) with
  | None => throw (Raised (Exn AttributeError
              "Cannot access class names before fitting the pipeline."))
  | Some cs => ret cs
  end.

(** Modelled from the spec: [PipelineBase._fit] is not among the sources;
    it drives the component graph fit, stores [input_target_name] and sets
    the fitted flag.  The columns of [X] seen at fit are kept as
    [input_feature_names]. *)
Definition _fit (X : table) (y : series Z) : prog G unit :=
  let* p := get_self in
  set_self (Pipeline (p_class p) (parameters p) (random_seed p)
                     (cg_fit (_component_graph p) X y)
                     (_encoder p) true (s_name y) (columns X) (threshold p)).

(** [fit]: [infer_feature_types] and [_convert_woodwork_types_wrapper]
    change the container, not the cells. *)
Definition fit (X : table) (y : series value) : prog G unit :=
  let* p := get_self in
  let* enc := lift (LabelEncoder.fit (s_values y)) in
  let* _ := set_self (with_encoder p enc) in
  let* y := _encode_targets y in
  _fit X y.

(** Modelled from the spec: the not-fitted guard that the base class puts
    around [predict] and [predict_proba] is not among the sources; any
    inference call before [fit] fails with [PipelineNotYetFittedError]. *)
Definition check_for_fit {A} (method_name : string) (body : prog G A) : prog G A :=
  let* p := get_self in
  if _is_fitted p then body
  else throw (Raised (Exn PipelineNotYetFittedError
         ("This pipeline is not fitted yet. You must fit it before calling "
            +:+ method_name +:+ "."))).

(** [_predict] and [predict]: the [objective] argument plays no part in
    this class. *)
Definition _predict (X : table) : prog G (series Z) :=
  let* _ := log CallPredict in
  let* p := get_self in
  ret (cg_predict (_component_graph p) X).

Definition predict (X : table) : prog G (series value) :=
  check_for_fit "predict"
    (let* predictions := _predict X in
     let* decoded := _decode_targets predictions in
     let* p := get_self in
     ret (Series (input_target_name p) (range_index (length decoded)) decoded)).

Definition predict_proba (X : table) : prog G table :=
  check_for_fit "predict_proba"
    (let* _ := log CallPredictProba in
     let* p := get_self in
     let X := cg_compute_estimator_features (_component_graph p) X in
     let proba := cg_estimator_predict_proba (_component_graph p) X in
     match LabelEncoder.classes_ (_encoder p) with
     | None => throw (Raised (Exn AttributeError
                 "'LabelEncoder' object has no attribute 'classes_'"))
     | Some cs => lift (set_columns proba cs)
     end).

(** [_compute_predictions].  With [time_series=True] the calls
    [predict_proba(X, y)] and [_predict(X, y, pad=True)] are made.  The
    guarded [predict_proba] takes a second positional argument and drops
    it ([test_binary_pipeline_string_target_thresholding] calls
    [predict_proba(X, y)] and uses the result); [_predict] of this class
    has no keyword [pad]. *)
Definition _compute_predictions (X : table) (y : series Z)
    (objectives : list objective) (time_series : bool)
  : prog G (option (series Z) * option table) :=
  let* y_predicted_proba :=
    (if existsb score_needs_proba objectives then
       if time_series
       then (let* t := predict_proba X in ret (Some t))
       else (let* t := predict_proba X in ret (Some t))
     else ret None) in
  let* y_predicted :=
    (if existsb (λ o, negb (score_needs_proba o)) objectives then
       if time_series
       then throw (Raised (Exn TypeError
              "_predict() got an unexpected keyword argument 'pad'"))
       else (let* s := _predict X in ret (Some s))
     else ret None) in
  ret (y_predicted, y_predicted_proba).

(** *** Scoring *)

Definition exn_class_name (c : exn_class) : string :=
  match c with
  | ValueError => "ValueError"
  | TypeError => "TypeError"
  | AttributeError => "AttributeError"
  | IndexError => "IndexError"
  | PipelineNotYetFittedError => "PipelineNotYetFittedError"
  | SyntaxError => "SyntaxError"
  | OtherException => "Exception"
  end.

(** Modelled from the spec: the message of [PipelineScoreError] is not
    among the sources; one line of it says who failed, and the failure
    text. *)
Definition failure_line (entry : string * exn) : string :=
  entry.1 +:+ " encountered " +:+ exn_class_name (exn_cls entry.2)
    +:+ " with message (" +:+ exn_msg entry.2 +:+ "):" +:+ nl.

(** Modelled from the spec: the constructor of [PipelineScoreError] is not
    among the sources; the composite error carries the failures, the
    successes and a message combined from the captured failures. *)
Definition score_error_message (exceptions : gmap string exn) : string :=
  String.concat nl (failure_line <$> map_to_list exceptions).

(** Modelled from the spec: the composite error built from the two
    dicts. *)
Definition pipeline_score_error (exceptions : gmap string exn)
    (scored_successfully : gmap string Q) : error :=
  PipelineScoreError exceptions scored_successfully
                     (score_error_message exceptions).

(** Modelled from the spec: the body of the loop of
    [PipelineBase._score_all_objectives], which is not among the sources.
    An objective that does not apply to the problem type of the pipeline
    fails before its scoring function runs
    ([test_score_with_objective_that_requires_predict_proba] reads that
    failure text off the composite message); otherwise the objective scores
    the kind of prediction it needs. *)
Definition evaluate_objective (pt : problem_type) (X : table) (y : series Z)
    (y_pred : option (series Z)) (y_pred_proba : option table)
    (o : objective) : scored :=
  if is_defined_for_problem_type o pt then
    objective_score o y
      (if score_needs_proba o then proba_or_none y_pred_proba
       else labels_or_none y_pred) X
  else Failed (Exn ValueError
         ("Invalid objective " +:+ name o +:+ " specified for problem type "
            +:+ problem_type_value pt)).

(** Modelled from the spec: the loop of
    [PipelineBase._score_all_objectives] over the objectives; a failure is
    recorded and the loop goes on. *)
Fixpoint score_each (pt : problem_type) (X : table) (y : series Z)
    (y_pred : option (series Z)) (y_pred_proba : option table)
    (objectives : list objective)
    (scored_successfully : gmap string Q) (exceptions : gmap string exn)
  : prog G (gmap string Q * gmap string exn) :=
  match objectives with
  | [] => ret (scored_successfully, exceptions)
  | o :: rest =>
      let* _ := (if is_defined_for_problem_type o pt
                 then log (CallObjectiveScore (name o)) else ret tt) in
      match evaluate_objective pt X y y_pred y_pred_proba o with
      | Scored v =>
          score_each pt X y y_pred y_pred_proba rest
                     (<[name o := v]> scored_successfully) exceptions
      | Failed e =>
          score_each pt X y y_pred y_pred_proba rest
                     scored_successfully (<[name o := e]> exceptions)
      end
  end.

(** Modelled from the spec: [PipelineBase._score_all_objectives] is not
    among the sources; every requested objective is evaluated on its own,
    a failure is captured without stopping the others, and at the end one
    composite error is raised unless all objectives succeeded. *)
Definition _score_all_objectives (X : table) (y : series Z)
    (y_pred : option (series Z)) (y_pred_proba : option table)
    (objectives : list objective) : prog G (gmap string Q) :=
  let* p := get_self in
  let* '(scored_successfully, exceptions) :=
    score_each (problem_type_of p) X y y_pred y_pred_proba objectives ∅ ∅ in
  if decide (exceptions = ∅) then ret scored_successfully
  else throw (pipeline_score_error exceptions scored_successfully).

(** [score].  [create_objectives] turns names into objective instances;
    here the objectives arrive as instances. *)
Definition score (X : table) (y : series value) (objectives : list objective)
  : prog G (gmap string Q) :=
  let* y := _encode_targets y in
  let* '(y_predicted, y_predicted_proba) :=
    _compute_predictions X y objectives false in
  _score_all_objectives X y y_predicted y_predicted_proba objectives.

(** *** Threshold tuning *)

(** Modelled from the spec: [PipelineBase.can_tune_threshold_with_objective]
    is not among the sources; tuning is permitted when the problem type is
    binary and the objective both applies to it and has a tunable
    threshold. *)
Definition can_tune_threshold_with_objective (p : pipeline G) (o : objective)
  : bool :=
  is_binary (problem_type_of p)
  && is_defined_for_problem_type o (problem_type_of p)
  && can_optimize_threshold o.

Definition optimize_threshold (X : table) (y : series value)
    (y_pred_proba : series Q) (o : objective) : prog G unit :=
  let* p := get_self in
  if can_tune_threshold_with_objective p o then
    let* targets := _encode_targets y in
    let* _ := log (CallOptimizeThreshold (name o)) in
    let* t := lift (objective_optimize_threshold o y_pred_proba targets X) in
    let* p := get_self in
    set_self (with_threshold p (Some t))
  else throw (Raised (Exn ValueError
         "Problem type must be binary and objective must be optimizable.")).

(** [evalml.automl.utils.tune_binary_threshold].  [X_threshold_tuning] is
    [None] or a data table, which is truthy. *)
Definition tune_binary_threshold (o : objective) (pt : problem_type)
    (X_threshold_tuning : option table) (y_threshold_tuning : series value)
  : prog G unit :=
  if is_binary pt && is_defined_for_problem_type o pt
     && can_optimize_threshold o then
    let* p := get_self in
    let* _ := set_self (with_threshold p (Some (1 # 2)%Q)) in
    match X_threshold_tuning with
    | Some X =>
        let* y_predict_proba := predict_proba X in
        let* y_predict_proba := lift (iloc_column y_predict_proba 1) in
        optimize_threshold X y_threshold_tuning y_predict_proba o
    | None => ret tt
    end
  else ret tt.

(** *** Cloning and equality *)

(** Modelled from the spec: [PipelineBase.clone] is not among the sources;
    the clone is a new instance of the same class, built from the
    parameters and the random seed of the source. *)
Definition clone (p : pipeline G) : pipeline G :=
  __init__ (p_class p) (parameters p) (random_seed p).

End ClassificationPipeline.

(** ** Equality of pipelines *)

(** Induction on parameter values, through the lists they nest. *)
Section PyvalueInduction.

Variable P : pyvalue → Prop.
Hypothesis HNone : P PNone.
Hypothesis HBool : ∀ b, P (PBool b).
Hypothesis HInt : ∀ z, P (PInt z).
Hypothesis HFloat : ∀ r, P (PFloat r).
Hypothesis HStr : ∀ s, P (PStr s).
Hypothesis HList : ∀ l, Forall P l → P (PList l).
Hypothesis HDict : ∀ d, Forall (λ entry, P entry.2) d → P (PDict d).
Hypothesis HObject : ∀ r, P (PObject r).


End PyvalueInduction.

(** A dict of dicts, compared as Python compares dicts: by keys and values,
    whatever the insertion order. *)
Definition params_map (ps : params) : gmap string (gmap string pyvalue) :=
  list_to_map (prod_map id list_to_map <$> ps).

Section Equality.

Context {G : Type}.

(** What [==] looks at in the state that two fitted pipelines derived from
    their data, beyond [input_target_name].  The spec does not settle it:
    section 4.2 names [input_target_name] as the proxy that is compared,
    section 8 says that fitting on different data breaks equality. *)
Variable same_fitted_data : pipeline G → pipeline G → bool.

(** Modelled from the spec: [PipelineBase.__eq__] is not among the sources.
    Two pipelines are equal when they have the same concrete class, the
    same parameters, the same random seed and the same fitted state, and,
    when both are fitted, the same [input_target_name] and the same
    data-derived state as far as [same_fitted_data] compares it. *)
Definition __eq__ (p q : pipeline G) : bool :=
  bool_decide (p_class p = p_class q)
  && bool_decide (params_map (parameters p) = params_map (parameters q))
  && bool_decide (random_seed p = random_seed q)
  && Bool.eqb (_is_fitted p) (_is_fitted q)
  && (if _is_fitted p && _is_fitted q
      then bool_decide (input_target_name p = input_target_name q)
           && same_fitted_data p q
      else true).

End Equality.

(** ** Generated-code export *)

(** [repr(v)]. *)
Fixpoint pyvalue_repr (v : pyvalue) : string :=
  match v with
  | PNone => "None"
  | PBool true => "True"
  | PBool false => "False"
  | PInt z => pretty z
  | PFloat r => r
  | PStr s => squote +:+ s +:+ squote
  | PList l => "[" +:+ String.concat ", " (List.map pyvalue_repr l) +:+ "]"
  | PDict d =>
      "{" +:+ String.concat ", "
                (List.map (λ entry : string * pyvalue,
                             squote +:+ entry.1 +:+ squote +:+ ": "
                               +:+ pyvalue_repr entry.2) d)
      +:+ "}"
  | PObject r => r
  end.

(** *** JSON text, as Python's [json] module writes and reads it *)

Fixpoint indent (n : nat) : string :=
  match n with
  | O => ""
  | S n' => tab +:+ indent n'
  end.

(** A hexadecimal digit, in lower case. *)
Definition hex_digit (n : N) : ascii :=
  match n with
  | 0 => "0" | 1 => "1" | 2 => "2" | 3 => "3" | 4 => "4" | 5 => "5"
  | 6 => "6" | 7 => "7" | 8 => "8" | 9 => "9" | 10 => "a" | 11 => "b"
  | 12 => "c" | 13 => "d" | 14 => "e" | _ => "f"
  end%N%char.

(** One character of a JSON string literal, as [json.dumps] writes it with
    [ensure_ascii]: the quote and the backslash are escaped, and so is
    every character outside the printable ASCII range, by its short escape
    or as [\u00XX].  A string holds code points below 256. *)
Definition json_escape_char (c : ascii) : string :=
  if Ascii.eqb c "034" then backslash +:+ dquote
  else if Ascii.eqb c "\" then backslash +:+ backslash
  else if Ascii.eqb c "010" then backslash +:+ "n"
  else if Ascii.eqb c "013" then backslash +:+ "r"
  else if Ascii.eqb c "009" then backslash +:+ "t"
  else if Ascii.eqb c "008" then backslash +:+ "b"
  else if Ascii.eqb c "012" then backslash +:+ "f"
  else if (N_of_ascii c <? 32)%N || (126 <? N_of_ascii c)%N
  then backslash +:+ "u00"
         +:+ String (hex_digit (N_of_ascii c / 16)) ""
         +:+ String (hex_digit (N_of_ascii c mod 16)) ""
  else String c "".

Fixpoint json_escape (s : string) : string :=
  match s with
  | EmptyString => ""
  | String c s' => json_escape_char c +:+ json_escape s'
  end.

Definition json_string (s : string) : string :=
  dquote +:+ json_escape s +:+ dquote.

(** An integer in decimal. *)
Definition json_int (z : Z) : string := NilEmpty.string_of_int (Z.to_int z).

(** A float is known by the text Python prints for it ([repr]); JSON has
    names of its own for the three values that are not finite. *)
Definition json_float (repr : string) : string :=
  if String.eqb repr "inf" then "Infinity"
  else if String.eqb repr "-inf" then "-Infinity"
  else if String.eqb repr "nan" then "NaN"
  else repr.

Definition json_block (opening closing : string) (lvl : nat)
    (items : list string) : string :=
  match items with
  | [] => opening +:+ closing
  | _ => opening +:+ nl +:+ indent (S lvl)
           +:+ String.concat ("," +:+ nl +:+ indent (S lvl)) items
           +:+ nl +:+ indent lvl +:+ closing
  end.

(** [json.dumps(v, indent='\t')] of JSON data at nesting depth [lvl]. *)
Fixpoint json_text (lvl : nat) (v : pyvalue) : string :=
  match v with
  | PNone => "null"
  | PBool true => "true"
  | PBool false => "false"
  | PInt z => json_int z
  | PFloat r => json_float r
  | PStr s => json_string s
  | PList l => json_block "[" "]" lvl (List.map (json_text (S lvl)) l)
  | PDict d =>
      json_block "{" "}" lvl
        (List.map (λ entry : string * pyvalue,
                     json_string entry.1 +:+ ": " +:+ json_text (S lvl) entry.2)
                  d)
  | PObject _ => ""
  end.

(** The first value, in the order of serialization, that is not JSON data. *)
Fixpoint first_unserializable (v : pyvalue) : option pyvalue :=
  match v with
  | PList l =>
      (fix go (l : list pyvalue) : option pyvalue :=
         match l with
         | [] => None
         | x :: l' => match first_unserializable x with
                      | Some bad => Some bad
                      | None => go l'
                      end
         end) l
  | PDict d =>
      (fix go (d : list (string * pyvalue)) : option pyvalue :=
         match d with
         | [] => None
         | entry :: d' => match first_unserializable entry.2 with
                          | Some bad => Some bad
                          | None => go d'
                          end
         end) d
  | PObject _ => Some v
  | _ => None
  end.

(** [json.dumps(v, indent='\t')]: the text, or the first value that the
    encoder cannot represent. *)
Definition json_dumps_value (lvl : nat) (v : pyvalue) : pyvalue + string :=
  match first_unserializable v with
  | Some bad => inl bad
  | None => inr (json_text lvl v)
  end.

(** The parameters of a pipeline as one value: a dict of dicts. *)
Definition params_value (ps : params) : pyvalue :=
  PDict (List.map (λ entry : string * component_params,
                     (entry.1, PDict entry.2)) ps).

(** [json.dumps(pipeline.parameters, indent='\t')]. *)
Definition json_dumps_params (ps : params) : pyvalue + string :=
  json_dumps_value 0 (params_value ps).


(** *** Reading JSON text *)

Definition is_ws (c : ascii) : bool :=
  Ascii.eqb c " " || Ascii.eqb c "009" || Ascii.eqb c "010"
  || Ascii.eqb c "013".

Fixpoint skip_ws (s : string) : string :=
  match s with
  | String c s' => if is_ws c then skip_ws s' else s
  | EmptyString => ""
  end.

(** [s] without the prefix [pre], if it starts with it. *)
Fixpoint strip_prefix (pre s : string) : option string :=
  match pre, s with
  | EmptyString, _ => Some s
  | String a pre', String b s' =>
      if Ascii.eqb a b then strip_prefix pre' s' else None
  | _, _ => None
  end.

Definition hex_value (c : ascii) : option N :=
  let n := N_of_ascii c in
  if (48 <=? n)%N && (n <=? 57)%N then Some (n - 48)%N
  else if (97 <=? n)%N && (n <=? 102)%N then Some (n - 87)%N
  else if (65 <=? n)%N && (n <=? 70)%N then Some (n - 55)%N
  else None.

(** The character that a backslash escape of one letter stands for. *)
Definition unescape (c : ascii) : option ascii :=
  if Ascii.eqb c "034" then Some "034"%char
  else if Ascii.eqb c "\" then Some "\"%char
  else if Ascii.eqb c "/" then Some "/"%char
  else if Ascii.eqb c "n" then Some "010"%char
  else if Ascii.eqb c "r" then Some "013"%char
  else if Ascii.eqb c "t" then Some "009"%char
  else if Ascii.eqb c "b" then Some "008"%char
  else if Ascii.eqb c "f" then Some "012"%char
  else None.

Definition prepend (c : ascii) (r : option (string * string))
  : option (string * string) :=
  match r with
  | Some (t, rest) => Some (String c t, rest)
  | None => None
  end.

(** A string literal after its opening quote: the text up to the closing
    quote, and what follows it. *)
Fixpoint parse_string_body (s : string) : option (string * string) :=
  match s with
  | EmptyString => None
  | String c s' =>
      if Ascii.eqb c "034" then Some ("", s')
      else if Ascii.eqb c "\" then
        match s' with
        | String e s'' =>
            match unescape e with
            | Some c' => prepend c' (parse_string_body s'')
            | None =>
                match s'' with
                | String h1 (String h2 (String h3 (String h4 rest))) =>
                    if Ascii.eqb e "u" then
                      match hex_value h1, hex_value h2, hex_value h3,
                            hex_value h4 with
                      | Some a, Some b, Some c, Some d =>
                          let n := (((a * 16 + b) * 16 + c) * 16 + d)%N in
                          if (n <? 256)%N
                          then prepend (ascii_of_N n) (parse_string_body rest)
                          else None
                      | _, _, _, _ => None
                      end
                    else None
                | _ => None
                end
            end
        | EmptyString => None
        end
      else prepend c (parse_string_body s')
  end.

Definition is_digit (c : ascii) : bool :=
  (48 <=? N_of_ascii c)%N && (N_of_ascii c <=? 57)%N.

Definition is_float_mark (c : ascii) : bool :=
  Ascii.eqb c "." || Ascii.eqb c "e".

Definition is_number_char (c : ascii) : bool :=
  is_digit c || Ascii.eqb c "-" || Ascii.eqb c "+" || is_float_mark c.

(** The longest prefix of characters that [f] accepts, and the rest. *)
Fixpoint span (f : ascii → bool) (s : string) : string * string :=
  match s with
  | String c s' =>
      if f c then let '(t, rest) := span f s' in (String c t, rest)
      else ("", s)
  | EmptyString => ("", "")
  end.

Fixpoint string_forallb (f : ascii → bool) (s : string) : bool :=
  match s with
  | String c s' => f c && string_forallb f s'
  | EmptyString => true
  end.

Fixpoint string_existsb (f : ascii → bool) (s : string) : bool :=
  match s with
  | String c s' => f c || string_existsb f s'
  | EmptyString => false
  end.

(** The text that Python prints for a float: one of the three names of
    the values that are not finite, or digits with a point or an
    exponent. *)
Definition is_float_repr (r : string) : bool :=
  String.eqb r "inf" || String.eqb r "-inf" || String.eqb r "nan"
  || (string_forallb is_number_char r && string_existsb is_float_mark r).

(** A number token: a float where it has a point or an exponent, an
    integer otherwise. *)
Definition json_number (token : string) : option pyvalue :=
  if string_existsb is_float_mark token then Some (PFloat token)
  else option_map (λ d, PInt (Z.of_int d)) (NilEmpty.int_of_string token).

Definition with_rest (v : pyvalue) (r : option string)
  : option (pyvalue * string) :=
  option_map (λ rest, (v, rest)) r.

(** The items of an array after its opening bracket, with the value reader
    [parse]; [n] bounds their number. *)
Fixpoint parse_items (parse : string → option (pyvalue * string)) (n : nat)
    (s : string) : option (list pyvalue * string) :=
  match n with
  | O => None
  | S n' =>
      match parse s with
      | Some (v, rest) =>
          match skip_ws rest with
          | String c rest' =>
              if Ascii.eqb c "," then
                match parse_items parse n' rest' with
                | Some (vs, rest'') => Some (v :: vs, rest'')
                | None => None
                end
              else if Ascii.eqb c "]" then Some ([v], rest')
              else None
          | EmptyString => None
          end
      | None => None
      end
  end.

(** The entries of an object after its opening brace. *)
Fixpoint parse_entries (parse : string → option (pyvalue * string)) (n : nat)
    (s : string) : option (list (string * pyvalue) * string) :=
  match n with
  | O => None
  | S n' =>
      match skip_ws s with
      | String q s1 =>
          if Ascii.eqb q "034" then
            match parse_string_body s1 with
            | Some (key, s2) =>
                match skip_ws s2 with
                | String colon s3 =>
                    if Ascii.eqb colon ":" then
                      match parse s3 with
                      | Some (v, rest) =>
                          match skip_ws rest with
                          | String c rest' =>
                              if Ascii.eqb c "," then
                                match parse_entries parse n' rest' with
                                | Some (d, rest'') =>
                                    Some ((key, v) :: d, rest'')
                                | None => None
                                end
                              else if Ascii.eqb c "}"
                              then Some ([(key, v)], rest')
                              else None
                          | EmptyString => None
                          end
                      | None => None
                      end
                    else None
                | EmptyString => None
                end
            | None => None
            end
          else None
      | EmptyString => None
      end
  end.

(** One JSON value at the start of [s], after white space, and what
    follows it; [fuel] bounds the nesting depth and the length of the
    arrays and objects. *)
Fixpoint parse_value (fuel : nat) (s : string) : option (pyvalue * string) :=
  match fuel with
  | O => None
  | S f =>
      match skip_ws s with
      | EmptyString => None
      | String c s' =>
          if Ascii.eqb c "n" then with_rest PNone (strip_prefix "ull" s')
          else if Ascii.eqb c "t"
          then with_rest (PBool true) (strip_prefix "rue" s')
          else if Ascii.eqb c "f"
          then with_rest (PBool false) (strip_prefix "alse" s')
          else if Ascii.eqb c "N"
          then with_rest (PFloat "nan") (strip_prefix "aN" s')
          else if Ascii.eqb c "I"
          then with_rest (PFloat "inf") (strip_prefix "nfinity" s')
          else if Ascii.eqb c "034" then
            match parse_string_body s' with
            | Some (t, rest) => Some (PStr t, rest)
            | None => None
            end
          else if Ascii.eqb c "[" then
            match skip_ws s' with
            | EmptyString => None
            | String c' rest =>
                if Ascii.eqb c' "]" then Some (PList [], rest)
                else match parse_items (parse_value f) f s' with
                     | Some (l, rest') => Some (PList l, rest')
                     | None => None
                     end
            end
          else if Ascii.eqb c "{" then
            match skip_ws s' with
            | EmptyString => None
            | String c' rest =>
                if Ascii.eqb c' "}" then Some (PDict [], rest)
                else match parse_entries (parse_value f) f s' with
                     | Some (d, rest') => Some (PDict d, rest')
                     | None => None
                     end
            end
          else if is_number_char c then
            match strip_prefix "-Infinity" (String c s') with
            | Some rest => Some (PFloat "-inf", rest)
            | None =>
                let '(token, rest) := span is_number_char (String c s') in
                match json_number token with
                | Some v => Some (v, rest)
                | None => None
                end
            end
          else None
      end
  end.

(** [json.loads(s)], for the texts that [json.dumps] writes: one value,
    and nothing but white space after it.  An object is read as the list
    of its entries, which is the dict when no key repeats. *)
Definition json_loads (s : string) : option pyvalue :=
  match parse_value (S (String.length s)) s with
  | Some (v, rest) =>
      match skip_ws rest with
      | EmptyString => Some v
      | _ => None
      end
  | None => None
  end.






(** *** The construction script *)

(** Modelled from the spec: the library base class of a pipeline class and
    the module it is imported from, by problem type. *)
Definition base_class (pt : problem_type) : string * string :=
  match pt with
  | BINARY =>
      ("evalml.pipelines.binary_classification_pipeline",
       "BinaryClassificationPipeline")
  | MULTICLASS =>
      ("evalml.pipelines.multiclass_classification_pipeline",
       "MulticlassClassificationPipeline")
  | REGRESSION =>
      ("evalml.pipelines.regression_pipeline", "RegressionPipeline")
  | TIME_SERIES_REGRESSION =>
      ("evalml.pipelines.time_series_regression_pipeline",
       "TimeSeriesRegressionPipeline")
  | TIME_SERIES_BINARY =>
      ("evalml.pipelines.time_series_classification_pipelines",
       "TimeSeriesBinaryClassificationPipeline")
  | TIME_SERIES_MULTICLASS =>
      ("evalml.pipelines.time_series_classification_pipelines",
       "TimeSeriesMulticlassClassificationPipeline")
  end.

(** The statements that a construction script is made of. *)
Inductive statement :=
  | Import (module : string)
  | FromImport (module name : string)
  | ClassDef (name base : string) (components : list component)
             (attributes : list (string * string))
  | AssignJsonLoads (target json : string)
  | AssignCall (target callee argument : string).

(** An entry of the list [component_graph] as the script writes it: a
    component of the library as the string of its name, a component class
    of the user as the bare name of the class. *)
Definition render_component (c : component) : string :=
  match c with
  | ComponentName n => squote +:+ n +:+ squote
  | ComponentClass class_name => class_name
  end.

Definition render_statement (s : statement) : string :=
  match s with
  | Import module => "import " +:+ module
  | FromImport module name => "from " +:+ module +:+ " import " +:+ name
  | ClassDef name base components attributes =>
      nl +:+ "class " +:+ name +:+ "(" +:+ base +:+ "):" +:+ nl
      +:+ tab +:+ "component_graph = [" +:+ nl +:+ tab +:+ tab
      +:+ String.concat ("," +:+ nl +:+ tab +:+ tab)
            (List.map render_component components)
      +:+ nl +:+ tab +:+ "]" +:+ nl
      +:+ String.concat ""
            (List.map (λ a : string * string,
                         tab +:+ a.1 +:+ " = " +:+ a.2 +:+ nl) attributes)
  | AssignJsonLoads target json =>
      target +:+ " = json.loads(" +:+ dquote +:+ dquote +:+ dquote
      +:+ json +:+ dquote +:+ dquote +:+ dquote +:+ ")"
  | AssignCall target callee argument =>
      target +:+ " = " +:+ callee +:+ "(" +:+ argument +:+ ")"
  end.

(** The text of a script: its statements, one after the other. *)
Definition render_script (script : list statement) : string :=
  String.concat nl (List.map render_statement script).

(** Modelled from the spec: the construction script of a linear pipeline,
    laid out as [test_generate_code_pipeline] and
    [test_generate_code_pipeline_custom] expect it: the imports, the class
    with its component graph and its other attributes, the parameters read
    from their JSON text, and the call of the class. *)
Definition construction_script (cls : pipeline_class)
    (components : list component) (parameters_json : string)
  : list statement :=
  let cls_name := default "" (head (cls_mro cls)) in
  let base := base_class (cls_problem_type cls) in
  [Import "json";
   FromImport base.1 base.2;
   ClassDef cls_name base.2 components (cls_attributes cls);
   AssignJsonLoads "parameters" parameters_json;
   AssignCall "pipeline" cls_name "parameters"].

(** Modelled from the spec: [evalml.pipelines.utils.generate_pipeline_code]
    is not among the sources.  A non-linear pipeline is refused with a
    "not supported yet" error; a parameter value that JSON cannot represent
    is a type error that names the value; otherwise the script is emitted
    with the parameters JSON-serialized. *)
Definition generate_pipeline_code {G} (p : pipeline G) : outcome string :=
  match cls_component_graph (p_class p) with
  | NonlinearGraph _ =>
      raise ValueError
        "Code generation for nonlinear pipelines is not supported yet"
  | LinearGraph components =>
      match json_dumps_params (parameters p) with
      | inl bad =>
          raise TypeError
            ("Value " +:+ pyvalue_repr bad +:+ " cannot be JSON-serialized")
      | inr parameters_json =>
          Ok (render_script
                (construction_script (p_class p) components parameters_json))
      end
  end.

(** *** Names of a script *)

(** The names that a statement binds, and the names that it reads.  The
    attribute values of a class are literals, and read no name. *)
Definition binds (s : statement) : list string :=
  match s with
  | Import module => [module]
  | FromImport _ name => [name]
  | ClassDef name _ _ _ => [name]
  | AssignJsonLoads target _ => [target]
  | AssignCall target _ _ => [target]
  end.

Definition component_classes (components : list component) : list string :=
  omap (λ c, match c with
             | ComponentClass class_name => Some class_name
             | ComponentName _ => None
             end) components.

Definition reads (s : statement) : list string :=
  match s with
  | Import _ | FromImport _ _ => []
  | ClassDef _ base components _ => base :: component_classes components
  | AssignJsonLoads _ _ => ["json"]
  | AssignCall _ callee argument => [callee; argument]
  end.

(** The names that a script reads before any of its statements has bound
    them, given the names [bound] at its start: running the script where
    [bound] is all there is stops at the first of them with a
    [NameError]. *)
Fixpoint unbound_names (bound : list string) (script : list statement)
  : list string :=
  match script with
  | [] => []
  | s :: rest =>
      filter (λ n, n ∉ bound) (reads s)
      ++ unbound_names (binds s ++ bound) rest
  end.

(** [t] occurs in [s]. *)
Definition contains (s t : string) : Prop :=
  ∃ pre post, s = pre +:+ t +:+ post.

(** *** The string literal of the script *)

(** A character that Python reads from the body of a string literal as it
    is written: a tab, a line feed, or a printable ASCII character other
    than the backslash, which starts an escape. *)
Definition literal_char (c : ascii) : bool :=
  (Ascii.eqb c "009" || Ascii.eqb c "010"
   || ((32 <=? N_of_ascii c)%N && (N_of_ascii c <=? 126)%N))
  && negb (Ascii.eqb c "\").


(** Reading the body of a literal between triple quotes, after [quotes]
    quotes in a row: a third quote in a row would end the literal, and a
    character that is not read as it is written makes the literal another
    text.  The result is the number of quotes that [body] ends in. *)
Fixpoint literal_scan (quotes : nat) (body : string) : option nat :=
  match body with
  | EmptyString => Some quotes
  | String c rest =>
      if Ascii.eqb c "034" then
        if (quotes <? 2)%nat then literal_scan (S quotes) rest else None
      else if literal_char c then literal_scan 0 rest
      else None
  end.

(** The literal that the script writes as three quotes, [body] and three
    quotes denotes the text [body]: Python reads every character of [body]
    as it is written, no three quotes in a row end the literal early, and
    [body] does not end in a quote, which would run into the closing
    quotes. *)
Definition verbatim (body : string) : bool :=
  bool_decide (literal_scan 0 body = Some 0%nat).


(** A character that JSON writes in a string as it is: a printable ASCII
    character other than the quote and the backslash. *)
Definition plain_char (c : ascii) : bool :=
  (32 <=? N_of_ascii c)%N && (N_of_ascii c <=? 126)%N
  && negb (Ascii.eqb c "034") && negb (Ascii.eqb c "\").

(** JSON data whose strings and keys JSON writes without an escape, and
    whose floats are known by texts of floats. *)
Fixpoint plain (v : pyvalue) : bool :=
  match v with
  | PStr s => string_forallb plain_char s
  | PFloat r => is_float_repr r
  | PList l => forallb plain l
  | PDict d =>
      forallb (λ entry : string * pyvalue,
                 string_forallb plain_char entry.1 && plain entry.2) d
  | PObject _ => false
  | _ => true
  end.

(** ** The estimator export list *)

(** [evalml/pipelines/components/estimators/__init__.py], line by line. *)
Definition estimators_init : list string := [
  "from .estimator import Estimator";
  "from .classifiers import (LogisticRegressionClassifier,";
  "                          RandomForestClassifier,";
  "                          XGBoostClassifier,";
  "                          LightGBMClassifier,";
  "                          CatBoostClassifier,";
  "                          ElasticNetClassifier,";
  "                          ExtraTreesClassifier,";
  "                          BaselineClassifier,";
  "                          DecisionTreeClassifier,";
  "                          GAMClassifier)";
  "from .regressors import (LinearRegressor,";
  "                         RandomForestRegressor,";
  "                         CatBoostRegressor,";
  "                         XGBoostRegressor,";
  "                         ElasticNetRegressor,";
  "                         ExtraTreesRegressor,";
  "                         BaselineRegressor,";
  "<<<<<<< HEAD";
  "                         DecisionTreeRegressor,";
  "                         GAMRegressor)";
  "=======";
  "                         TimeSeriesBaselineRegressor,";
  "                         DecisionTreeRegressor)";
  ">>>>>>> main"
].

(** The three kinds of conflict marker that a merge leaves in a file. *)
Inductive marker :=
  | MarkerOurs
  | MarkerSeparator
  | MarkerTheirs.

#[global] Instance marker_eq_dec : EqDecision marker.
Proof. solve_decision. Defined.

Definition marker_of (line : string) : option marker :=
  if String.prefix "<<<<<<< " line then Some MarkerOurs
  else if String.eqb line "=======" then Some MarkerSeparator
  else if String.prefix ">>>>>>> " line then Some MarkerTheirs
  else None.

(** Line numbers (from 1) of the conflict markers of a file. *)
Definition conflict_markers (lines : list string) : list (nat * marker) :=
  omap (λ '(i, line), (λ m, (S i, m)) <$> marker_of line)
       (imap (λ i line, (i, line)) lines).

(** The lines of one side of every conflict, the markers removed. *)
Fixpoint resolve (side : marker) (inside : option marker)
    (lines : list string) : list string :=
  match lines with
  | [] => []
  | line :: rest =>
      match marker_of line with
      | Some MarkerOurs => resolve side (Some MarkerOurs) rest
      | Some MarkerSeparator => resolve side (Some MarkerTheirs) rest
      | Some MarkerTheirs => resolve side None rest
      | None =>
          match inside with
          | None => line :: resolve side inside rest
          | Some s => if decide (s = side)
                      then line :: resolve side inside rest
                      else resolve side inside rest
          end
      end
  end.

(** *** Python's reading of a module made of [from ... import ...] *)

Inductive token :=
  | TName (s : string)
  | TLParen
  | TRParen
  | TComma
  | TNewline
  | TOp (c : ascii).

(** Characters of a name or of a dotted module path. *)
Definition is_name_char (c : ascii) : bool :=
  let n := nat_of_ascii c in
  ((65 <=? n) && (n <=? 90) || (97 <=? n) && (n <=? 122)
   || (48 <=? n) && (n <=? 57) || (n =? 95) || (n =? 46))%nat.

Definition flush (word : string) (ts : list token) : list token :=
  match word with
  | EmptyString => ts
  | _ => TName (String.rev word) :: ts
  end.

(** The tokens of a text, last token first: [word] is the name being read
    (reversed), [depth] the number of open parentheses.  A line break
    inside parentheses is not a token. *)
Fixpoint tokenize_go (s : string) (word : string) (depth : nat)
    (ts : list token) : list token :=
  match s with
  | EmptyString => flush word ts
  | String c s' =>
      if is_name_char c then tokenize_go s' (String c word) depth ts
      else
        let ts := flush word ts in
        if Ascii.eqb c " " then tokenize_go s' "" depth ts
        else if Ascii.eqb c "010" then
          tokenize_go s' "" depth
            (match depth with O => TNewline :: ts | _ => ts end)
        else if Ascii.eqb c "(" then tokenize_go s' "" (S depth) (TLParen :: ts)
        else if Ascii.eqb c ")" then tokenize_go s' "" (pred depth) (TRParen :: ts)
        else if Ascii.eqb c "," then tokenize_go s' "" depth (TComma :: ts)
        else tokenize_go s' "" depth (TOp c :: ts)
  end.

Definition tokenize (lines : list string) : list token :=
  reverse (tokenize_go (String.concat nl lines +:+ nl) "" 0 []).

(** Where the parser stands inside a [from M import ...] statement. *)
Inductive parser_state :=
  | AtStatement
  | AfterFrom
  | AfterModule (m : string)
  | AfterImport (m : string)
  | ExpectName (m : string) (parenthesized : bool) (names : list string)
  | AfterName (m : string) (parenthesized : bool) (names : list string)
  | AfterClose (m : string) (names : list string).

Definition is_keyword (s : string) : bool :=
  String.eqb s "from" || String.eqb s "import".

(** The statements of a module, as pairs of the module imported from and
    the names imported; anything else is a syntax error. *)
Fixpoint parse_imports (st : parser_state) (acc : list (string * list string))
    (ts : list token) : outcome (list (string * list string)) :=
  match ts with
  | [] =>
      match st with
      | AtStatement => Ok (reverse acc)
      | _ => raise SyntaxError "unexpected EOF while parsing"
      end
  | t :: ts' =>
      match st, t with
      | AtStatement, TNewline => parse_imports AtStatement acc ts'
      | AtStatement, TName "from" => parse_imports AfterFrom acc ts'
      | AfterFrom, TName m =>
          if is_keyword m then raise SyntaxError "invalid syntax"
          else parse_imports (AfterModule m) acc ts'
      | AfterModule m, TName "import" => parse_imports (AfterImport m) acc ts'
      | AfterImport m, TLParen => parse_imports (ExpectName m true []) acc ts'
      | AfterImport m, TName n =>
          if is_keyword n then raise SyntaxError "invalid syntax"
          else parse_imports (AfterName m false [n]) acc ts'
      | ExpectName m par names, TName n =>
          if is_keyword n then raise SyntaxError "invalid syntax"
          else parse_imports (AfterName m par (names ++ [n])) acc ts'
      | ExpectName m true (n :: names), TRParen =>
          parse_imports (AfterClose m (n :: names)) acc ts'
      | AfterName m par names, TComma =>
          parse_imports (ExpectName m par names) acc ts'
      | AfterName m true names, TRParen =>
          parse_imports (AfterClose m names) acc ts'
      | AfterName m false names, TNewline =>
          parse_imports AtStatement ((m, names) :: acc) ts'
      | AfterClose m names, TNewline =>
          parse_imports AtStatement ((m, names) :: acc) ts'
      | _, _ => raise SyntaxError "invalid syntax"
      end
  end.

(** Importing the package: the names its [__init__] exports. *)
Definition import_package (lines : list string) : outcome (list string) :=
  obind (parse_imports AtStatement [] (tokenize lines))
        (λ stmts, Ok (concat (snd <$> stmts))).

(** ** A baseline classifier as component graph *)

(** How often a code occurs in a list, and a most frequent code of a list
    (0 for the empty list). *)
Definition count_of (c : Z) (l : list Z) : nat :=
  length (filter (λ x, x = c) l).

Definition mode (l : list Z) : Z :=
  foldr (λ c best, if decide (count_of best l ≤ count_of c l)%nat
                   then c else best) 0 l.

(** A one-node graph holding a baseline classifier in its [mode] strategy:
    it learns the most frequent class and the number of classes, predicts
    the most frequent class for every row, and gives it probability 1. *)
Record baseline_graph := BaselineGraph {
  baseline_mode : Z;
  baseline_n_classes : nat;
}.

#[global] Instance baseline_component_graph : ComponentGraph baseline_graph := {
  cg_new _ _ _ := BaselineGraph 0 0;
  cg_fit _ _ y :=
    BaselineGraph (mode (s_values y)) (length (remove_dups (s_values y)));
  cg_predict g X :=
    Series None (t_index X) ((λ _, baseline_mode g) <$> t_index X);
  cg_compute_estimator_features _ X := X;
  cg_estimator_predict_proba g X :=
    Table (t_index X)
          ((λ c : nat,
              (VInt (Z.of_nat c),
               (λ _, if decide (Z.of_nat c = baseline_mode g)
                     then 1%Q else 0%Q) <$> t_index X))
             <$> seq 0 (baseline_n_classes g));
}.

(** Number of classes the encoder of a pipeline has learned. *)
Definition n_classes {G} (p : pipeline G) : nat :=
  match LabelEncoder.classes_ (_encoder p) with
  | Some cs => length cs
  | None => 0
  end.

(** The table the estimator returns for the features of [X]. *)
Definition estimator_proba {G} `{ComponentGraph G} (p : pipeline G)
    (X : table) : table :=
  cg_estimator_predict_proba (_component_graph p)
    (cg_compute_estimator_features (_component_graph p) X).

(** ** Example data *)

(** A binary and a multiclass pipeline class over the baseline
    classifier. *)
Definition BaselineBinaryPipeline : pipeline_class :=
  PipelineClass ["BaselineBinaryPipeline"; "BinaryClassificationPipeline";
                 "ClassificationPipeline"; "PipelineBase"]
                BINARY (LinearGraph [ComponentName "Baseline Classifier"]) [].

Definition BaselineMulticlassPipeline : pipeline_class :=
  PipelineClass ["BaselineMulticlassPipeline";
                 "MulticlassClassificationPipeline";
                 "ClassificationPipeline"; "PipelineBase"]
                MULTICLASS (LinearGraph [ComponentName "Baseline Classifier"]) [].

Definition example_X : table :=
  Table [0; 1; 2] [(VStr "col_0", [1%Q; 2%Q; 3%Q])].

Definition example_y : series value :=
  Series (Some (VStr "target")) [0; 1; 2] [VStr "b"; VStr "a"; VStr "b"].

Definition example_pipeline : pipeline baseline_graph :=
  __init__ BaselineBinaryPipeline [] 0.

(** [example_pipeline] after [fit(example_X, example_y)]. *)
Definition example_fitted : world baseline_graph :=
  (fit example_X example_y (World example_pipeline [])).2.

(** The probabilities that the fitted example pipeline predicts. *)
Definition example_proba : table :=
  Table [0; 1; 2] [(VStr "a", [0%Q; 0%Q; 0%Q]); (VStr "b", [1%Q; 1%Q; 1%Q])].


(** The classes and parameters of the code-generation tests. *)
Definition MockRegressionPipeline : pipeline_class :=
  PipelineClass ["MockRegressionPipeline"; "RegressionPipeline"; "PipelineBase"]
                REGRESSION
                (LinearGraph [ComponentName "Imputer";
                              ComponentName "Random Forest Regressor"])
                [("name", "'Mock Regression Pipeline'")].

Definition mock_regression_parameters : params :=
  [("Imputer",
    [("categorical_impute_strategy", PStr "most_frequent");
     ("numeric_impute_strategy", PStr "mean");
     ("categorical_fill_value", PNone);
     ("numeric_fill_value", PNone)]);
   ("Random Forest Regressor",
    [("n_estimators", PInt 100); ("max_depth", PInt 6); ("n_jobs", PInt (-1))])].

Definition MockBinaryPipelineTransformer : pipeline_class :=
  PipelineClass ["MockBinaryPipelineTransformer";
                 "BinaryClassificationPipeline"; "ClassificationPipeline";
                 "PipelineBase"]
                BINARY (LinearGraph [ComponentName "Imputer";
                                     ComponentClass "CustomEstimator"])
                [("name", "'Mock Binary Pipeline with Transformer'")].

Definition NonlinearBinaryPipeline : pipeline_class :=
  PipelineClass ["NonLinearBinaryPipeline"; "BinaryClassificationPipeline";
                 "ClassificationPipeline"; "PipelineBase"]
                BINARY
                (NonlinearGraph
                   [("Imputer", ["Imputer"]);
                    ("OneHot_RandomForest", ["One Hot Encoder"; "Imputer.x"]);
                    ("OneHot_ElasticNet", ["One Hot Encoder"; "Imputer.x"]);
                    ("Random Forest",
                     ["Random Forest Classifier"; "OneHot_RandomForest.x"]);
                    ("Elastic Net",
                     ["Elastic Net Classifier"; "OneHot_ElasticNet.x"]);
                    ("Logistic Regression",
                     ["Logistic Regression Classifier"; "Random Forest";
                      "Elastic Net"])])
                [].

(** [MockAllCustom] of [test_generate_code_pipeline_custom], whose
    components are two classes of the test, its parameters, and the text
    that the test expects for it. *)
Definition MockAllCustom : pipeline_class :=
  PipelineClass ["MockAllCustom"; "BinaryClassificationPipeline";
                 "ClassificationPipeline"; "PipelineBase"]
                BINARY
                (LinearGraph [ComponentClass "CustomTransformer";
                              ComponentClass "CustomEstimator"])
                [("name", "'Mock All Custom Pipeline'")].

Definition mock_all_custom_parameters : params :=
  [("My Custom Estimator", [("random_arg", PBool false)])].

Definition mock_all_custom_code : string :=
  String.concat nl [
    "import json";
    "from evalml.pipelines.binary_classification_pipeline import "
      +:+ "BinaryClassificationPipeline";
    "";
    "class MockAllCustom(BinaryClassificationPipeline):";
    tab +:+ "component_graph = [";
    tab +:+ tab +:+ "CustomTransformer,";
    tab +:+ tab +:+ "CustomEstimator";
    tab +:+ "]";
    tab +:+ "name = 'Mock All Custom Pipeline'";
    "";
    "parameters = json.loads(" +:+ dquote +:+ dquote +:+ dquote +:+ "{";
    tab +:+ dquote +:+ "My Custom Estimator" +:+ dquote +:+ ": {";
    tab +:+ tab +:+ dquote +:+ "random_arg" +:+ dquote +:+ ": false";
    tab +:+ "}";
    "}" +:+ dquote +:+ dquote +:+ dquote +:+ ")";
    "pipeline = MockAllCustom(parameters)"
  ].

(** The text that [test_generate_code_pipeline] expects for
    [MockRegressionPipeline({})]. *)
Definition mock_regression_code : string :=
  String.concat nl [
    "import json";
    "from evalml.pipelines.regression_pipeline import RegressionPipeline";
    "";
    "class MockRegressionPipeline(RegressionPipeline):";
    tab +:+ "component_graph = [";
    tab +:+ tab +:+ "'Imputer',";
    tab +:+ tab +:+ "'Random Forest Regressor'";
    tab +:+ "]";
    tab +:+ "name = 'Mock Regression Pipeline'";
    "";
    "parameters = json.loads(" +:+ dquote +:+ dquote +:+ dquote +:+ "{";
    tab +:+ dquote +:+ "Imputer" +:+ dquote +:+ ": {";
    tab +:+ tab +:+ dquote +:+ "categorical_impute_strategy" +:+ dquote
      +:+ ": " +:+ dquote +:+ "most_frequent" +:+ dquote +:+ ",";
    tab +:+ tab +:+ dquote +:+ "numeric_impute_strategy" +:+ dquote
      +:+ ": " +:+ dquote +:+ "mean" +:+ dquote +:+ ",";
    tab +:+ tab +:+ dquote +:+ "categorical_fill_value" +:+ dquote
      +:+ ": null,";
    tab +:+ tab +:+ dquote +:+ "numeric_fill_value" +:+ dquote +:+ ": null";
    tab +:+ "},";
    tab +:+ dquote +:+ "Random Forest Regressor" +:+ dquote +:+ ": {";
    tab +:+ tab +:+ dquote +:+ "n_estimators" +:+ dquote +:+ ": 100,";
    tab +:+ tab +:+ dquote +:+ "max_depth" +:+ dquote +:+ ": 6,";
    tab +:+ tab +:+ dquote +:+ "n_jobs" +:+ dquote +:+ ": -1";
    tab +:+ "}";
    "}" +:+ dquote +:+ dquote +:+ dquote +:+ ")";
    "pipeline = MockRegressionPipeline(parameters)"
  ].

(** ** The calls of a scoring pass *)

(** Inference calls that [_compute_predictions] makes for a list of
    objectives. *)
Definition inference_calls (objectives : list objective) : list call :=
  (if existsb score_needs_proba objectives then [CallPredictProba] else [])
  ++ (if existsb (λ o, negb (score_needs_proba o)) objectives
      then [CallPredict] else []).

(** Calls of scoring functions that the loop over the objectives makes. *)
Definition score_calls (pt : problem_type) (objectives : list objective)
  : list call :=
  (λ o, CallObjectiveScore (name o))
    <$> filter (λ o, is_defined_for_problem_type o pt = true) objectives.

(** How often a call occurs in a log. *)
Definition count_calls (c : call) (l : list call) : nat :=
  length (filter (λ c', c' = c) l).

(** Every scoring call in the log comes after a call of
    [_decode_targets]. *)
Definition decoded_before_scoring (l : list call) : Prop :=
  ∀ i objective_name, l !! i = Some (CallObjectiveScore objective_name) →
    ∃ j, (j < i)%nat ∧ l !! j = Some CallDecodeTargets.

(** ** Example objectives *)

Definition defined_for_binary (pt : problem_type) : bool := is_binary pt.

(** Number of positions where two lists of codes agree. *)
Fixpoint matches (a b : list Z) : nat :=
  match a, b with
  | x :: a', y :: b' => (if decide (x = y) then 1 else 0) + matches a' b'
  | _, _ => 0
  end%nat.

(** Labels predicted from the probability of the positive class. *)
Definition threshold_labels (t : Q) (proba : list Q) : list Z :=
  (λ q, if Qle_bool q t then 0 else 1) <$> proba.

(** Accuracy on binary labels: the share of predictions that agree with
    the target; its threshold search takes the best of three candidates. *)
Definition accuracy_binary : objective := {|
  name := "Accuracy Binary";
  score_needs_proba := false;
  can_optimize_threshold := true;
  is_defined_for_problem_type := defined_for_binary;
  objective_score y_true y_predicted _ :=
    match y_predicted with
    | Labels s =>
        match s_values y_true with
        | [] => Failed (Exn ValueError "y_true is empty")
        | _ => Scored (Z.of_nat (matches (s_values y_true) (s_values s))
                       # Pos.of_nat (length (s_values y_true)))
        end
    | _ => Failed (Exn ValueError "y_predicted must be a series of labels")
    end;
  objective_optimize_threshold ypred_proba y_true _ :=
    Ok (foldr (λ t best,
                 if decide (matches (s_values y_true)
                              (threshold_labels best (s_values ypred_proba))
                            ≤ matches (s_values y_true)
                                (threshold_labels t (s_values ypred_proba)))%nat
                 then t else best)
              (1 # 2)%Q [(1 # 4)%Q; (1 # 2)%Q; (3 # 4)%Q]);
|}.

(** An objective on probabilities whose threshold cannot be tuned: the
    number of probability columns it is given. *)
Definition column_count : objective := {|
  name := "Column Count";
  score_needs_proba := true;
  can_optimize_threshold := false;
  is_defined_for_problem_type _ := true;
  objective_score _ y_predicted _ :=
    match y_predicted with
    | Probabilities t => Scored (Z.of_nat (length (t_cols t)) # 1)
    | _ => Failed (Exn ValueError "y_predicted must be a table")
    end;
  objective_optimize_threshold _ _ _ :=
    raise ValueError "this objective has no threshold";
|}.

(** An objective whose scoring function always raises, as the tests make
    one with a mock. *)
Definition exploding (objective_name message : string) : objective := {|
  name := objective_name;
  score_needs_proba := false;
  can_optimize_threshold := true;
  is_defined_for_problem_type _ := true;
  objective_score _ _ _ := Failed (Exn OtherException message);
  objective_optimize_threshold _ _ _ := raise OtherException message;
|}.

(** ** Search utilities of [evalml/automl/utils.py] *)

(** [_LARGE_DATA_ROW_THRESHOLD = int(1e5)] and
    [_LARGE_DATA_PERCENT_VALIDATION = 0.75]. *)
Definition _LARGE_DATA_ROW_THRESHOLD : Z := 100000.

Definition _LARGE_DATA_PERCENT_VALIDATION : Q := (3 # 4)%Q.

(** Modelled from the spec: [evalml.problem_types.is_time_series] is
    imported by [automl/utils.py] but not defined in the sources at hand;
    the time series problem types are the three named so. *)
Definition is_time_series (pt : problem_type) : bool :=
  match pt with
  | TIME_SERIES_REGRESSION | TIME_SERIES_BINARY | TIME_SERIES_MULTICLASS => true
  | _ => false
  end.

(** Modelled from the spec: [evalml.utils.deprecate_arg] is not among the
    sources; a value given under the deprecated name is forwarded (with a
    warning) in place of the value of the new name. *)
Definition deprecate_arg (old_arg new_arg : string) (old_value : option Z)
    (new_value : Z) : Z :=
  default new_value old_value.

(** The splitter objects that [make_data_splitter] constructs, each with
    the keyword arguments it is constructed from.  [n_splits] is an integer
    or [None]; [gap] and [max_delay] are whatever the configuration
    holds. *)
Inductive data_splitter :=
  | TimeSeriesSplit (n_splits : option Z) (gap max_delay : pyvalue)
  | TrainingValidationSplit (test_size : Q) (shuffle : bool)
  | BalancedClassificationDataTVSplit (test_size : Q) (shuffle : bool)
                                      (random_seed : Z)
  | KFold (n_splits : option Z) (random_state : Z) (shuffle : bool)
  | BalancedClassificationDataCVSplit (n_splits : option Z) (random_seed : Z)
                                      (shuffle : bool).

(** [d.get(key)] of a dict: the value, or [None]. *)
Definition dict_get (d : gmap string pyvalue) (key : string) : pyvalue :=
  default PNone (d !! key).

(** [make_data_splitter].  [problem_type] arrives as a member of
    [ProblemTypes], on which [handle_problem_types] is the identity;
    [X.shape[0]] is the number of rows of [X].  The result is the splitter,
    or Python's [None] where the function falls off its end. *)
Definition make_data_splitter (X : table) (y : series value)
    (problem_type : problem_type)
    (problem_configuration : option (gmap string pyvalue))
    (n_splits : option Z) (shuffle : bool)
    (random_state : option Z) (random_seed : Z)
  : outcome (option data_splitter) :=
  let random_seed :=
    deprecate_arg "random_state" "random_seed" random_state random_seed in
  if is_time_series problem_type then
    match problem_configuration with
    | Some configuration =>
        if decide (configuration = ∅)
        then raise ValueError
               "problem_configuration is required for time series problem types"
        else Ok (Some (TimeSeriesSplit n_splits
                         (dict_get configuration "gap")
                         (dict_get configuration "max_delay")))
    | None =>
        raise ValueError
          "problem_configuration is required for time series problem types"
    end
  else
    let large : option data_splitter :=
      if decide (Z.of_nat (length (t_index X)) > _LARGE_DATA_ROW_THRESHOLD)
      then
        if decide (problem_type = REGRESSION)
        then Some (TrainingValidationSplit _LARGE_DATA_PERCENT_VALIDATION
                     shuffle)
        else if decide (problem_type ∈ [BINARY; MULTICLASS])
        then Some (BalancedClassificationDataTVSplit
                     _LARGE_DATA_PERCENT_VALIDATION shuffle random_seed)
        else None
      else None in
    match large with
    | Some splitter => Ok (Some splitter)
    | None =>
        if decide (problem_type = REGRESSION)
        then Ok (Some (KFold n_splits random_seed shuffle))
        else if decide (problem_type ∈ [BINARY; MULTICLASS])
        then Ok (Some (BalancedClassificationDataCVSplit n_splits random_seed
                         shuffle))
        else Ok None
    end.



(** A table of [n] rows and no column. *)
Definition empty_rows (n : nat) : table := Table (range_index n) [].

(** [<=] of Python on [str]: by code points, as on string labels. *)
Definition string_le (s t : string) : Prop := value_le (VStr s) (VStr t).

#[global] Instance string_le_dec : RelDecision string_le.
Proof. intros s t. unfold string_le. apply _. Defined.

(** [pd.Series(l).value_counts()]: each distinct entry with the number of
    its occurrences.  pandas orders the rows by falling count; the rows are
    here in the order of first occurrence, the one use below sorts the
    names it takes from them. *)
Definition value_counts (l : list string) : list (string * nat) :=
  (λ n, (n, length (filter (λ m, m = n) l))) <$> remove_dups l.

Section PipelineNames.

(** [p.name] of a pipeline object. *)
Context {P : Type} (pipeline_name : P → string).

Definition check_all_pipeline_names_unique (pipelines : list P)
  : outcome unit :=
  let name_count := value_counts (pipeline_name <$> pipelines) in
  let duplicate_names :=
    fst <$> filter (λ entry, (1 < entry.2)%nat) name_count in
  if decide (duplicate_names = []) then Ok tt
  else
    let '(plural, tense) :=
      if decide (1 < length duplicate_names)%nat
      then ("s", "were") else ("", "was") in
    let duplicates :=
      String.concat ", "
        ((λ n, "'" +:+ n +:+ "'") <$> merge_sort string_le duplicate_names) in
    raise ValueError
      ("All pipeline names must be unique. The name" +:+ plural +:+ " "
         +:+ duplicates +:+ " " +:+ tense +:+ " repeated.").

End PipelineNames.

(** The names that occur more than once in a list. *)
Definition occurs_twice (n : string) (l : list string) : Prop :=
  ∃ i j, i ≠ j ∧ l !! i = Some n ∧ l !! j = Some n.

(** ** Methods that only read the pipeline *)

(** A method body that leaves [self] as it is and only adds to the log of
    calls. *)
Definition read_only {G A} (m : prog G A) : Prop :=
  ∀ w, self (m w).2 = self w
       ∧ ∃ new_calls, calls (m w).2 = calls w ++ new_calls.

(** A method body whose result and whose effect on [self] do not depend on
    the calls logged so far. *)
Definition log_blind {G A} (m : prog G A) : Prop :=
  ∀ p l l', (m (World p l)).1 = (m (World p l')).1
            ∧ self (m (World p l)).2 = self (m (World p l')).2.

(** A target with one class only, and the example pipeline fitted on
    it. *)
Definition example_y_one_class : series value :=
  Series (Some (VStr "target")) [0; 1; 2] [VStr "a"; VStr "a"; VStr "a"].

Definition example_fitted_one_class : world baseline_graph :=
  (fit example_X example_y_one_class (World example_pipeline [])).2.

(** * Properties *)

(** ** The order on labels *)

Lemma string_compare_antisym (s t : string) :
  String_as_OT.compare t s = CompOpp (String_as_OT.compare s t).
Proof.
  destruct (String_as_OT.compare_spec s t) as [Heq|Hlt|Hgt];
    destruct (String_as_OT.compare_spec t s) as [Heq'|Hlt'|Hgt']; simpl;
    try done; unfold String_as_OT.eq in *; subst; exfalso;
    first [ by eapply (irreflexivity String_as_OT.lt)
          | eapply (irreflexivity String_as_OT.lt); etransitivity; eassumption ].
Qed.

Lemma value_compare_antisym (a b : value) :
  value_compare b a = CompOpp (value_compare a b).
Proof.
  destruct a, b; simpl; try done.
  - apply Z.compare_antisym.
  - apply string_compare_antisym.
Qed.

Lemma value_compare_eq (a b : value) : value_compare a b = Eq → a = b.
Proof.
  destruct a as [x|s], b as [y|t]; simpl; try done.
  - intros ->%Z.compare_eq. done.
  - destruct (String_as_OT.compare_spec s t) as [Heq| |]; try done.
    unfold String_as_OT.eq in Heq. by subst.
Qed.

Lemma value_compare_refl (a : value) : value_compare a a = Eq.
Proof.
  destruct a as [x|s]; simpl; [apply Z.compare_refl|].
  destruct (String_as_OT.compare_spec s s) as [|Hlt|Hlt]; try done;
    by destruct (irreflexivity String_as_OT.lt s).
Qed.

#[global] Instance value_lt_trans : Transitive value_lt.
Proof.
  intros [x|s] [y|t] [z|u]; unfold value_lt; simpl; try done.
  - rewrite !Z.compare_lt_iff. lia.
  - intros Hst Htu. change (String_as_OT.lt s u). by transitivity t.
Qed.

Lemma value_le_lt_or_eq (a b : value) : value_le a b ↔ value_lt a b ∨ a = b.
Proof.
  unfold value_le, value_leb, value_lt. split.
  - destruct (value_compare a b) eqn:E; try done; [|by left].
    right. by apply value_compare_eq.
  - intros [->| ->]; [done|]. by rewrite value_compare_refl.
Qed.

#[global] Instance value_le_trans : Transitive value_le.
Proof.
  intros a b c. rewrite !value_le_lt_or_eq.
  intros [Hab| ->] [Hbc| ->]; eauto. left. by transitivity b.
Qed.

#[global] Instance value_le_total : Total value_le.
Proof.
  intros a b. unfold value_le, value_leb.
  rewrite (value_compare_antisym a b). destruct (value_compare a b); auto.
Qed.

Lemma StronglySorted_strict (l : list value) :
  StronglySorted value_le l → NoDup l → StronglySorted value_lt l.
Proof.
  induction 1 as [|x l Hl IH Hx]; intros Hnd; [constructor|].
  apply NoDup_cons in Hnd as [Hnotin Hnd]. constructor; [by apply IH|].
  rewrite Forall_forall in Hx |- *. intros y Hy.
  destruct (proj1 (value_le_lt_or_eq x y) (Hx y Hy)) as [| ->]; [done|].
  by destruct Hnotin.
Qed.

(** ** The label encoder *)

Lemma traverse_Forall2 {A B} (f : A → outcome B) (l : list A) (l' : list B) :
  traverse f l = Ok l' ↔ Forall2 (λ x y, f x = Ok y) l l'.
Proof.
  revert l'. induction l as [|x l IH]; intros l'; simpl.
  - split; [intros [= <-]; constructor|by intros ->%Forall2_nil_inv_l].
  - split.
    + destruct (f x) as [y|] eqn:Hy; simpl; [|done].
      destruct (traverse f l) as [ys|] eqn:Hys; simpl; [|done].
      intros [= <-]. constructor; [done|]. by apply IH.
    + intros (y & ys & Hy & Hys & ->)%Forall2_cons_inv_l.
      rewrite Hy. simpl. apply IH in Hys. by rewrite Hys.
Qed.

Lemma index_of_Some (cs : list value) (v : value) (i : nat) :
  LabelEncoder.index_of cs v = Some i → cs !! i = Some v.
Proof.
  unfold LabelEncoder.index_of. destruct (list_find _ cs) as [[j x]|] eqn:E;
    simpl; [|done].
  intros [= ->]. apply list_find_Some in E as (Hx & -> & _). done.
Qed.

Lemma index_of_elem_of (cs : list value) (v : value) :
  v ∈ cs → is_Some (LabelEncoder.index_of cs v).
Proof.
  intros Hv. unfold LabelEncoder.index_of.
  destruct (list_find_elem_of (λ c, c = v) cs v Hv eq_refl) as [[i x] ->].
  by eexists.
Qed.

Lemma index_of_NoDup (cs : list value) (v : value) (i : nat) :
  NoDup cs → cs !! i = Some v → LabelEncoder.index_of cs v = Some i.
Proof.
  intros Hnd Hi.
  destruct (index_of_elem_of cs v) as [j Hj]; [by eapply list_elem_of_lookup_2|].
  rewrite Hj. f_equal. apply index_of_Some in Hj.
  by eapply NoDup_lookup.
Qed.

Lemma encoder_fit_uniform (ys : list value) :
  forallb is_int ys || forallb is_str ys = true →
  LabelEncoder.fit ys
  = Ok (LabelEncoder.Make (Some (merge_sort value_le (remove_dups ys)))).
Proof. intros Hu. unfold LabelEncoder.fit. by rewrite Hu. Qed.

Lemma sorted_set_elem_of (ys : list value) (v : value) :
  v ∈ merge_sort value_le (remove_dups ys) ↔ v ∈ ys.
Proof. by rewrite merge_sort_Permutation, elem_of_remove_dups. Qed.

Lemma sorted_set_NoDup (ys : list value) :
  NoDup (merge_sort value_le (remove_dups ys)).
Proof. rewrite merge_sort_Permutation. apply NoDup_remove_dups. Qed.

Lemma sorted_set_sorted (ys : list value) :
  StronglySorted value_lt (merge_sort value_le (remove_dups ys)).
Proof.
  apply StronglySorted_strict; [|apply sorted_set_NoDup].
  apply StronglySorted_merge_sort; apply _.
Qed.

Lemma transform_inverse (cs ys : list value) :
  (∀ v, v ∈ ys → v ∈ cs) →
  ∃ codes,
    LabelEncoder.transform (LabelEncoder.Make (Some cs)) ys = Ok codes
    ∧ LabelEncoder.inverse_transform (LabelEncoder.Make (Some cs)) codes = Ok ys
    ∧ Forall (λ c, 0 ≤ c < Z.of_nat (length cs)) codes.
Proof.
  unfold LabelEncoder.transform, LabelEncoder.inverse_transform. simpl.
  induction ys as [|v ys IH]; intros Hin; [by exists []|].
  destruct IH as (codes & Henc & Hdec & Hrange).
  { intros u Hu. apply Hin. by right. }
  destruct (index_of_elem_of cs v) as [i Hi]; [apply Hin; by left|].
  exists (Z.of_nat i :: codes). simpl. rewrite Hi, Henc. simpl.
  apply index_of_Some in Hi. split; [done|].
  rewrite decide_True by lia. rewrite Nat2Z.id, Hi. simpl. rewrite Hdec.
  split; [done|]. constructor; [|done].
  apply lookup_lt_Some in Hi. lia.
Qed.

Lemma transform_classes (cs : list value) :
  NoDup cs →
  LabelEncoder.transform (LabelEncoder.Make (Some cs)) cs
  = Ok (Z.of_nat <$> seq 0 (length cs)).
Proof.
  intros Hnd. unfold LabelEncoder.transform. simpl.
  apply traverse_Forall2, Forall2_same_length_lookup.
  split; [by rewrite length_fmap, length_seq|].
  intros i v c Hv Hc. rewrite (index_of_NoDup cs v i Hnd Hv).
  rewrite list_lookup_fmap in Hc.
  destruct (seq 0 (length cs) !! i) as [j|] eqn:Hj; simplify_eq/=.
  apply lookup_seq in Hj as [-> _]. done.
Qed.

Lemma inverse_transform_total (cs : list value) (codes : list Z) :
  Forall (λ c, 0 ≤ c < Z.of_nat (length cs)) codes →
  ∃ labels,
    LabelEncoder.inverse_transform (LabelEncoder.Make (Some cs)) codes
    = Ok labels.
Proof.
  unfold LabelEncoder.inverse_transform. simpl.
  induction 1 as [|c codes Hc _ (labels & IH)]; [by exists []|].
  destruct (lookup_lt_is_Some_2 cs (Z.to_nat c)) as [v Hv]; [lia|].
  exists (v :: labels). simpl. rewrite decide_True by lia.
  by rewrite Hv, IH.
Qed.

Lemma inverse_transform_classes (cs : list value) (codes : list Z)
    (labels : list value) :
  LabelEncoder.inverse_transform (LabelEncoder.Make (Some cs)) codes = Ok labels →
  Forall (λ v, v ∈ cs) labels ∧ length labels = length codes.
Proof.
  unfold LabelEncoder.inverse_transform. simpl.
  intros HF%traverse_Forall2. split; [|symmetry; by eapply Forall2_length].
  induction HF as [|c v codes labels Hcv _ IH]; constructor; [|done].
  destruct (decide (0 ≤ c)); [|done].
  destruct (cs !! Z.to_nat c) as [u|] eqn:Hu; simplify_eq/=.
  by eapply list_elem_of_lookup_2.
Qed.

(** ** Fitting and predicting *)

Section FitPredict.

Context {G : Type} `{ComponentGraph G}.

Lemma encode_targets_run (p : pipeline G) (l : list call) (y : series value)
    (codes : list Z) :
  LabelEncoder.transform (_encoder p) (s_values y) = Ok codes →
  _encode_targets y (World p l)
  = (Ok (Series (s_name y) (s_index y) codes), World p (l ++ [CallEncodeTargets])).
Proof. intros Henc. unfold _encode_targets, bind, log, get_self. simpl. by rewrite Henc. Qed.

Lemma fit_run (p : pipeline G) (l : list call) (X : table) (y : series value)
    (enc : LabelEncoder.t) (codes : list Z) :
  LabelEncoder.fit (s_values y) = Ok enc →
  LabelEncoder.transform enc (s_values y) = Ok codes →
  fit X y (World p l)
  = (Ok tt,
     World (Pipeline (p_class p) (parameters p) (random_seed p)
                     (cg_fit (_component_graph p) X
                             (Series (s_name y) (s_index y) codes))
                     enc true (s_name y) (columns X) (threshold p))
           (l ++ [CallEncodeTargets])).
Proof.
  intros Hfit Henc. unfold fit, bind, get_self, lift, set_self. simpl.
  rewrite Hfit. simpl.
  rewrite (encode_targets_run _ _ _ codes) by done. done.
Qed.

Lemma predict_run (p : pipeline G) (l : list call) (X : table) :
  _is_fitted p = true →
  predict X (World p l)
  = (match LabelEncoder.inverse_transform (_encoder p)
             (s_values (cg_predict (_component_graph p) X)) with
     | Ok labels =>
         Ok (Series (input_target_name p) (range_index (length labels)) labels)
     | Raise e => Raise e
     end,
     World p (l ++ [CallPredict; CallDecodeTargets])).
Proof.
  intros Hfitted.
  unfold predict, check_for_fit, _predict, _decode_targets, bind, get_self,
    log, lift, ret. simpl. rewrite Hfitted. simpl.
  rewrite <- app_assoc. simpl.
  by destruct (LabelEncoder.inverse_transform _ _).
Qed.

(** C3.  Fitting a classification pipeline on a target series whose labels
    are of one kind fits the label encoder on the distinct values of [y] in
    strictly increasing order, which the encoder maps to 0, 1, ...,
    n_classes - 1; the component graph is fit on the integer-encoded target;
    decoding the encoded target gives [y] back; and [predict], when the
    graph predicts codes below n_classes, returns those predictions decoded,
    in a series named by the stored [input_target_name], every label being
    one of the fit-time classes. *)
Theorem fit_predict_label_encoding (p : pipeline G) (l : list call)
    (X X' : table) (y : series value) :
  let w' := (fit X y (World p l)).2 in
  let predictions := cg_predict (_component_graph (self w')) X' in
  forallb is_int (s_values y) || forallb is_str (s_values y) = true →
  Forall (λ c, 0 ≤ c < Z.of_nat (n_classes (self w'))) (s_values predictions) →
  ∃ (cs : list value) (codes : list Z) (labels : list value),
    (fit X y (World p l)).1 = Ok tt
    ∧ LabelEncoder.classes_ (_encoder (self w')) = Some cs
    ∧ StronglySorted value_lt cs
    ∧ (∀ v, v ∈ cs ↔ v ∈ s_values y)
    ∧ LabelEncoder.transform (_encoder (self w')) cs
      = Ok (Z.of_nat <$> seq 0 (length cs))
    ∧ LabelEncoder.transform (_encoder (self w')) (s_values y) = Ok codes
    ∧ _component_graph (self w')
      = cg_fit (_component_graph p) X (Series (s_name y) (s_index y) codes)
    ∧ _is_fitted (self w') = true
    ∧ input_target_name (self w') = s_name y
    ∧ LabelEncoder.inverse_transform (_encoder (self w')) codes
      = Ok (s_values y)
    ∧ LabelEncoder.inverse_transform (_encoder (self w'))
        (s_values predictions) = Ok labels
    ∧ (predict X' w').1
      = Ok (Series (s_name y) (range_index (length labels)) labels)
    ∧ Forall (λ v, v ∈ cs) labels.
Proof.
  intros w' predictions Huniform. subst predictions w'.
  set (cs := merge_sort value_le (remove_dups (s_values y))).
  destruct (transform_inverse cs (s_values y)) as (codes & Henc & Hdec & _).
  { intros v Hv. by apply sorted_set_elem_of. }
  rewrite (fit_run p l X y _ codes (encoder_fit_uniform _ Huniform) Henc).
  cbn [fst snd self _encoder _component_graph _is_fitted input_target_name].
  unfold n_classes. cbn [_encoder LabelEncoder.classes_]. fold cs.
  intros Hrange.
  destruct (inverse_transform_total cs _ Hrange) as [labels Hlabels].
  exists cs, codes, labels.
  rewrite predict_run by done.
  cbn [fst _encoder _component_graph input_target_name]. rewrite Hlabels.
  repeat split; try done.
  - apply sorted_set_sorted.
  - by apply sorted_set_elem_of.
  - by apply sorted_set_elem_of.
  - apply transform_classes, sorted_set_NoDup.
  - by eapply inverse_transform_classes.
Qed.

End FitPredict.

Example example_fit_predict :
  (predict example_X example_fitted).1
  = Ok (Series (Some (VStr "target")) [0; 1; 2] [VStr "b"; VStr "b"; VStr "b"]).
Proof. vm_compute. reflexivity. Qed.

Lemma fit_predict_label_encoding_witness :
  forallb is_int (s_values example_y) || forallb is_str (s_values example_y)
  = true
  ∧ Forall (λ c, 0 ≤ c < Z.of_nat (n_classes (self example_fitted)))
      (s_values (cg_predict (_component_graph (self example_fitted)) example_X))
  ∧ ∃ labels,
      (predict example_X example_fitted).1
      = Ok (Series (s_name example_y) (range_index (length labels)) labels)
      ∧ Forall (λ v, v ∈ [VStr "a"; VStr "b"]) labels.
Proof.
  assert (Hrange :
    Forall (λ c, 0 ≤ c < Z.of_nat (n_classes (self example_fitted)))
      (s_values (cg_predict (_component_graph (self example_fitted)) example_X))).
  { vm_compute. repeat constructor; discriminate. }
  split; [reflexivity|]. split; [exact Hrange|].
  destruct (fit_predict_label_encoding example_pipeline [] example_X example_X
              example_y eq_refl Hrange)
    as (cs & codes & labels & _ & Hcs & _ & _ & _ & _ & _ & _ & _ & _ & _
        & Hpredict & Hlabels).
  exists labels. split; [exact Hpredict|].
  vm_compute in Hcs. injection Hcs as <-. exact Hlabels.
Defined.

(** ** Probability columns *)

#[global] Instance value_le_antisymm : AntiSymm (=) value_le.
Proof.
  intros a b. rewrite !value_le_lt_or_eq. intros [Hab| ->] [Hba|Heq]; try done.
  assert (Haa : value_lt a a) by (by transitivity b).
  unfold value_lt in Haa. by rewrite value_compare_refl in Haa.
Qed.

Lemma sorted_set_unique (ys cs : list value) :
  StronglySorted value_le cs → NoDup cs → (∀ v, v ∈ cs ↔ v ∈ ys) →
  merge_sort value_le (remove_dups ys) = cs.
Proof.
  intros Hsorted Hnd Hin.
  apply (StronglySorted_unique value_le).
  - apply StronglySorted_merge_sort; apply _.
  - done.
  - apply NoDup_Permutation; [apply sorted_set_NoDup|done|].
    intros v. by rewrite sorted_set_elem_of, Hin.
Qed.

Lemma set_columns_columns (t t' : table) (labels : list value) :
  set_columns t labels = Ok t' →
  columns t' = labels ∧ snd <$> t_cols t' = snd <$> t_cols t
  ∧ t_index t' = t_index t.
Proof.
  unfold set_columns, columns. case_decide as Hlen; [|done].
  intros [= <-]. simpl.
  rewrite fst_zip, snd_zip by (rewrite length_fmap; lia). done.
Qed.

Section PredictProba.

Context {G : Type} `{ComponentGraph G}.

Lemma predict_proba_run (p : pipeline G) (l : list call) (X : table)
    (cs : list value) :
  _is_fitted p = true →
  LabelEncoder.classes_ (_encoder p) = Some cs →
  predict_proba X (World p l)
  = (set_columns (estimator_proba p X) cs, World p (l ++ [CallPredictProba])).
Proof.
  intros Hfitted Hcs.
  unfold predict_proba, check_for_fit, bind, get_self, log, lift. simpl.
  rewrite Hfitted. simpl. by rewrite Hcs.
Qed.

(** C8.  After fitting on a target whose labels are of one kind,
    [predict_proba] returns the estimator's table (one column per class)
    with its columns renamed to exactly the classes learned at fit, the
    distinct values of the fit-time target in strictly increasing order;
    when the labels are 0 and 1 the table has the two columns 0 and 1. *)
Theorem predict_proba_columns (p : pipeline G) (l : list call)
    (X X' : table) (y : series value) :
  let w' := (fit X y (World p l)).2 in
  forallb is_int (s_values y) || forallb is_str (s_values y) = true →
  length (t_cols (estimator_proba (self w') X')) = n_classes (self w') →
  ∃ (t : table) (cs : list value),
    (predict_proba X' w').1 = Ok t
    ∧ LabelEncoder.classes_ (_encoder (self w')) = Some cs
    ∧ columns t = cs
    ∧ StronglySorted value_lt cs
    ∧ (∀ v, v ∈ cs ↔ v ∈ s_values y)
    ∧ length (columns t) = length (remove_dups (s_values y))
    ∧ snd <$> t_cols t = snd <$> t_cols (estimator_proba (self w') X')
    ∧ ((∀ v, v ∈ s_values y ↔ v = VInt 0 ∨ v = VInt 1) →
       columns t = [VInt 0; VInt 1]).
Proof.
  intros w' Huniform. subst w'.
  set (cs := merge_sort value_le (remove_dups (s_values y))).
  destruct (transform_inverse cs (s_values y)) as (codes & Henc & _).
  { intros v Hv. by apply sorted_set_elem_of. }
  rewrite (fit_run p l X y _ codes (encoder_fit_uniform _ Huniform) Henc).
  cbn [snd self]. set (p' := Pipeline _ _ _ _ _ _ _ _ _).
  unfold n_classes. cbn [p' _encoder LabelEncoder.classes_]. fold cs.
  intros Hwidth. rewrite (predict_proba_run p' _ X' cs) by done. cbn [fst].
  destruct (set_columns (estimator_proba p' X') cs) as [t|] eqn:Ht.
  2:{ unfold set_columns in Ht. by rewrite decide_True in Ht. }
  apply set_columns_columns in Ht as (Hcols & Hcells & _).
  exists t, cs. repeat split; try done.
  - apply sorted_set_sorted.
  - by apply sorted_set_elem_of.
  - by apply sorted_set_elem_of.
  - rewrite Hcols. unfold cs.
    by rewrite merge_sort_Permutation.
  - intros Hbinary. rewrite Hcols. apply sorted_set_unique.
    + repeat constructor.
    + apply NoDup_cons. split; [|apply NoDup_singleton].
      rewrite list_elem_of_singleton. done.
    + intros v. rewrite Hbinary, !elem_of_cons, elem_of_nil. tauto.
Qed.

End PredictProba.

Lemma predict_proba_columns_witness :
  forallb is_int (s_values example_y) || forallb is_str (s_values example_y)
  = true
  ∧ length (t_cols (estimator_proba (self example_fitted) example_X))
    = n_classes (self example_fitted)
  ∧ ∃ t, (predict_proba example_X example_fitted).1 = Ok t
         ∧ columns t = [VStr "a"; VStr "b"].
Proof.
  assert (Hwidth :
    length (t_cols (estimator_proba (self example_fitted) example_X))
    = n_classes (self example_fitted)) by (vm_compute; reflexivity).
  split; [reflexivity|]. split; [exact Hwidth|].
  destruct (predict_proba_columns example_pipeline [] example_X example_X
              example_y eq_refl Hwidth)
    as (t & cs & Ht & Hcs & Hcols & _).
  exists t. split; [exact Ht|].
  vm_compute in Hcs. injection Hcs as <-. exact Hcols.
Defined.

(** ** Texts *)

Lemma string_app_assoc (a b c : string) : (a +:+ b) +:+ c = a +:+ b +:+ c.
Proof.
  induction a as [|x a IH]; [done|].
  change (String x ((a +:+ b) +:+ c) = String x (a +:+ b +:+ c)).
  by rewrite IH.
Qed.

Lemma string_app_empty_r (a : string) : a +:+ "" = a.
Proof.
  induction a as [|x a IH]; [done|].
  change (String x (a +:+ "") = String x a). by rewrite IH.
Qed.

Lemma contains_refl (s : string) : contains s s.
Proof. exists "", "". by rewrite string_app_empty_r. Qed.

Lemma contains_app_l (a b t : string) : contains a t → contains (a +:+ b) t.
Proof.
  intros (pre & post & ->). exists pre, (post +:+ b).
  by rewrite !string_app_assoc.
Qed.

Lemma contains_app_r (a b t : string) : contains b t → contains (a +:+ b) t.
Proof.
  intros (pre & post & ->). exists (a +:+ pre), post.
  by rewrite !string_app_assoc.
Qed.

Lemma contains_trans (s t u : string) :
  contains s t → contains t u → contains s u.
Proof.
  intros (pre & post & ->) (pre' & post' & ->).
  exists (pre +:+ pre'), (post' +:+ post). by rewrite !string_app_assoc.
Qed.

(** Finds a part in a text built by appending parts. *)
Ltac find_part :=
  first [ apply contains_refl
        | apply contains_app_l, contains_refl
        | apply contains_app_r; find_part ].

Lemma contains_concat (sep x : string) (l : list string) :
  x ∈ l → contains (String.concat sep l) x.
Proof.
  induction l as [|y l IH]; [by intros ?%elem_of_nil|].
  intros [->|Hx]%elem_of_cons.
  - destruct l; simpl; [apply contains_refl|].
    apply contains_app_l, contains_refl.
  - destruct l as [|z l]; [by apply elem_of_nil in Hx|].
    change (contains (y +:+ sep +:+ String.concat sep (z :: l)) x).
    by apply contains_app_r, contains_app_r, IH.
Qed.

Lemma failure_line_contains (n : string) (e : exn) :
  contains (failure_line (n, e)) (exn_msg e).
Proof.
  unfold failure_line. simpl. find_part.
Qed.

Lemma score_error_message_contains (exceptions : gmap string exn)
    (n : string) (e : exn) :
  exceptions !! n = Some e →
  contains (score_error_message exceptions) (exn_msg e).
Proof.
  intros Hn. eapply contains_trans; [|apply (failure_line_contains n)].
  apply contains_concat, list_elem_of_fmap. exists (n, e).
  split; [done|]. by apply elem_of_map_to_list.
Qed.

(** ** Scoring *)

Section Scoring.

Context {G : Type} `{ComponentGraph G}.

(** What [_compute_predictions] returns for a list of objectives. *)
Lemma compute_predictions_run (p : pipeline G) (l : list call) (X : table)
    (y : series Z) (objectives : list objective) (cs : list value) (t : table) :
  _is_fitted p = true →
  LabelEncoder.classes_ (_encoder p) = Some cs →
  (existsb score_needs_proba objectives = true →
   set_columns (estimator_proba p X) cs = Ok t) →
  _compute_predictions X y objectives false (World p l)
  = (Ok (if existsb (λ o, negb (score_needs_proba o)) objectives
         then Some (cg_predict (_component_graph p) X) else None,
         if existsb score_needs_proba objectives then Some t else None),
     World p (l ++ inference_calls objectives)).
Proof.
  intros Hfitted Hcs Hproba. unfold _compute_predictions, inference_calls, bind.
  destruct (existsb score_needs_proba objectives) eqn:Hneeds.
  - rewrite (predict_proba_run p l X cs) by done. rewrite Hproba by done.
    destruct (existsb (λ o, negb (score_needs_proba o)) objectives);
      unfold _predict, bind, log, get_self, ret; simpl;
      by rewrite <- ?app_assoc.
  - destruct (existsb (λ o, negb (score_needs_proba o)) objectives);
      unfold _predict, bind, log, get_self, ret; simpl;
      by rewrite ?app_nil_r.
Qed.

(** The loop over the objectives, for objectives with distinct names that
    are not yet in the two dicts. *)
Lemma score_each_run (pt : problem_type) (X : table) (y : series Z)
    (y_pred : option (series Z)) (y_pred_proba : option table)
    (objectives : list objective) :
  ∀ (ok : gmap string Q) (bad : gmap string exn) (p : pipeline G)
    (l : list call),
  NoDup (name <$> objectives) →
  (∀ o, o ∈ objectives → ok !! name o = None ∧ bad !! name o = None) →
  ∃ ok' bad',
    score_each pt X y y_pred y_pred_proba objectives ok bad (World p l)
    = (Ok (ok', bad'), World p (l ++ score_calls pt objectives))
    ∧ (∀ n v, ok' !! n = Some v ↔
         ok !! n = Some v
         ∨ ∃ o, o ∈ objectives ∧ name o = n
                ∧ evaluate_objective pt X y y_pred y_pred_proba o = Scored v)
    ∧ (∀ n e, bad' !! n = Some e ↔
         bad !! n = Some e
         ∨ ∃ o, o ∈ objectives ∧ name o = n
                ∧ evaluate_objective pt X y y_pred y_pred_proba o = Failed e).
Proof.
  induction objectives as [|o rest IH]; intros ok bad p l Hnd Hfresh.
  { exists ok, bad. unfold score_calls. simpl. rewrite app_nil_r.
    split; [done|]. split; intros; split; auto;
      intros [|(o & []%elem_of_nil & _)]; done. }
  rewrite fmap_cons in Hnd. apply NoDup_cons in Hnd as [Hname Hnd].
  destruct (Hfresh o) as [Hok Hbad]; [by left|].
  assert (Hrest : ∀ o', o' ∈ rest → name o' ≠ name o).
  { intros o' Ho' Heq. apply Hname. rewrite <- Heq.
    apply list_elem_of_fmap. by exists o'. }
  set (l1 := (l ++ (if is_defined_for_problem_type o pt
                    then [CallObjectiveScore (name o)] else []))%list).
  assert (Hcalls : (l1 ++ score_calls pt rest
                    = l ++ score_calls pt (o :: rest))%list).
  { unfold l1, score_calls. rewrite filter_cons.
    destruct (is_defined_for_problem_type o pt) eqn:Hdef.
    - rewrite decide_True by done. by rewrite <- app_assoc.
    - rewrite decide_False by done. by rewrite app_nil_r. }
  assert (Hstep : ∀ ok1 bad1,
    (let* _ := (if is_defined_for_problem_type o pt
                then log (CallObjectiveScore (name o)) else ret tt) in
     score_each pt X y y_pred y_pred_proba rest ok1 bad1) (World p l)
    = score_each pt X y y_pred y_pred_proba rest ok1 bad1 (World p l1)).
  { intros ok1 bad1. unfold bind, l1.
    destruct (is_defined_for_problem_type o pt); simpl; [done|].
    by rewrite app_nil_r. }
  cbn [score_each].
  destruct (evaluate_objective pt X y y_pred y_pred_proba o) as [v|e] eqn:Ho.
  - destruct (IH (<[name o := v]> ok) bad p l1 Hnd)
      as (ok' & bad' & Hrun & Hok' & Hbad').
    { intros o' Ho'. destruct (Hfresh o') as [? ?]; [by right|].
      rewrite lookup_insert_ne by (symmetry; by apply Hrest). done. }
    exists ok', bad'. unfold bind in Hstep |- *.
    specialize (Hstep (<[name o := v]> ok) bad). cbn beta in Hstep.
    split.
    { transitivity
        (score_each pt X y y_pred y_pred_proba rest (<[name o:=v]> ok) bad
                    (World p l1)); [|by rewrite Hrun, Hcalls].
      rewrite <- Hstep.
      destruct (is_defined_for_problem_type o pt); simpl; by rewrite ?Ho. }
    split.
    + intros n u. rewrite Hok'. split.
      * intros [Hins|(o' & Ho' & Hn & Hev)].
        -- destruct (decide (name o = n)) as [<-|Hne].
           ++ rewrite lookup_insert_eq in Hins. simplify_eq.
              right. exists o. split; [by left|done].
           ++ rewrite lookup_insert_ne in Hins by done. by left.
        -- right. exists o'. split; [by right|done].
      * intros [Hold|(o' & [->|Ho']%elem_of_cons & Hn & Hev)].
        -- left. rewrite lookup_insert_ne; [done|]. intros <-. congruence.
        -- left. subst n. rewrite Ho in Hev. simplify_eq.
           apply lookup_insert_eq.
        -- right. by exists o'.
    + intros n u. rewrite Hbad'. split.
      * intros [?|(o' & Ho' & Hn & Hev)]; [by left|].
        right. exists o'. split; [by right|done].
      * intros [?|(o' & [->|Ho']%elem_of_cons & Hn & Hev)]; [by left| |].
        -- congruence.
        -- right. by exists o'.
  - destruct (IH ok (<[name o := e]> bad) p l1 Hnd)
      as (ok' & bad' & Hrun & Hok' & Hbad').
    { intros o' Ho'. destruct (Hfresh o') as [? ?]; [by right|].
      rewrite lookup_insert_ne by (symmetry; by apply Hrest). done. }
    exists ok', bad'. unfold bind in Hstep |- *.
    specialize (Hstep ok (<[name o := e]> bad)). cbn beta in Hstep.
    split.
    { transitivity
        (score_each pt X y y_pred y_pred_proba rest ok (<[name o:=e]> bad)
                    (World p l1)); [|by rewrite Hrun, Hcalls].
      rewrite <- Hstep.
      destruct (is_defined_for_problem_type o pt); simpl; by rewrite ?Ho. }
    split.
    + intros n u. rewrite Hok'. split.
      * intros [?|(o' & Ho' & Hn & Hev)]; [by left|].
        right. exists o'. split; [by right|done].
      * intros [?|(o' & [->|Ho']%elem_of_cons & Hn & Hev)]; [by left| |].
        -- congruence.
        -- right. by exists o'.
    + intros n u. rewrite Hbad'. split.
      * intros [Hins|(o' & Ho' & Hn & Hev)].
        -- destruct (decide (name o = n)) as [<-|Hne].
           ++ rewrite lookup_insert_eq in Hins. simplify_eq.
              right. exists o. split; [by left|done].
           ++ rewrite lookup_insert_ne in Hins by done. by left.
        -- right. exists o'. split; [by right|done].
      * intros [Hold|(o' & [->|Ho']%elem_of_cons & Hn & Hev)].
        -- left. rewrite lookup_insert_ne; [done|]. intros <-. congruence.
        -- left. subst n. rewrite Ho in Hev. simplify_eq.
           apply lookup_insert_eq.
        -- right. by exists o'.
Qed.

(** [score] up to the loop over the objectives. *)
Lemma score_run (p : pipeline G) (l : list call) (X : table)
    (y : series value) (objectives : list objective) (codes : list Z)
    (cs : list value) (t : table) :
  _is_fitted p = true →
  LabelEncoder.classes_ (_encoder p) = Some cs →
  LabelEncoder.transform (_encoder p) (s_values y) = Ok codes →
  (existsb score_needs_proba objectives = true →
   set_columns (estimator_proba p X) cs = Ok t) →
  score X y objectives (World p l)
  = _score_all_objectives X (Series (s_name y) (s_index y) codes)
      (if existsb (λ o, negb (score_needs_proba o)) objectives
       then Some (cg_predict (_component_graph p) X) else None)
      (if existsb score_needs_proba objectives then Some t else None)
      objectives
      (World p (l ++ CallEncodeTargets :: inference_calls objectives)).
Proof.
  intros Hfitted Hcs Henc Hproba. unfold score. unfold bind at 1.
  rewrite (encode_targets_run p l y codes Henc). unfold bind at 1.
  rewrite (compute_predictions_run p _ X _ objectives cs t) by done.
  by rewrite <- app_assoc.
Qed.

(** The composite error, or the scores, after the loop. *)
Lemma score_all_objectives_run (p : pipeline G) (l : list call) (X : table)
    (y : series Z) (y_pred : option (series Z)) (y_pred_proba : option table)
    (objectives : list objective) :
  NoDup (name <$> objectives) →
  ∃ (ok : gmap string Q) (bad : gmap string exn),
    _score_all_objectives X y y_pred y_pred_proba objectives (World p l)
    = (if decide (bad = ∅) then Ok ok else Raise (pipeline_score_error bad ok),
       World p (l ++ score_calls (problem_type_of p) objectives))
    ∧ (∀ n v, ok !! n = Some v ↔
         ∃ o, o ∈ objectives ∧ name o = n
              ∧ evaluate_objective (problem_type_of p) X y y_pred
                  y_pred_proba o = Scored v)
    ∧ (∀ n e, bad !! n = Some e ↔
         ∃ o, o ∈ objectives ∧ name o = n
              ∧ evaluate_objective (problem_type_of p) X y y_pred
                  y_pred_proba o = Failed e).
Proof.
  intros Hnd.
  destruct (score_each_run (problem_type_of p) X y y_pred y_pred_proba
              objectives ∅ ∅ p l Hnd) as (ok & bad & Hrun & Hok & Hbad).
  { intros o _. by rewrite !lookup_empty. }
  exists ok, bad. split.
  - unfold _score_all_objectives, bind, get_self. cbn [self].
    rewrite Hrun. by destruct (decide (bad = ∅)).
  - split.
    + intros n v. rewrite Hok, lookup_empty. split; [|by right].
      by intros [|].
    + intros n e. rewrite Hbad, lookup_empty. split; [|by right].
      by intros [|].
Qed.

(** C1.  For a fitted pipeline whose targets encode and whose
    probabilities, when needed, are well formed, and objectives with
    distinct names: if evaluating some objective raises, [score] raises one
    [PipelineScoreError] whose [scored_successfully] maps exactly the
    objectives that scored to their values, whose [exceptions] maps exactly
    the objectives that raised to the captured exceptions, and whose message
    contains the text of every failure; if every objective scores, [score]
    returns the mapping from objective name to value.  An objective that
    raises does not keep the others from being scored. *)
Theorem score_partial_failure (p : pipeline G) (l : list call) (X : table)
    (y : series value) (objectives : list objective) (codes : list Z)
    (cs : list value) (t : table) :
  let evaluated :=
    evaluate_objective (problem_type_of p) X
      (Series (s_name y) (s_index y) codes)
      (if existsb (λ o, negb (score_needs_proba o)) objectives
       then Some (cg_predict (_component_graph p) X) else None)
      (if existsb score_needs_proba objectives then Some t else None) in
  let result := (score X y objectives (World p l)).1 in
  _is_fitted p = true →
  LabelEncoder.classes_ (_encoder p) = Some cs →
  LabelEncoder.transform (_encoder p) (s_values y) = Ok codes →
  (existsb score_needs_proba objectives = true →
   set_columns (estimator_proba p X) cs = Ok t) →
  NoDup (name <$> objectives) →
  ((∃ o e, o ∈ objectives ∧ evaluated o = Failed e) →
   ∃ exceptions scored_successfully message,
     result = Raise (PipelineScoreError exceptions scored_successfully message)
     ∧ (∀ n v, scored_successfully !! n = Some v ↔
          ∃ o, o ∈ objectives ∧ name o = n ∧ evaluated o = Scored v)
     ∧ (∀ n e, exceptions !! n = Some e ↔
          ∃ o, o ∈ objectives ∧ name o = n ∧ evaluated o = Failed e)
     ∧ (∀ o e, o ∈ objectives → evaluated o = Failed e →
          contains message (exn_msg e)))
  ∧ ((∀ o, o ∈ objectives → ∃ v, evaluated o = Scored v) →
     ∃ scores,
       result = Ok scores
       ∧ (∀ n v, scores !! n = Some v ↔
            ∃ o, o ∈ objectives ∧ name o = n ∧ evaluated o = Scored v)).
Proof.
  intros evaluated result Hfitted Hcs Henc Hproba Hnd. subst result.
  rewrite (score_run p l X y objectives codes cs t) by done.
  destruct (score_all_objectives_run p
              (l ++ CallEncodeTargets :: inference_calls objectives) X
              (Series (s_name y) (s_index y) codes)
              (if existsb (λ o, negb (score_needs_proba o)) objectives
               then Some (cg_predict (_component_graph p) X) else None)
              (if existsb score_needs_proba objectives then Some t else None)
              objectives Hnd) as (ok & bad & -> & Hok & Hbad).
  fold evaluated in Hok, Hbad. cbn [fst]. split.
  - intros (o & e & Ho & He).
    assert (Hbad_o : bad !! name o = Some e) by (apply Hbad; eauto).
    rewrite decide_False by (intros ->; by rewrite lookup_empty in Hbad_o).
    exists bad, ok, (score_error_message bad).
    split; [done|]. split; [done|]. split; [done|].
    intros o' e' Ho' He'.
    apply (score_error_message_contains bad (name o')). apply Hbad; eauto.
  - intros Hall. rewrite decide_True.
    + by exists ok.
    + apply map_eq. intros n. rewrite lookup_empty.
      destruct (bad !! n) as [e|] eqn:Hn; [|done].
      apply Hbad in Hn as (o & Ho & _ & He).
      destruct (Hall o Ho) as [v Hv]. congruence.
Qed.

(** C2, as the code has it.  For a fitted pipeline whose targets encode
    and whose probabilities, when needed, are well formed: [score] computes
    the predicted probabilities exactly when some objective needs them and
    the label predictions exactly when some objective does not, each at most
    once, the other kind staying [None]; the label predictions handed to
    the objectives are the integer codes that the component graph predicts,
    next to the integer-encoded target, and [_decode_targets] is not
    called. *)
Theorem score_computes_needed_predictions_once (p : pipeline G)
    (l : list call) (X : table) (y : series value)
    (objectives : list objective) (codes : list Z) (cs : list value)
    (t : table) :
  let y_encoded := Series (s_name y) (s_index y) codes in
  _is_fitted p = true →
  LabelEncoder.classes_ (_encoder p) = Some cs →
  LabelEncoder.transform (_encoder p) (s_values y) = Ok codes →
  (existsb score_needs_proba objectives = true →
   set_columns (estimator_proba p X) cs = Ok t) →
  ∃ (y_predicted : option (series Z)) (y_predicted_proba : option table)
    (new_calls : list call),
    _compute_predictions X y_encoded objectives false
      (World p (l ++ [CallEncodeTargets]))
    = (Ok (y_predicted, y_predicted_proba),
       World p (l ++ CallEncodeTargets :: inference_calls objectives))
    ∧ (is_Some y_predicted_proba ↔
         ∃ o, o ∈ objectives ∧ score_needs_proba o = true)
    ∧ (is_Some y_predicted ↔
         ∃ o, o ∈ objectives ∧ score_needs_proba o = false)
    ∧ (∀ s, y_predicted = Some s → s = cg_predict (_component_graph p) X)
    ∧ (∀ t', y_predicted_proba = Some t' →
         (predict_proba X (World p l)).1 = Ok t')
    ∧ score X y objectives (World p l)
      = _score_all_objectives X y_encoded y_predicted y_predicted_proba
          objectives
          (World p (l ++ CallEncodeTargets :: inference_calls objectives))
    ∧ calls (score X y objectives (World p l)).2 = (l ++ new_calls)%list
    ∧ count_calls CallPredictProba new_calls
      = (if y_predicted_proba is Some _ then 1 else 0)%nat
    ∧ count_calls CallPredict new_calls
      = (if y_predicted is Some _ then 1 else 0)%nat
    ∧ count_calls CallDecodeTargets new_calls = 0%nat.
Proof.
  intros y_encoded Hfitted Hcs Henc Hproba. subst y_encoded.
  exists (if existsb (λ o, negb (score_needs_proba o)) objectives
          then Some (cg_predict (_component_graph p) X) else None),
         (if existsb score_needs_proba objectives then Some t else None),
         (CallEncodeTargets :: inference_calls objectives
            ++ score_calls (problem_type_of p) objectives).
  split.
  { rewrite (compute_predictions_run p _ X _ objectives cs t) by done.
    by rewrite <- app_assoc. }
  split.
  { destruct (existsb score_needs_proba objectives) eqn:E.
    - apply existsb_exists in E as (o & Ho%list_elem_of_In & Hn).
      split; eauto.
    - split; [by intros [? ?]|]. intros (o & Ho%list_elem_of_In & Hn).
      assert (existsb score_needs_proba objectives = true)
        by (apply existsb_exists; eauto).
      congruence. }
  split.
  { destruct (existsb (λ o, negb (score_needs_proba o)) objectives) eqn:E.
    - apply existsb_exists in E as (o & Ho%list_elem_of_In & Hn).
      split; [|eauto]. intros _. exists o. split; [done|].
      by destruct (score_needs_proba o).
    - split; [by intros [? ?]|]. intros (o & Ho%list_elem_of_In & Hn).
      assert (existsb (λ o, negb (score_needs_proba o)) objectives = true).
      { apply existsb_exists. exists o. split; [done|]. by rewrite Hn. }
      congruence. }
  split.
  { intros s.
    by destruct (existsb (λ o, negb (score_needs_proba o)) objectives);
      intros [= <-]. }
  split.
  { intros t'. destruct (existsb score_needs_proba objectives) eqn:E;
      intros [= <-].
    rewrite (predict_proba_run p l X cs) by done. by apply Hproba. }
  split.
  { by apply (score_run p l X y objectives codes cs t). }
  rewrite (score_run p l X y objectives codes cs t) by done.
  unfold _score_all_objectives, bind, get_self. cbn [self].
  assert (Hloop : ∀ ok bad l0, ∃ ok' bad',
    score_each (problem_type_of p) X (Series (s_name y) (s_index y) codes)
      (if existsb (λ o, negb (score_needs_proba o)) objectives
       then Some (cg_predict (_component_graph p) X) else None)
      (if existsb score_needs_proba objectives then Some t else None)
      objectives ok bad (World p l0)
    = (Ok (ok', bad'),
       World p (l0 ++ score_calls (problem_type_of p) objectives))).
  { generalize (if existsb (λ o, negb (score_needs_proba o)) objectives
                then Some (cg_predict (_component_graph p) X) else None).
    generalize (if existsb score_needs_proba objectives then Some t else None).
    intros yp ypp. clear. induction objectives as [|o rest IH];
      intros ok bad l0.
    { exists ok, bad. unfold score_calls. simpl. by rewrite app_nil_r. }
    cbn [score_each]. unfold bind, score_calls. rewrite filter_cons.
    destruct (is_defined_for_problem_type o (problem_type_of p)) eqn:Hdef;
      [rewrite decide_True by done|rewrite decide_False by done]; simpl;
      destruct (evaluate_objective _ _ _ _ _ o) as [v|e].
    - destruct (IH (<[name o:=v]> ok) bad (l0 ++ [CallObjectiveScore (name o)]))
        as (ok' & bad' & ->). exists ok', bad'. by rewrite <- app_assoc.
    - destruct (IH ok (<[name o:=e]> bad) (l0 ++ [CallObjectiveScore (name o)]))
        as (ok' & bad' & ->). exists ok', bad'. by rewrite <- app_assoc.
    - destruct (IH (<[name o:=v]> ok) bad l0) as (ok' & bad' & ->).
      by exists ok', bad'.
    - destruct (IH ok (<[name o:=e]> bad) l0) as (ok' & bad' & ->).
      by exists ok', bad'. }
  destruct (Hloop ∅ ∅ (l ++ CallEncodeTargets :: inference_calls objectives))
    as (ok & bad & ->).
  split.
  { destruct (decide (bad = ∅)); cbn [snd calls];
      by rewrite <- app_assoc. }
  assert (Hscore : ∀ c, (∀ n, c ≠ CallObjectiveScore n) →
    count_calls c (score_calls (problem_type_of p) objectives) = 0%nat).
  { intros c Hc. unfold count_calls, score_calls.
    induction (filter _ objectives) as [|o os IH]; [done|].
    rewrite fmap_cons, filter_cons.
    by rewrite decide_False by (intros Heq; by apply (Hc (name o))). }
  unfold count_calls in *. unfold inference_calls.
  repeat split.
  - rewrite filter_cons, decide_False by done. rewrite !filter_app.
    rewrite !length_app, Hscore by done.
    by destruct (existsb score_needs_proba objectives),
         (existsb (λ o, negb (score_needs_proba o)) objectives).
  - rewrite filter_cons, decide_False by done. rewrite !filter_app.
    rewrite !length_app, Hscore by done.
    by destruct (existsb score_needs_proba objectives),
         (existsb (λ o, negb (score_needs_proba o)) objectives).
  - rewrite filter_cons, decide_False by done. rewrite !filter_app.
    rewrite !length_app, Hscore by done.
    by destruct (existsb score_needs_proba objectives),
         (existsb (λ o, negb (score_needs_proba o)) objectives).
Qed.

End Scoring.

(** The scenario of the objective-error tests: the first objective raises,
    the second one scores. *)
Example score_one_objective_raises :
  ∃ exceptions message,
    (score example_X example_y
           [exploding "F1" "finna kabooom"; accuracy_binary] example_fitted).1
    = Raise (PipelineScoreError exceptions
               {[ "Accuracy Binary" := (2 # 3)%Q ]} message)
    ∧ exceptions !! "F1" = Some (Exn OtherException "finna kabooom")
    ∧ message = "F1 encountered Exception with message (finna kabooom):" +:+ nl.
Proof. do 2 eexists. split; [vm_compute; reflexivity|]. split; reflexivity. Qed.

Example score_remaining_objective_alone :
  (score example_X example_y [accuracy_binary] example_fitted).1
  = Ok {[ "Accuracy Binary" := (2 # 3)%Q ]}.
Proof. vm_compute. reflexivity. Qed.

Lemma score_partial_failure_witness :
  _is_fitted (self example_fitted) = true
  ∧ LabelEncoder.classes_ (_encoder (self example_fitted))
    = Some [VStr "a"; VStr "b"]
  ∧ LabelEncoder.transform (_encoder (self example_fitted))
      (s_values example_y) = Ok [1; 0; 1]
  ∧ NoDup (name <$> [exploding "F1" "finna kabooom"; accuracy_binary])
  ∧ ∃ exceptions scored_successfully message,
      (score example_X example_y
             [exploding "F1" "finna kabooom"; accuracy_binary]
             example_fitted).1
      = Raise (PipelineScoreError exceptions scored_successfully message)
      ∧ scored_successfully !! "Accuracy Binary" = Some (2 # 3)%Q
      ∧ exceptions !! "F1" = Some (Exn OtherException "finna kabooom")
      ∧ contains message "finna kabooom".
Proof.
  assert (Hnd : NoDup (name <$> [exploding "F1" "finna kabooom";
                                 accuracy_binary])).
  { apply NoDup_cons. split; [|apply NoDup_singleton].
    rewrite list_elem_of_singleton. discriminate. }
  split; [reflexivity|]. split; [reflexivity|]. split; [reflexivity|].
  split; [exact Hnd|].
  assert (Hproba :
    existsb score_needs_proba [exploding "F1" "finna kabooom"; accuracy_binary]
    = true →
    set_columns (estimator_proba (self example_fitted) example_X)
                [VStr "a"; VStr "b"] = Ok (Table [] [])).
  { intros Hneeds. vm_compute in Hneeds. discriminate Hneeds. }
  destruct (score_partial_failure (self example_fitted) (calls example_fitted)
              example_X example_y
              [exploding "F1" "finna kabooom"; accuracy_binary]
              [1; 0; 1] [VStr "a"; VStr "b"] (Table [] [])
              eq_refl eq_refl eq_refl Hproba Hnd) as [Hraises _].
  destruct Hraises as (exceptions & scored & message & Hscore & Hok & Hbad & Hmsg).
  { exists (exploding "F1" "finna kabooom"),
           (Exn OtherException "finna kabooom").
    split; [by left|reflexivity]. }
  exists exceptions, scored, message. split; [exact Hscore|]. split; [|split].
  - apply Hok. exists accuracy_binary.
    split; [by right; left|]. split; reflexivity.
  - apply Hbad. exists (exploding "F1" "finna kabooom").
    split; [by left|]. split; reflexivity.
  - apply (Hmsg (exploding "F1" "finna kabooom")
                (Exn OtherException "finna kabooom")); [by left|reflexivity].
Defined.

Example example_predict_proba :
  (predict_proba example_X example_fitted).1 = Ok example_proba.
Proof. vm_compute. reflexivity. Qed.

Lemma score_computes_needed_predictions_once_witness :
  _is_fitted (self example_fitted) = true
  ∧ LabelEncoder.classes_ (_encoder (self example_fitted))
    = Some [VStr "a"; VStr "b"]
  ∧ LabelEncoder.transform (_encoder (self example_fitted))
      (s_values example_y) = Ok [1; 0; 1]
  ∧ set_columns (estimator_proba (self example_fitted) example_X)
      [VStr "a"; VStr "b"] = Ok example_proba
  ∧ ∃ new_calls,
      calls (score example_X example_y [accuracy_binary; column_count]
                   example_fitted).2
      = calls example_fitted ++ new_calls
      ∧ count_calls CallPredictProba new_calls = 1%nat
      ∧ count_calls CallPredict new_calls = 1%nat
      ∧ count_calls CallDecodeTargets new_calls = 0%nat.
Proof.
  assert (Hproba :
    set_columns (estimator_proba (self example_fitted) example_X)
                [VStr "a"; VStr "b"] = Ok example_proba)
    by (vm_compute; reflexivity).
  split; [reflexivity|]. split; [reflexivity|]. split; [reflexivity|].
  split; [exact Hproba|].
  destruct (score_computes_needed_predictions_once (self example_fitted)
              (calls example_fitted) example_X example_y
              [accuracy_binary; column_count] [1; 0; 1] [VStr "a"; VStr "b"]
              example_proba eq_refl eq_refl eq_refl (λ _, Hproba))
    as (y_predicted & y_predicted_proba & new_calls & _ & Hneeds_proba
        & Hneeds_labels & _ & _ & _ & Hcalls & Hcount_proba & Hcount_labels
        & Hcount_decode).
  exists new_calls. split; [exact Hcalls|].
  destruct y_predicted_proba as [t|].
  2:{ destruct (proj2 Hneeds_proba) as [t Ht]; [|discriminate Ht].
      exists column_count. split; [by right; left|reflexivity]. }
  destruct y_predicted as [s|].
  2:{ destruct (proj2 Hneeds_labels) as [s Hs]; [|discriminate Hs].
      exists accuracy_binary. split; [by left|reflexivity]. }
  split; [exact Hcount_proba|]. split; [exact Hcount_labels|exact Hcount_decode].
Defined.

(** C2, as the claim has it: in the log of this scoring pass an objective
    is evaluated and no call of [_decode_targets] precedes it; the
    objective is handed the codes that the graph predicts ([1; 1; 1], next
    to the encoded target [1; 0; 1]: two of three agree). *)
Lemma score_does_not_decode_predictions :
  ¬ decoded_before_scoring
      (calls (score example_X example_y [accuracy_binary] example_fitted).2)
  ∧ (_compute_predictions example_X (Series (s_name example_y) [0; 1; 2] [1; 0; 1])
       [accuracy_binary] false example_fitted).1
    = Ok (Some (Series None [0; 1; 2] [1; 1; 1]), None)
  ∧ (predict example_X example_fitted).1
    = Ok (Series (Some (VStr "target")) [0; 1; 2]
            [VStr "b"; VStr "b"; VStr "b"])
  ∧ (score example_X example_y [accuracy_binary] example_fitted).1
    = Ok {[ "Accuracy Binary" := (2 # 3)%Q ]}.
Proof.
  split; [|split; [vm_compute; reflexivity|split; vm_compute; reflexivity]].
  intros Hdecoded.
  destruct (Hdecoded 3%nat "Accuracy Binary") as (j & Hj & Hcall).
  { vm_compute. reflexivity. }
  destruct j as [|[|[|j]]]; [vm_compute in Hcall; discriminate Hcall ..|lia].
Qed.

(** ** Threshold tuning *)

Lemma transform_raises_ValueError (enc : LabelEncoder.t) (ys : list value)
    (e : error) :
  LabelEncoder.transform enc ys = Raise e →
  ∃ msg, e = Raised (Exn ValueError msg).
Proof.
  unfold LabelEncoder.transform. destruct (LabelEncoder.classes_ enc) as [cs|].
  2:{ intros [= <-]. by eexists. }
  induction ys as [|v ys IH]; simpl; [done|].
  destruct (LabelEncoder.index_of cs v); simpl.
  - destruct (traverse _ ys); simpl; [done|]. intros [= <-]. by apply IH.
  - intros [= <-]. by eexists.
Qed.

Section Threshold.

Context {G : Type} `{ComponentGraph G}.

Lemma optimize_threshold_run (p : pipeline G) (l : list call) (X : table)
    (y : series value) (y_pred_proba : series Q) (o : objective) :
  optimize_threshold X y y_pred_proba o (World p l)
  = if can_tune_threshold_with_objective p o then
      match LabelEncoder.transform (_encoder p) (s_values y) with
      | Ok codes =>
          match objective_optimize_threshold o y_pred_proba
                  (Series (s_name y) (s_index y) codes) X with
          | Ok t =>
              (Ok tt,
               World (with_threshold p (Some t))
                     (l ++ [CallEncodeTargets; CallOptimizeThreshold (name o)]))
          | Raise e =>
              (Raise e,
               World p (l ++ [CallEncodeTargets; CallOptimizeThreshold (name o)]))
          end
      | Raise e => (Raise e, World p (l ++ [CallEncodeTargets]))
      end
    else (raise ValueError
            "Problem type must be binary and objective must be optimizable.",
          World p l).
Proof.
  unfold optimize_threshold, bind, get_self. cbn [self].
  destruct (can_tune_threshold_with_objective p o); [|done].
  destruct (LabelEncoder.transform (_encoder p) (s_values y)) as [codes|e] eqn:E.
  - rewrite (encode_targets_run p l y codes E).
    unfold log, lift, set_self. cbn [self calls]. rewrite <- app_assoc.
    by destruct (objective_optimize_threshold o _ _ X).
  - unfold _encode_targets, bind, log, get_self, throw. cbn [self calls].
    rewrite E. by destruct e as [[[] msg]|].
Qed.


Lemma predict_proba_self (p : pipeline G) (l : list call) (X : table) :
  self (predict_proba X (World p l)).2 = p.
Proof.
  unfold predict_proba, check_for_fit, bind, get_self, log, lift, throw.
  cbn [self calls]. destruct (_is_fitted p); [|done]. cbn [self calls].
  by destruct (LabelEncoder.classes_ (_encoder p)).
Qed.

(** C7, as the code has it.  [tune_binary_threshold] acts only when the
    problem type it is given is binary and the objective both is defined
    for it and can optimize a threshold; otherwise the pipeline is left as
    it is.  When it acts, the threshold is first set to 0.5, whether tuning
    data is given or not; with tuning data, [optimize_threshold] then runs
    on the second column of [predict_proba] of the tuning data, from the
    state in which the threshold is 0.5: if all of that returns, the
    threshold is what the threshold search returned, and if any of it
    raises, the threshold stays 0.5. *)
Theorem tune_binary_threshold_cases (p : pipeline G) (l : list call)
    (o : objective) (pt : problem_type) (X_threshold_tuning : option table)
    (y_threshold_tuning : series value) :
  let acts := is_binary pt && is_defined_for_problem_type o pt
              && can_optimize_threshold o in
  let reset := World (with_threshold p (Some (1 # 2)%Q)) l in
  let r := tune_binary_threshold o pt X_threshold_tuning y_threshold_tuning
             (World p l) in
  (acts = false → r = (Ok tt, World p l))
  ∧ (acts = true →
     (X_threshold_tuning = None → r = (Ok tt, reset))
     ∧ (∀ X, X_threshold_tuning = Some X →
        r = (let* y_predict_proba := predict_proba X in
             let* y_predict_proba := lift (iloc_column y_predict_proba 1) in
             optimize_threshold X y_threshold_tuning y_predict_proba o) reset
        ∧ (∀ proba column codes t,
             (predict_proba X reset).1 = Ok proba →
             iloc_column proba 1 = Ok column →
             can_tune_threshold_with_objective p o = true →
             LabelEncoder.transform (_encoder p) (s_values y_threshold_tuning)
             = Ok codes →
             objective_optimize_threshold o column
               (Series (s_name y_threshold_tuning)
                       (s_index y_threshold_tuning) codes) X = Ok t →
             r.1 = Ok tt ∧ threshold (self r.2) = Some t)
        ∧ (r.1 ≠ Ok tt → threshold (self r.2) = Some (1 # 2)%Q))).
Proof.
  intros acts reset r. subst r. unfold tune_binary_threshold. fold acts.
  split; [by intros ->|]. intros ->. split; [by intros ->|].
  intros X ->. unfold bind, get_self, set_self, lift.
  cbn [self calls]. fold reset. split; [done|].
  pose proof (predict_proba_self (with_threshold p (Some (1 # 2)%Q)) l X)
    as Hself.
  fold reset in Hself.
  destruct (predict_proba X reset) as [[proba|e] [p1 l1]];
    cbn [self fst snd] in Hself |- *; subst p1.
  2:{ split; [by intros ???? [=]|done]. }
  destruct (iloc_column proba 1) as [column|e] eqn:Hcolumn; cbn [self fst snd].
  2:{ split; [|done]. intros ???? [= <-] Hcolumn'. congruence. }
  rewrite optimize_threshold_run. split.
  - intros proba' column' codes t [= <-] Hcolumn' Hcan Henc Hsearch.
    assert (column' = column) as -> by congruence.
    change (can_tune_threshold_with_objective
              (with_threshold p (Some (1 # 2)%Q)) o) with
      (can_tune_threshold_with_objective p o).
    rewrite Hcan. cbn [with_threshold _encoder]. by rewrite Henc, Hsearch.
  - destruct (can_tune_threshold_with_objective _ o); [|done].
    destruct (LabelEncoder.transform _ _); [|done].
    by destruct (objective_optimize_threshold o _ _ X).
Qed.

End Threshold.

(** A target that holds a label not seen at fit: the value error of the
    encoder comes out of [optimize_threshold] and the threshold is not
    set. *)
Example optimize_threshold_unseen_label :
  let y_unseen := Series None [0] [VStr "c"] in
  let proba := Series (Some (VStr "b")) [0] [(1 # 2)%Q] in
  let r := optimize_threshold example_X y_unseen proba accuracy_binary
             example_fitted in
  can_tune_threshold_with_objective (self example_fitted) accuracy_binary = true
  ∧ r.1 = raise ValueError "y contains previously unseen labels"
  ∧ threshold (self r.2) = None.
Proof. vm_compute. repeat split; reflexivity. Qed.


Example optimize_threshold_sets_threshold :
  let proba := Series (Some (VStr "b")) [0; 1; 2]
                 [(4 # 5)%Q; (1 # 5)%Q; (9 # 10)%Q] in
  let r := optimize_threshold example_X example_y proba accuracy_binary
             example_fitted in
  r.1 = Ok tt ∧ threshold (self r.2) = Some (1 # 4)%Q.
Proof. vm_compute. split; reflexivity. Qed.

(** C7, as the claim has it: a tuning split is supplied, but the problem
    type is multiclass, or the objective has no tunable threshold; the
    threshold is not reset to 0.5. *)
Lemma tune_binary_threshold_no_reset :
  threshold (self example_fitted) = None
  ∧ threshold (self (tune_binary_threshold accuracy_binary MULTICLASS
                       (Some example_X) example_y example_fitted).2) = None
  ∧ threshold (self (tune_binary_threshold column_count BINARY
                       (Some example_X) example_y example_fitted).2) = None.
Proof. vm_compute. repeat split; reflexivity. Qed.

(** The first case of [test_pipeline_thresholding_errors]: a multiclass
    pipeline refuses to tune a threshold. *)
Example optimize_threshold_multiclass :
  (optimize_threshold example_X example_y
     (Series (Some (VStr "b")) [0; 1; 2] [(4 # 5)%Q; (1 # 5)%Q; (9 # 10)%Q])
     accuracy_binary
     (fit example_X example_y
          (World (__init__ BaselineMulticlassPipeline [] 0
                    : pipeline baseline_graph) [])).2).1
  = raise ValueError
      "Problem type must be binary and objective must be optimizable.".
Proof. vm_compute. reflexivity. Qed.

Example tune_binary_threshold_resets_and_tunes :
  threshold (self (tune_binary_threshold accuracy_binary BINARY None example_y
                     example_fitted).2) = Some (1 # 2)%Q
  ∧ threshold (self (tune_binary_threshold accuracy_binary BINARY
                       (Some example_X) example_y example_fitted).2)
    = Some (1 # 4)%Q.
Proof. vm_compute. split; reflexivity. Qed.

(** ** Equality and cloning *)

Section EqualityClone.

Context {G : Type} `{ComponentGraph G}.



Lemma fit_keeps_specification (p : pipeline G) (l : list call) (X : table)
    (y : series value) :
  let p' := self (fit X y (World p l)).2 in
  p_class p' = p_class p ∧ parameters p' = parameters p
  ∧ random_seed p' = random_seed p.
Proof.
  intros p'. subst p'. unfold fit, _fit, _encode_targets.
  unfold bind, get_self, lift, set_self, log, throw, ret.
  cbn [self calls]. destruct (LabelEncoder.fit (s_values y)) as [enc|e]; [|done].
  cbn [self calls _encoder with_encoder].
  destruct (LabelEncoder.transform enc (s_values y)) as [codes|e]; [done|].
  by destruct e as [[[] msg]|].
Qed.

(** C5.  The clone of a pipeline has the class, the parameters and the
    random seed of the source; it is not fitted and holds nothing that the
    source has learned: its encoder, component graph, target name, feature
    columns and threshold are those of a newly constructed pipeline, so the
    clone taken after fitting the source is the clone taken before.
    [predict] on the clone fails with [PipelineNotYetFittedError] and leaves
    it as it is. *)
Theorem clone_is_unfitted (p : pipeline G) :
  parameters (clone p) = parameters p
  ∧ random_seed (clone p) = random_seed p
  ∧ p_class (clone p) = p_class p
  ∧ _is_fitted (clone p) = false
  ∧ clone p = __init__ (p_class p) (parameters p) (random_seed p)
  ∧ _encoder (clone p) = LabelEncoder.new
  ∧ input_target_name (clone p) = None
  ∧ input_feature_names (clone p) = []
  ∧ threshold (clone p) = None
  ∧ (∀ X y l, clone (self (fit X y (World p l)).2) = clone p)
  ∧ (∀ X l, ∃ msg,
       predict X (World (clone p) l)
       = (raise PipelineNotYetFittedError msg, World (clone p) l)).
Proof.
  repeat split; try done.
  - intros X y l. unfold clone.
    by destruct (fit_keeps_specification p l X y) as (-> & -> & ->).
  - intros X l. by eexists.
Qed.

End EqualityClone.


Example clone_of_fitted_predict :
  (predict example_X (World (clone (self example_fitted)) [])).1
  = raise PipelineNotYetFittedError
      "This pipeline is not fitted yet. You must fit it before calling predict.".
Proof. vm_compute. reflexivity. Qed.

Example subclass_not_equal :
  ∀ same_fitted_data,
    __eq__ same_fitted_data example_pipeline
      (__init__ (subclass "MockPipelineSubclass" BaselineBinaryPipeline) [] 0
         : pipeline baseline_graph) = false.
Proof. intros same_fitted_data. reflexivity. Qed.

(** ** Generated-code export *)

(** *** Texts *)




(** *** White space *)







(** *** String literals *)



(** *** Numbers *)
















(** *** Values *)















(** *** The fuel of [json_loads] is enough *)





(** *** The string literal of the script *)















(** *** The export *)







Example generate_code_regression_pipeline :
  generate_pipeline_code
    (__init__ MockRegressionPipeline mock_regression_parameters 0
       : pipeline baseline_graph)
  = Ok mock_regression_code.
Proof. vm_compute. reflexivity. Qed.

Example generate_code_array_parameter :
  generate_pipeline_code
    (__init__ MockBinaryPipelineTransformer
          [("My Custom Estimator",
            [("random_arg", PBool false);
             ("numpy_arg", PObject "array([0])")])] 0
       : pipeline baseline_graph)
  = raise TypeError "Value array([0]) cannot be JSON-serialized".
Proof. vm_compute. reflexivity. Qed.

Example generate_code_list_parameter :
  ∃ script,
    generate_pipeline_code
      (__init__ MockBinaryPipelineTransformer
            [("My Custom Estimator",
              [("random_arg", PBool false); ("numpy_arg", PList [])])] 0
         : pipeline baseline_graph)
    = Ok script.
Proof. eexists. vm_compute. reflexivity. Qed.

Example generate_code_nonlinear_pipeline :
  generate_pipeline_code
    (__init__ NonlinearBinaryPipeline [] 0 : pipeline baseline_graph)
  = raise ValueError
      "Code generation for nonlinear pipelines is not supported yet".
Proof. reflexivity. Qed.

(** The script of [test_generate_code_pipeline]: its literal denotes the
    JSON text of the parameters, the parameters come back from that text,
    and the script, whose components are all given by name, reads no name
    that it does not bind. *)
Example generate_code_regression_parameters_read_back :
  let parameters_json :=
    json_text 0 (params_value mock_regression_parameters) in
  let script :=
    construction_script MockRegressionPipeline
      [ComponentName "Imputer"; ComponentName "Random Forest Regressor"]
      parameters_json in
  plain (params_value mock_regression_parameters) = true
  ∧ render_script script = mock_regression_code
  ∧ verbatim parameters_json = true
  ∧ json_loads parameters_json
    = Some (params_value mock_regression_parameters)
  ∧ unbound_names [] script = [].
Proof. vm_compute. repeat split; reflexivity. Qed.

(** [MockAllCustom] of [test_generate_code_pipeline_custom]: the pipeline is
    linear and its parameters are JSON data, the export returns the text
    that the test expects, and that script reads the names
    [CustomTransformer] and [CustomEstimator], which it neither imports nor
    defines: it can be loaded where the two classes of the test are
    defined. *)
Example generate_code_custom_components :
  let p := (__init__ MockAllCustom mock_all_custom_parameters 0
              : pipeline baseline_graph) in
  let script :=
    construction_script MockAllCustom
      [ComponentClass "CustomTransformer"; ComponentClass "CustomEstimator"]
      (json_text 0 (params_value mock_all_custom_parameters)) in
  generate_pipeline_code p = Ok mock_all_custom_code
  ∧ render_script script = mock_all_custom_code
  ∧ verbatim (json_text 0 (params_value mock_all_custom_parameters)) = true
  ∧ json_loads (json_text 0 (params_value mock_all_custom_parameters))
    = Some (params_value mock_all_custom_parameters)
  ∧ unbound_names [] script = ["CustomTransformer"; "CustomEstimator"]
  ∧ unbound_names ["CustomTransformer"; "CustomEstimator"] script = [].
Proof. vm_compute. repeat split; reflexivity. Qed.

(** ** The estimator export list *)

(** C10.  The estimator export list holds the three markers of an
    unresolved merge conflict, at lines 19, 22 and 25, inside the
    parenthesized import from [.regressors]: one side ends the list with
    [DecisionTreeRegressor, GAMRegressor], the other with
    [TimeSeriesBaselineRegressor, DecisionTreeRegressor].  As written the
    file is not a sequence of import statements (the marker is a syntax
    error), so importing the package fails; either side alone would import
    and give its roster. *)
Theorem estimators_init_merge_conflict :
  conflict_markers estimators_init
  = [(19%nat, MarkerOurs); (22%nat, MarkerSeparator); (25%nat, MarkerTheirs)]
  ∧ estimators_init !! 18%nat = Some "<<<<<<< HEAD"
  ∧ estimators_init !! 21%nat = Some "======="
  ∧ estimators_init !! 24%nat = Some ">>>>>>> main"
  ∧ import_package estimators_init = raise SyntaxError "invalid syntax"
  ∧ (∃ common,
       import_package (resolve MarkerOurs None estimators_init)
       = Ok (common ++ ["DecisionTreeRegressor"; "GAMRegressor"])
       ∧ import_package (resolve MarkerTheirs None estimators_init)
         = Ok (common ++ ["TimeSeriesBaselineRegressor";
                          "DecisionTreeRegressor"])
       ∧ ("BaselineRegressor" ∈ common)
       ∧ ("GAMRegressor" ∉ common)
       ∧ ("TimeSeriesBaselineRegressor" ∉ common)).
Proof.
  split; [vm_compute; reflexivity|].
  split; [reflexivity|]. split; [reflexivity|]. split; [reflexivity|].
  split; [vm_compute; reflexivity|].
  exists ["Estimator"; "LogisticRegressionClassifier"; "RandomForestClassifier";
          "XGBoostClassifier"; "LightGBMClassifier"; "CatBoostClassifier";
          "ElasticNetClassifier"; "ExtraTreesClassifier"; "BaselineClassifier";
          "DecisionTreeClassifier"; "GAMClassifier"; "LinearRegressor";
          "RandomForestRegressor"; "CatBoostRegressor"; "XGBoostRegressor";
          "ElasticNetRegressor"; "ExtraTreesRegressor"; "BaselineRegressor"].
  split; [vm_compute; reflexivity|]. split; [vm_compute; reflexivity|].
  split; [|split].
  - apply list_elem_of_In. vm_compute. tauto.
  - intros Hin%list_elem_of_In. vm_compute in Hin.
    repeat (destruct Hin as [Hin|Hin]; [discriminate Hin|]). exact Hin.
  - intros Hin%list_elem_of_In. vm_compute in Hin.
    repeat (destruct Hin as [Hin|Hin]; [discriminate Hin|]). exact Hin.
Qed.

(** Where the reading of the file stops: the tokens up to the first
    conflict marker are accepted, and the first character of the marker is
    refused. *)
Example estimators_init_first_bad_token :
  ∃ before after,
    tokenize estimators_init = before ++ TOp "<" :: after
    ∧ Forall (λ t, (∀ c, t ≠ TOp c)) before
    ∧ last before = Some TComma.
Proof.
  eexists (take 48 (tokenize estimators_init)),
          (drop 49 (tokenize estimators_init)).
  split; [vm_compute; reflexivity|]. split; [|vm_compute; reflexivity].
  vm_compute. repeat constructor; discriminate.
Qed.

(** ** Encoding and decoding of targets *)

Lemma transform_elem_of (cs ys : list value) (codes : list Z) :
  LabelEncoder.transform (LabelEncoder.Make (Some cs)) ys = Ok codes →
  ∀ v, v ∈ ys → v ∈ cs.
Proof.
  unfold LabelEncoder.transform. simpl. intros HF%traverse_Forall2 v Hv.
  apply list_elem_of_lookup in Hv as [i Hi].
  destruct (Forall2_lookup_l _ _ _ _ _ HF Hi) as (c & _ & Hc).
  destruct (LabelEncoder.index_of cs v) as [k|] eqn:Hk; [|done].
  apply index_of_Some in Hk. by eapply list_elem_of_lookup_2.
Qed.

Lemma transform_lookup (cs ys : list value) (codes : list Z) :
  LabelEncoder.transform (LabelEncoder.Make (Some cs)) ys = Ok codes →
  length codes = length ys
  ∧ ∀ i v c, ys !! i = Some v → codes !! i = Some c →
      0 ≤ c ∧ cs !! Z.to_nat c = Some v.
Proof.
  unfold LabelEncoder.transform. simpl. intros HF%traverse_Forall2.
  split; [symmetry; by eapply Forall2_length|].
  intros i v c Hv Hc. pose proof (Forall2_lookup_lr _ _ _ _ _ _ HF Hv Hc) as Hi.
  simpl in Hi. destruct (LabelEncoder.index_of cs v) as [k|] eqn:Hk; [|done].
  injection Hi as <-. apply index_of_Some in Hk. rewrite Nat2Z.id.
  split; [lia|done].
Qed.

Lemma inverse_transform_lookup (cs : list value) (codes : list Z)
    (labels : list value) :
  LabelEncoder.inverse_transform (LabelEncoder.Make (Some cs)) codes = Ok labels →
  Forall (λ c, 0 ≤ c < Z.of_nat (length cs)) codes
  ∧ ∀ i c v, codes !! i = Some c → labels !! i = Some v →
      cs !! Z.to_nat c = Some v.
Proof.
  unfold LabelEncoder.inverse_transform. simpl. intros HF%traverse_Forall2.
  assert (Hone : ∀ c v,
    match (if decide (0 ≤ c) then cs !! Z.to_nat c else None) with
    | Some v => Ok v
    | None => raise ValueError "y contains previously unseen labels"
    end = Ok v → 0 ≤ c ∧ cs !! Z.to_nat c = Some v).
  { intros c v. destruct (decide (0 ≤ c)); [|done].
    destruct (cs !! Z.to_nat c) as [u|]; [|done]. by intros [= ->]. }
  split.
  - apply Forall_lookup. intros i c Hc.
    destruct (Forall2_lookup_l _ _ _ _ _ HF Hc) as (v & _ & Hv).
    apply Hone in Hv as [Hpos Hv]. apply lookup_lt_Some in Hv. lia.
  - intros i c v Hc Hv.
    by apply (Hone c v (Forall2_lookup_lr _ _ _ _ _ _ HF Hc Hv)).
Qed.

Lemma inverse_transform_raises_ValueError (enc : LabelEncoder.t)
    (codes : list Z) (e : error) :
  LabelEncoder.inverse_transform enc codes = Raise e →
  ∃ msg, e = Raised (Exn ValueError msg).
Proof.
  unfold LabelEncoder.inverse_transform.
  destruct (LabelEncoder.classes_ enc) as [cs|]; [|intros [= <-]; by eexists].
  induction codes as [|c codes IH]; simpl; [done|].
  destruct (if decide (0 ≤ c) then cs !! Z.to_nat c else None); simpl.
  - destruct (traverse _ codes); simpl; [done|]. intros [= <-]. by apply IH.
  - intros [= <-]. by eexists.
Qed.

Lemma transform_after_inverse (cs : list value) (codes : list Z)
    (labels : list value) :
  NoDup cs →
  LabelEncoder.inverse_transform (LabelEncoder.Make (Some cs)) codes = Ok labels →
  LabelEncoder.transform (LabelEncoder.Make (Some cs)) labels = Ok codes.
Proof.
  intros Hnd Hdec.
  destruct (inverse_transform_lookup _ _ _ Hdec) as [Hrange Hlookup].
  apply inverse_transform_classes in Hdec as [_ Hlen].
  unfold LabelEncoder.transform. simpl.
  apply traverse_Forall2, Forall2_same_length_lookup. split; [done|].
  intros i v c Hv Hc. rewrite Forall_lookup in Hrange.
  specialize (Hrange i c Hc). specialize (Hlookup i c v Hc Hv).
  rewrite (index_of_NoDup cs v _ Hnd Hlookup). f_equal. lia.
Qed.

Lemma StronglySorted_lookup_lt (cs : list value) (i j : nat) (a b : value) :
  StronglySorted value_lt cs → cs !! i = Some a → cs !! j = Some b →
  (i < j)%nat → value_lt a b.
Proof.
  intros Hs. revert i j. induction Hs as [|x cs Hs IH Hx]; intros i j; [done|].
  destruct i as [|i], j as [|j]; simpl; try lia.
  - intros [= <-] Hj _. rewrite Forall_forall in Hx. apply Hx.
    by eapply list_elem_of_lookup_2.
  - intros Hi Hj Hlt. apply (IH i j); [done..|lia].
Qed.

Lemma value_lt_irrefl (a : value) : ¬ value_lt a a.
Proof. unfold value_lt. by rewrite value_compare_refl. Qed.

Lemma StronglySorted_lookup_lt_iff (cs : list value) (i j : nat) (a b : value) :
  StronglySorted value_lt cs → cs !! i = Some a → cs !! j = Some b →
  ((i < j)%nat ↔ value_lt a b) ∧ (i = j ↔ a = b).
Proof.
  intros Hs Hi Hj.
  assert (Hne : ∀ i j a b, cs !! i = Some a → cs !! j = Some b →
            (i < j)%nat → a ≠ b).
  { intros i' j' a' b' Hi' Hj' Hlt ->.
    by apply (value_lt_irrefl b'), (StronglySorted_lookup_lt cs i' j'). }
  split; split.
  - by apply (StronglySorted_lookup_lt cs i j).
  - intros Hab. destruct (lt_eq_lt_dec i j) as [[Hlt|Heq]|Hgt]; [done|..].
    + subst j. rewrite Hi in Hj. injection Hj as ->.
      by destruct (value_lt_irrefl b).
    + destruct (value_lt_irrefl a). transitivity b; [done|].
      by apply (StronglySorted_lookup_lt cs j i).
  - intros ->. rewrite Hi in Hj. by injection Hj.
  - intros Hab. destruct (lt_eq_lt_dec i j) as [[Hlt|Heq]|Hgt]; [|done|].
    + by destruct (Hne i j a b).
    + by destruct (Hne j i b a).
Qed.

Section EncodeDecode.

Context {G : Type} `{ComponentGraph G}.

Lemma encode_targets_raise_run (p : pipeline G) (l : list call)
    (y : series value) (e : error) :
  LabelEncoder.transform (_encoder p) (s_values y) = Raise e →
  _encode_targets y (World p l) = (Raise e, World p (l ++ [CallEncodeTargets])).
Proof.
  intros He. destruct (transform_raises_ValueError _ _ _ He) as [msg ->].
  unfold _encode_targets, bind, log, get_self, throw. simpl. by rewrite He.
Qed.

(** X1.  [_encode_targets] returns exactly when the encoder is fitted and
    every label of [y] is one of its classes; the result keeps the name and
    the index of [y], has one code per label, and every code lies in
    [0, n_classes).  In every other case it raises a [ValueError].  The
    pipeline itself is never changed. *)
Theorem encode_targets_cases (p : pipeline G) (l : list call)
    (y : series value) :
  let r := _encode_targets y (World p l) in
  r.2 = World p (l ++ [CallEncodeTargets])
  ∧ ((∃ y', r.1 = Ok y')
     ↔ ∃ cs, LabelEncoder.classes_ (_encoder p) = Some cs
             ∧ ∀ v, v ∈ s_values y → v ∈ cs)
  ∧ (∀ y', r.1 = Ok y' →
       s_name y' = s_name y ∧ s_index y' = s_index y
       ∧ length (s_values y') = length (s_values y)
       ∧ Forall (λ c, 0 ≤ c < Z.of_nat (n_classes p)) (s_values y'))
  ∧ (∀ e, r.1 = Raise e → ∃ msg, e = Raised (Exn ValueError msg)).
Proof.
  intros r. subst r.
  destruct (LabelEncoder.transform (_encoder p) (s_values y)) as [codes|e]
    eqn:Henc.
  - rewrite (encode_targets_run p l y codes Henc). cbn [fst snd].
    destruct (_encoder p) as [[cs|]] eqn:Hp; [|done].
    split; [done|]. split; [|split; [|done]].
    + split; [|by eexists]. intros _. exists cs. split; [done|].
      by eapply transform_elem_of.
    + intros y' [= <-]. cbn [s_name s_index s_values].
      destruct (transform_lookup _ _ _ Henc) as [Hlen Hlookup].
      repeat split; try done.
      unfold n_classes. rewrite Hp. cbn [LabelEncoder.classes_].
      apply Forall_lookup. intros i c Hc.
      destruct (lookup_lt_is_Some_2 (s_values y) i) as [v Hv].
      { rewrite <- Hlen. by eapply lookup_lt_Some. }
      destruct (Hlookup i v c Hv Hc) as [Hpos Hcs].
      apply lookup_lt_Some in Hcs. lia.
  - rewrite (encode_targets_raise_run p l y e Henc). cbn [fst snd].
    split; [done|]. split; [|split; [done|]].
    + split; [by intros [y' ?]|]. intros (cs & Hcs & Hin). exfalso.
      destruct (_encoder p) as [[cs'|]]; simpl in Hcs; [|done].
      injection Hcs as ->.
      destruct (transform_inverse cs (s_values y) Hin) as (codes & Hok & _).
      by rewrite Hok in Henc.
    + intros e' [= <-]. by eapply transform_raises_ValueError.
Qed.

(** X2.  [_decode_targets] returns exactly when the encoder is fitted and
    every code lies in [0, n_classes); the label at each position is then
    the class at the position the code names.  In every other case it
    raises a [ValueError].  The pipeline itself is never changed. *)
Theorem decode_targets_cases (p : pipeline G) (l : list call) (y : series Z) :
  let r := _decode_targets y (World p l) in
  r.2 = World p (l ++ [CallDecodeTargets])
  ∧ ((∃ labels, r.1 = Ok labels)
     ↔ ∃ cs, LabelEncoder.classes_ (_encoder p) = Some cs
             ∧ Forall (λ c, 0 ≤ c < Z.of_nat (length cs)) (s_values y))
  ∧ (∀ labels cs, r.1 = Ok labels →
       LabelEncoder.classes_ (_encoder p) = Some cs →
       length labels = length (s_values y)
       ∧ ∀ i c, s_values y !! i = Some c → labels !! i = cs !! Z.to_nat c)
  ∧ (∀ e, r.1 = Raise e → ∃ msg, e = Raised (Exn ValueError msg)).
Proof.
  intros r. subst r.
  unfold _decode_targets, bind, log, get_self, lift. cbn [fst snd self calls].
  split; [done|]. split; [|split].
  - split.
    + intros [labels Hdec]. destruct (_encoder p) as [[cs|]]; [|done].
      exists cs. split; [done|]. by eapply inverse_transform_lookup.
    + intros (cs & Hcs & Hrange). destruct (_encoder p) as [[cs'|]];
        simpl in Hcs; [|done].
      injection Hcs as ->. by apply inverse_transform_total.
  - intros labels cs Hdec Hcs. destruct (_encoder p) as [[cs'|]];
      simpl in Hcs; [|done].
    injection Hcs as ->.
    destruct (inverse_transform_lookup _ _ _ Hdec) as [_ Hlookup].
    apply inverse_transform_classes in Hdec as Hlen. destruct Hlen as [_ Hlen].
    split; [done|]. intros i c Hc.
    destruct (lookup_lt_is_Some_2 labels i) as [v Hv].
    { rewrite Hlen. by eapply lookup_lt_Some. }
    rewrite Hv. symmetry. by eapply Hlookup.
  - intros e He. by eapply inverse_transform_raises_ValueError.
Qed.

End EncodeDecode.

(** ** What fitting learns *)

Lemma length_remove_dups_le {A} `{EqDecision A} (l : list A) :
  (length (remove_dups l) ≤ length l)%nat.
Proof.
  induction l as [|x l IH]; simpl; [done|].
  destruct (decide_rel elem_of x l); simpl; lia.
Qed.

Section Fit.

Context {G : Type} `{ComponentGraph G}.

Lemma fit_uniform_run (p : pipeline G) (l : list call) (X : table)
    (y : series value) :
  forallb is_int (s_values y) || forallb is_str (s_values y) = true →
  ∃ codes,
    LabelEncoder.transform
      (LabelEncoder.Make (Some (merge_sort value_le (remove_dups (s_values y)))))
      (s_values y) = Ok codes
    ∧ fit X y (World p l)
      = (Ok tt,
         World (Pipeline (p_class p) (parameters p) (random_seed p)
                  (cg_fit (_component_graph p) X
                     (Series (s_name y) (s_index y) codes))
                  (LabelEncoder.Make
                     (Some (merge_sort value_le (remove_dups (s_values y)))))
                  true (s_name y) (columns X) (threshold p))
               (l ++ [CallEncodeTargets])).
Proof.
  intros Huniform.
  destruct (transform_inverse (merge_sort value_le (remove_dups (s_values y)))
              (s_values y)) as (codes & Henc & _).
  { intros v Hv. by apply sorted_set_elem_of. }
  exists codes. split; [done|].
  by apply fit_run; [apply encoder_fit_uniform|].
Qed.

(** X3.  After a fit, decoding and encoding are inverse on codes: every
    series of codes in [0, n_classes) decodes to labels, and encoding those
    labels gives the series of codes back. *)
Theorem decode_encode_round_trip (p : pipeline G) (l : list call) (X : table)
    (y : series value) (codes : series Z) :
  let w' := (fit X y (World p l)).2 in
  forallb is_int (s_values y) || forallb is_str (s_values y) = true →
  Forall (λ c, 0 ≤ c < Z.of_nat (n_classes (self w'))) (s_values codes) →
  ∃ labels,
    (_decode_targets codes w').1 = Ok labels
    ∧ length labels = length (s_values codes)
    ∧ (_encode_targets (Series (s_name codes) (s_index codes) labels) w').1
      = Ok codes.
Proof.
  intros w' Huniform. subst w'.
  destruct (fit_uniform_run p l X y Huniform) as (fit_codes & _ & ->).
  cbn [snd self]. set (cs := merge_sort value_le (remove_dups (s_values y))).
  set (p' := Pipeline _ _ _ _ _ _ _ _ _).
  unfold n_classes. cbn [p' _encoder LabelEncoder.classes_]. intros Hrange.
  destruct (inverse_transform_total cs (s_values codes) Hrange)
    as [labels Hdec].
  exists labels. split; [|split].
  - unfold _decode_targets, bind, log, get_self, lift. simpl. exact Hdec.
  - by eapply inverse_transform_classes.
  - rewrite (encode_targets_run p' _ _ (s_values codes)).
    + by destruct codes.
    + cbn [p' _encoder s_values].
      apply transform_after_inverse; [apply sorted_set_NoDup|done].
Qed.

(** X4.  The codes that [fit] hands to the component graph keep the order
    of the labels: of two rows of the target, one has the smaller label
    exactly when it has the smaller code, and the two have the same label
    exactly when they have the same code. *)
Theorem fit_encoding_preserves_order (p : pipeline G) (l : list call)
    (X : table) (y : series value) :
  let w' := (fit X y (World p l)).2 in
  forallb is_int (s_values y) || forallb is_str (s_values y) = true →
  ∃ codes,
    _component_graph (self w')
    = cg_fit (_component_graph p) X (Series (s_name y) (s_index y) codes)
    ∧ length codes = length (s_values y)
    ∧ ∀ i j a b ca cb,
        s_values y !! i = Some a → s_values y !! j = Some b →
        codes !! i = Some ca → codes !! j = Some cb →
        (value_lt a b ↔ ca < cb) ∧ (a = b ↔ ca = cb).
Proof.
  intros w' Huniform. subst w'.
  destruct (fit_uniform_run p l X y Huniform) as (codes & Henc & ->).
  cbn [snd self _component_graph]. exists codes. split; [done|].
  destruct (transform_lookup _ _ _ Henc) as [Hlen Hlookup].
  split; [done|]. intros i j a b ca cb Ha Hb Hca Hcb.
  destruct (Hlookup i a ca Ha Hca) as [Hpa Hia].
  destruct (Hlookup j b cb Hb Hcb) as [Hpb Hjb].
  destruct (StronglySorted_lookup_lt_iff _ _ _ _ _
              (sorted_set_sorted (s_values y)) Hia Hjb) as [Hlt Heq].
  split.
  - rewrite <- Hlt. lia.
  - rewrite <- Heq. lia.
Qed.

(** X5.  The codes that [fit] hands to the component graph are exactly the
    integers of [0, n_classes): every code of the encoded target lies in
    that range and every integer of the range is the code of some row; and
    there are at most as many classes as rows. *)
Theorem fit_encoding_covers_classes (p : pipeline G) (l : list call)
    (X : table) (y : series value) :
  let w' := (fit X y (World p l)).2 in
  forallb is_int (s_values y) || forallb is_str (s_values y) = true →
  ∃ codes,
    _component_graph (self w')
    = cg_fit (_component_graph p) X (Series (s_name y) (s_index y) codes)
    ∧ (∀ c, c ∈ codes ↔ 0 ≤ c < Z.of_nat (n_classes (self w')))
    ∧ (n_classes (self w') ≤ length (s_values y))%nat.
Proof.
  intros w' Huniform. subst w'.
  destruct (fit_uniform_run p l X y Huniform) as (codes & Henc & ->).
  cbn [snd self _component_graph]. exists codes. split; [done|].
  unfold n_classes. cbn [_encoder LabelEncoder.classes_].
  set (cs := merge_sort value_le (remove_dups (s_values y))) in *.
  destruct (transform_lookup _ _ _ Henc) as [Hlen Hlookup].
  split.
  - intros c. split.
    + intros [i Hc]%list_elem_of_lookup.
      destruct (lookup_lt_is_Some_2 (s_values y) i) as [v Hv].
      { rewrite <- Hlen. by eapply lookup_lt_Some. }
      destruct (Hlookup i v c Hv Hc) as [Hpos Hcs].
      apply lookup_lt_Some in Hcs. lia.
    + intros Hc.
      destruct (lookup_lt_is_Some_2 cs (Z.to_nat c)) as [v Hv]; [lia|].
      assert (Hin : v ∈ s_values y).
      { apply sorted_set_elem_of. by eapply list_elem_of_lookup_2. }
      apply list_elem_of_lookup in Hin as [i Hi].
      destruct (lookup_lt_is_Some_2 codes i) as [c' Hc'].
      { rewrite Hlen. by eapply lookup_lt_Some. }
      destruct (Hlookup i v c' Hi Hc') as [Hpos Hcs].
      assert (Z.to_nat c' = Z.to_nat c)
        by (by eapply NoDup_lookup; [apply sorted_set_NoDup|..]).
      assert (c' = c) as <- by lia. by eapply list_elem_of_lookup_2.
  - unfold cs. rewrite merge_sort_Permutation. apply length_remove_dups_le.
Qed.

(** X6.  [fit] fits the encoder before anything else.  A target of mixed
    labels gives the [TypeError] of the encoder, and then neither the
    pipeline nor the log of calls has changed; so [fit] returns only for
    labels of one kind.  For labels of one kind the encoder learns them and
    is kept, and the encoding step that follows always succeeds: the
    [ValueError] of [_encode_targets] never comes out of [fit]. *)
Theorem fit_cases (p : pipeline G) (l : list call) (X : table)
    (y : series value) :
  let r := fit X y (World p l) in
  let uniform :=
    forallb is_int (s_values y) || forallb is_str (s_values y) in
  (r.1 = Ok tt → uniform = true)
  ∧ (uniform = false →
       r = (raise TypeError
              "Encoders require their input to be uniformly strings or numbers.",
            World p l))
  ∧ (uniform = true →
       ∃ enc codes,
         LabelEncoder.fit (s_values y) = Ok enc
         ∧ _encode_targets y (World (with_encoder p enc) l)
           = (Ok (Series (s_name y) (s_index y) codes),
              World (with_encoder p enc) (l ++ [CallEncodeTargets]))
         ∧ _encoder (self r.2) = enc
         ∧ calls r.2 = l ++ [CallEncodeTargets]).
Proof.
  intros r uniform. subst r uniform.
  destruct (forallb is_int (s_values y) || forallb is_str (s_values y))
    eqn:Huniform.
  - split; [done|]. split; [done|]. intros _.
    destruct (fit_uniform_run p l X y Huniform) as (codes & Henc & ->).
    eexists _, codes. split; [by apply encoder_fit_uniform|].
    split; [by apply encode_targets_run|]. done.
  - assert (Hraise : fit X y (World p l)
      = (raise TypeError
           "Encoders require their input to be uniformly strings or numbers.",
         World p l)).
    { unfold fit, bind, get_self, lift, LabelEncoder.fit. simpl.
      by rewrite Huniform. }
    rewrite Hraise. cbn [fst]. done.
Qed.

End Fit.

Lemma decode_encode_round_trip_witness :
  forallb is_int (s_values example_y) || forallb is_str (s_values example_y)
  = true
  ∧ Forall (λ c, 0 ≤ c < Z.of_nat (n_classes (self example_fitted))) [1; 0; 1]
  ∧ ∃ labels,
      (_decode_targets (Series None [0; 1; 2] [1; 0; 1]) example_fitted).1
      = Ok labels
      ∧ (_encode_targets (Series None [0; 1; 2] labels) example_fitted).1
        = Ok (Series None [0; 1; 2] [1; 0; 1]).
Proof.
  assert (Hrange :
    Forall (λ c, 0 ≤ c < Z.of_nat (n_classes (self example_fitted)))
      [1; 0; 1]).
  { vm_compute. repeat constructor; discriminate. }
  split; [reflexivity|]. split; [exact Hrange|].
  destruct (decode_encode_round_trip example_pipeline [] example_X example_y
              (Series None [0; 1; 2] [1; 0; 1]) eq_refl Hrange)
    as (labels & Hdec & _ & Henc).
  exists labels. split; [exact Hdec|exact Henc].
Defined.

Lemma fit_encoding_preserves_order_witness :
  forallb is_int (s_values example_y) || forallb is_str (s_values example_y)
  = true
  ∧ ∃ codes,
      _component_graph (self example_fitted)
      = cg_fit (_component_graph example_pipeline) example_X
          (Series (s_name example_y) (s_index example_y) codes)
      ∧ ∀ ca cb,
          codes !! 1%nat = Some ca → codes !! 0%nat = Some cb → ca < cb.
Proof.
  split; [reflexivity|].
  destruct (fit_encoding_preserves_order example_pipeline [] example_X
              example_y eq_refl) as (codes & Hgraph & _ & Horder).
  exists codes. split; [exact Hgraph|]. intros ca cb Hca Hcb.
  apply (Horder 1%nat 0%nat (VStr "a") (VStr "b") ca cb eq_refl eq_refl
           Hca Hcb).
  reflexivity.
Defined.

Lemma fit_encoding_covers_classes_witness :
  forallb is_int (s_values example_y) || forallb is_str (s_values example_y)
  = true
  ∧ ∃ codes,
      _component_graph (self example_fitted)
      = cg_fit (_component_graph example_pipeline) example_X
          (Series (s_name example_y) (s_index example_y) codes)
      ∧ 0 ∈ codes ∧ 1 ∈ codes.
Proof.
  split; [reflexivity|].
  destruct (fit_encoding_covers_classes example_pipeline [] example_X
              example_y eq_refl) as (codes & Hgraph & Hcover & _).
  exists codes. split; [exact Hgraph|].
  split; apply Hcover; vm_compute; split; congruence.
Defined.

(** ** Inference *)

Section ReadOnly.

Context {G : Type} `{ComponentGraph G}.

Lemma read_only_ret {A} (a : A) : read_only (G:=G) (ret a).
Proof. intros w. split; [done|]. exists []. by rewrite app_nil_r. Qed.

Lemma read_only_throw {A} (e : error) : read_only (G:=G) (A:=A) (throw e).
Proof. intros w. split; [done|]. exists []. by rewrite app_nil_r. Qed.

Lemma read_only_lift {A} (o : outcome A) : read_only (G:=G) (lift o).
Proof. intros w. split; [done|]. exists []. by rewrite app_nil_r. Qed.

Lemma read_only_get_self : read_only (G:=G) get_self.
Proof. intros w. split; [done|]. exists []. by rewrite app_nil_r. Qed.

Lemma read_only_log (c : call) : read_only (G:=G) (log c).
Proof. intros w. split; [done|]. by exists [c]. Qed.

Lemma read_only_bind {A B} (m : prog G A) (k : A → prog G B) :
  read_only m → (∀ a, read_only (k a)) → read_only (bind m k).
Proof.
  intros Hm Hk w. unfold bind. destruct (Hm w) as [Hself [new Hcalls]].
  destruct (m w) as [[a|e] w']; simpl in *.
  - destruct (Hk a w') as [Hself' [new' Hcalls']]. split; [congruence|].
    exists (new ++ new'). by rewrite Hcalls', Hcalls, app_assoc.
  - split; [done|]. by exists new.
Qed.

Lemma read_only_if {A} (b : bool) (m m' : prog G A) :
  read_only m → read_only m' → read_only (if b then m else m').
Proof. by destruct b. Qed.

Create HintDb read_only.
#[local] Hint Resolve read_only_ret read_only_throw read_only_lift
  read_only_get_self read_only_log read_only_if : read_only.
#[local] Hint Extern 2 (read_only (bind _ _)) =>
  apply read_only_bind; [|intros ?] : read_only.

Lemma read_only_check_for_fit {A} (method_name : string) (body : prog G A) :
  read_only body → read_only (G:=G) (check_for_fit method_name body).
Proof. intros Hbody. unfold check_for_fit. auto with read_only. Qed.

Lemma read_only_encode_targets (y : series value) :
  read_only (G:=G) (_encode_targets y).
Proof.
  unfold _encode_targets. apply read_only_bind; [auto with read_only|].
  intros _. apply read_only_bind; [auto with read_only|]. intros p.
  destruct (LabelEncoder.transform _ _) as [codes|[[[] msg]|]];
    auto with read_only.
Qed.

Lemma read_only_predict (X : table) : read_only (G:=G) (predict X).
Proof.
  unfold predict, _predict, _decode_targets.
  apply read_only_check_for_fit. auto 10 with read_only.
Qed.

Lemma read_only_predict_proba (X : table) : read_only (G:=G) (predict_proba X).
Proof.
  unfold predict_proba. apply read_only_check_for_fit.
  apply read_only_bind; [auto with read_only|]. intros _.
  apply read_only_bind; [auto with read_only|]. intros p.
  destruct (LabelEncoder.classes_ _); auto with read_only.
Qed.

Lemma read_only_compute_predictions (X : table) (y : series Z)
    (objectives : list objective) (time_series : bool) :
  read_only (G:=G) (_compute_predictions X y objectives time_series).
Proof.
  pose proof (read_only_predict_proba X).
  unfold _compute_predictions, _predict.
  apply read_only_bind.
  { repeat apply read_only_if; auto with read_only. }
  intros y_predicted_proba. auto 10 with read_only.
Qed.

Lemma read_only_score_each (pt : problem_type) (X : table) (y : series Z)
    (y_pred : option (series Z)) (y_pred_proba : option table)
    (objectives : list objective) :
  ∀ ok bad,
    read_only (G:=G) (score_each pt X y y_pred y_pred_proba objectives ok bad).
Proof.
  induction objectives as [|o rest IH]; intros ok bad; simpl.
  - auto with read_only.
  - apply read_only_bind; [auto with read_only|]. intros _.
    destruct (evaluate_objective _ _ _ _ _ _); apply IH.
Qed.

(** X7.  [predict], [predict_proba], [_compute_predictions] and [score]
    only read the pipeline: whatever they return or raise, fitted or not,
    the pipeline object is afterwards as it was, and the log of calls has
    only grown. *)
Theorem inference_is_read_only (X : table) (y : series value)
    (y_encoded : series Z) (objectives : list objective)
    (time_series : bool) :
  read_only (G:=G) (predict X)
  ∧ read_only (G:=G) (predict_proba X)
  ∧ read_only (G:=G) (_compute_predictions X y_encoded objectives time_series)
  ∧ read_only (G:=G) (score X y objectives).
Proof.
  split; [apply read_only_predict|]. split; [apply read_only_predict_proba|].
  split; [apply read_only_compute_predictions|].
  unfold score. apply read_only_bind; [apply read_only_encode_targets|].
  intros y'. apply read_only_bind; [apply read_only_compute_predictions|].
  intros [y_predicted y_predicted_proba]. unfold _score_all_objectives.
  apply read_only_bind; [auto with read_only|]. intros p.
  apply read_only_bind; [apply read_only_score_each|].
  intros [ok bad]. case_decide; auto with read_only.
Qed.

End ReadOnly.

Section Inference.

Context {G : Type} `{ComponentGraph G}.

(** X8.  On a fitted pipeline [predict] returns exactly when every code
    that the component graph predicts lies in [0, n_classes); a code
    outside gives a [ValueError].  The returned series has one label per
    predicted code, the class at the position the code names; it is named
    after the fit-time target and carries a new index [0, 1, ...], not the
    index of the graph's predictions. *)
Theorem predict_cases (p : pipeline G) (l : list call) (X : table)
    (cs : list value) :
  let r := predict X (World p l) in
  let codes := s_values (cg_predict (_component_graph p) X) in
  _is_fitted p = true →
  LabelEncoder.classes_ (_encoder p) = Some cs →
  ((∃ s, r.1 = Ok s) ↔ Forall (λ c, 0 ≤ c < Z.of_nat (length cs)) codes)
  ∧ (∀ s, r.1 = Ok s →
       s_name s = input_target_name p
       ∧ s_index s = range_index (length codes)
       ∧ length (s_values s) = length codes
       ∧ ∀ i c, codes !! i = Some c → s_values s !! i = cs !! Z.to_nat c)
  ∧ (∀ e, r.1 = Raise e → ∃ msg, e = Raised (Exn ValueError msg)).
Proof.
  intros r codes Hfitted Hcs. subst r codes.
  rewrite (predict_run p l X Hfitted). cbn [fst].
  set (codes := s_values (cg_predict (_component_graph p) X)).
  destruct (_encoder p) as [[cs'|]] eqn:Henc; simpl in Hcs; [|done].
  injection Hcs as ->.
  destruct (LabelEncoder.inverse_transform _ codes) as [labels|e] eqn:Hdec.
  - destruct (inverse_transform_lookup _ _ _ Hdec) as [Hrange Hlookup].
    apply inverse_transform_classes in Hdec as [_ Hlen].
    split; [|split; [|done]].
    + split; [done|]. by eexists.
    + intros s [= <-]. cbn [s_name s_index s_values]. rewrite Hlen.
      repeat split; try done. intros i c Hc.
      destruct (lookup_lt_is_Some_2 labels i) as [v Hv].
      { rewrite Hlen. by eapply lookup_lt_Some. }
      rewrite Hv. symmetry. by eapply Hlookup.
  - split; [|split; [done|]].
    + split; [by intros [s ?]|]. intros Hrange.
      destruct (inverse_transform_total cs codes Hrange) as [labels Hok].
      by rewrite Hok in Hdec.
    + intros e' [= <-]. by eapply inverse_transform_raises_ValueError.
Qed.

(** X9.  On a fitted pipeline [predict_proba] returns exactly when the
    table of the estimator has one column per class; any other number of
    columns gives a [ValueError].  The returned table has the row index and
    the cells of the estimator's table, and the classes as column
    labels. *)
Theorem predict_proba_cases (p : pipeline G) (l : list call) (X : table)
    (cs : list value) :
  let r := predict_proba X (World p l) in
  _is_fitted p = true →
  LabelEncoder.classes_ (_encoder p) = Some cs →
  ((∃ t, r.1 = Ok t) ↔ length (t_cols (estimator_proba p X)) = length cs)
  ∧ (∀ t, r.1 = Ok t →
       columns t = cs
       ∧ t_index t = t_index (estimator_proba p X)
       ∧ snd <$> t_cols t = snd <$> t_cols (estimator_proba p X))
  ∧ (∀ e, r.1 = Raise e → ∃ msg, e = Raised (Exn ValueError msg)).
Proof.
  intros r Hfitted Hcs. subst r.
  rewrite (predict_proba_run p l X cs Hfitted Hcs). cbn [fst].
  split; [|split].
  - unfold set_columns. case_decide as Hlen.
    + split; [done|]. by eexists.
    + split; [by intros [t ?]|]. intros Hwidth. by destruct Hlen.
  - intros t Ht. apply set_columns_columns in Ht. tauto.
  - intros e. unfold set_columns. case_decide; [done|].
    intros [= <-]. by eexists.
Qed.

(** X10.  The property [classes_] raises an [AttributeError] on a newly
    made pipeline.  After a [fit] on a target whose labels are of one kind
    it returns the distinct labels of that target in increasing order;
    after a [fit] that failed on a target of mixed labels it still raises
    the [AttributeError].  Reading it never changes the pipeline. *)
Theorem classes_before_and_after_fit (cls : pipeline_class) (ps : params)
    (seed : Z) (l : list call) (X : table) (y : series value) :
  let p := __init__ cls ps seed in
  let w' := (fit X y (World p l)).2 in
  let not_yet :=
    raise AttributeError
      "Cannot access class names before fitting the pipeline." in
  classes_ (World p l) = (not_yet, World p l)
  ∧ (forallb is_int (s_values y) || forallb is_str (s_values y) = true →
     ∃ cs, classes_ w' = (Ok cs, w')
           ∧ StronglySorted value_lt cs
           ∧ ∀ v, v ∈ cs ↔ v ∈ s_values y)
  ∧ (forallb is_int (s_values y) || forallb is_str (s_values y) = false →
     classes_ w' = (not_yet, w')).
Proof.
  intros p w' not_yet. subst w' not_yet. split; [done|]. split.
  - intros Huniform.
    destruct (fit_uniform_run p l X y Huniform) as (codes & _ & ->).
    cbn [snd]. eexists. split; [reflexivity|].
    split; [apply sorted_set_sorted|]. intros v. apply sorted_set_elem_of.
  - intros Hmixed. unfold fit, bind, get_self, lift, LabelEncoder.fit. simpl.
    rewrite Hmixed. reflexivity.
Qed.

(** X11.  [score] encodes the target before anything else: when the
    target holds a label that is not among the classes of the encoder,
    [score] raises a [ValueError] and has then made no call of [_predict]
    or [predict_proba] and evaluated no objective. *)
Theorem score_unseen_label (p : pipeline G) (l : list call) (X : table)
    (y : series value) (objectives : list objective) (cs : list value)
    (v : value) :
  LabelEncoder.classes_ (_encoder p) = Some cs →
  v ∈ s_values y → v ∉ cs →
  ∃ msg,
    score X y objectives (World p l)
    = (raise ValueError msg, World p (l ++ [CallEncodeTargets])).
Proof.
  intros Hcs Hv Hnotin.
  destruct (LabelEncoder.transform (_encoder p) (s_values y)) as [codes|e]
    eqn:Henc.
  - destruct (_encoder p) as [[cs'|]]; simpl in Hcs; [|done].
    injection Hcs as ->. destruct Hnotin. by eapply transform_elem_of.
  - destruct (transform_raises_ValueError _ _ _ Henc) as [msg ->].
    exists msg. unfold score, bind.
    by rewrite (encode_targets_raise_run p l y _ Henc).
Qed.

End Inference.

Lemma predict_cases_witness :
  _is_fitted (self example_fitted) = true
  ∧ LabelEncoder.classes_ (_encoder (self example_fitted))
    = Some [VStr "a"; VStr "b"]
  ∧ ∃ s, (predict example_X example_fitted).1 = Ok s
         ∧ s_index s = [0; 1; 2].
Proof.
  split; [reflexivity|]. split; [reflexivity|].
  destruct (predict_cases (self example_fitted) (calls example_fitted)
              example_X [VStr "a"; VStr "b"] eq_refl eq_refl)
    as (Hok & Hshape & _).
  destruct (proj2 Hok) as [s Hs].
  { vm_compute. repeat constructor; discriminate. }
  exists s. split; [exact Hs|].
  destruct (Hshape s Hs) as (_ & Hindex & _). exact Hindex.
Defined.

Lemma predict_proba_cases_witness :
  _is_fitted (self example_fitted) = true
  ∧ LabelEncoder.classes_ (_encoder (self example_fitted))
    = Some [VStr "a"; VStr "b"]
  ∧ ∃ t, (predict_proba example_X example_fitted).1 = Ok t
         ∧ columns t = [VStr "a"; VStr "b"].
Proof.
  split; [reflexivity|]. split; [reflexivity|].
  destruct (predict_proba_cases (self example_fitted) (calls example_fitted)
              example_X [VStr "a"; VStr "b"] eq_refl eq_refl)
    as (Hok & Hshape & _).
  destruct (proj2 Hok) as [t Ht]; [reflexivity|].
  exists t. split; [exact Ht|]. by destruct (Hshape t Ht).
Defined.

Lemma score_unseen_label_witness :
  LabelEncoder.classes_ (_encoder (self example_fitted))
  = Some [VStr "a"; VStr "b"]
  ∧ (VStr "c" ∈ [VStr "a"; VStr "c"])
  ∧ (VStr "c" ∉ [VStr "a"; VStr "b"])
  ∧ ∃ msg,
      score example_X (Series None [0; 1] [VStr "a"; VStr "c"])
        [accuracy_binary; column_count] example_fitted
      = (raise ValueError msg,
         World (self example_fitted) [CallEncodeTargets; CallEncodeTargets]).
Proof.
  assert (Hin : VStr "c" ∈ [VStr "a"; VStr "c"]) by (right; left).
  assert (Hnotin : VStr "c" ∉ [VStr "a"; VStr "b"]).
  { intros Hc%list_elem_of_In. simpl in Hc.
    repeat (destruct Hc as [Hc|Hc]; [discriminate Hc|]). exact Hc. }
  split; [reflexivity|]. split; [exact Hin|]. split; [exact Hnotin|].
  exact (score_unseen_label (self example_fitted) (calls example_fitted)
           example_X (Series None [0; 1] [VStr "a"; VStr "c"])
           [accuracy_binary; column_count] [VStr "a"; VStr "b"] (VStr "c")
           eq_refl Hin Hnotin).
Defined.

(** ** Threshold tuning on its edges *)

Section ThresholdEdges.

Context {G : Type} `{ComponentGraph G}.

Lemma with_threshold_self (p : pipeline G) : with_threshold p (threshold p) = p.
Proof. by destruct p. Qed.

Lemma tune_binary_threshold_run (p : pipeline G) (l : list call)
    (o : objective) (pt : problem_type) (X : table) (y : series value) :
  is_binary pt && is_defined_for_problem_type o pt
    && can_optimize_threshold o = true →
  tune_binary_threshold o pt (Some X) y (World p l)
  = match predict_proba X (World (with_threshold p (Some (1 # 2)%Q)) l) with
    | (Ok proba, w) =>
        match iloc_column proba 1 with
        | Ok column => optimize_threshold X y column o w
        | Raise e => (Raise e, w)
        end
    | (Raise e, w) => (Raise e, w)
    end.
Proof.
  intros Hacts. unfold tune_binary_threshold. rewrite Hacts.
  unfold bind, get_self, set_self, lift. cbn [self calls].
  destruct (predict_proba X _) as [[proba|e] w]; [|done].
  by destruct (iloc_column proba 1).
Qed.

(** X12.  Tuning on a pipeline whose encoder knows fewer than two classes
    (a pipeline fitted on a target with one label only) fails at the
    selection of the second probability column: [tune_binary_threshold]
    raises an [IndexError] after [predict_proba] has run, the threshold is
    left at 0.5 and the objective is never asked for a threshold. *)
Theorem tune_binary_threshold_single_class (p : pipeline G) (l : list call)
    (o : objective) (pt : problem_type) (X : table) (y : series value)
    (cs : list value) :
  is_binary pt && is_defined_for_problem_type o pt
    && can_optimize_threshold o = true →
  _is_fitted p = true →
  LabelEncoder.classes_ (_encoder p) = Some cs →
  length (t_cols (estimator_proba p X)) = length cs →
  (length cs < 2)%nat →
  ∃ msg,
    tune_binary_threshold o pt (Some X) y (World p l)
    = (raise IndexError msg,
       World (with_threshold p (Some (1 # 2)%Q)) (l ++ [CallPredictProba])).
Proof.
  intros Hacts Hfitted Hcs Hwidth Hfew.
  rewrite (tune_binary_threshold_run p l o pt X y Hacts).
  rewrite (predict_proba_run (with_threshold p (Some (1 # 2)%Q)) l X cs)
    by done.
  change (estimator_proba (with_threshold p (Some (1 # 2)%Q)) X)
    with (estimator_proba p X).
  unfold set_columns. rewrite decide_True by done.
  unfold iloc_column. cbn [t_cols].
  rewrite (lookup_ge_None_2 _ 1%nat).
  - by eexists.
  - rewrite length_zip, length_fmap. lia.
Qed.

Lemma log_blind_ret {A} (a : A) : log_blind (G:=G) (ret a).
Proof. by intros p l l'. Qed.

Lemma log_blind_throw {A} (e : error) : log_blind (G:=G) (A:=A) (throw e).
Proof. by intros p l l'. Qed.

Lemma log_blind_lift {A} (o : outcome A) : log_blind (G:=G) (lift o).
Proof. by intros p l l'. Qed.

Lemma log_blind_get_self : log_blind (G:=G) get_self.
Proof. by intros p l l'. Qed.

Lemma log_blind_set_self (q : pipeline G) : log_blind (set_self q).
Proof. by intros p l l'. Qed.

Lemma log_blind_log (c : call) : log_blind (G:=G) (log c).
Proof. by intros p l l'. Qed.

Lemma log_blind_bind {A B} (m : prog G A) (k : A → prog G B) :
  log_blind m → (∀ a, log_blind (k a)) → log_blind (bind m k).
Proof.
  intros Hm Hk p l l'. unfold bind. destruct (Hm p l l') as [Hout Hself].
  destruct (m (World p l)) as [o [q l1]], (m (World p l')) as [o' [q' l1']].
  cbn [fst snd self] in *. subst o' q'. destruct o as [a|e]; [|done].
  apply Hk.
Qed.

Lemma log_blind_predict_proba (X : table) :
  log_blind (G:=G) (predict_proba X).
Proof.
  unfold predict_proba, check_for_fit.
  apply log_blind_bind; [apply log_blind_get_self|]. intros p.
  destruct (_is_fitted p); [|apply log_blind_throw].
  apply log_blind_bind; [apply log_blind_log|]. intros _.
  apply log_blind_bind; [apply log_blind_get_self|]. intros q.
  destruct (LabelEncoder.classes_ _);
    [apply log_blind_lift|apply log_blind_throw].
Qed.

Lemma log_blind_optimize_threshold (X : table) (y : series value)
    (y_pred_proba : series Q) (o : objective) :
  log_blind (G:=G) (optimize_threshold X y y_pred_proba o).
Proof.
  unfold optimize_threshold, _encode_targets.
  apply log_blind_bind; [apply log_blind_get_self|]. intros p.
  destruct (can_tune_threshold_with_objective p o); [|apply log_blind_throw].
  apply log_blind_bind.
  { apply log_blind_bind; [apply log_blind_log|]. intros _.
    apply log_blind_bind; [apply log_blind_get_self|]. intros q.
    destruct (LabelEncoder.transform _ _) as [codes|[[[] msg]|]];
      first [apply log_blind_ret | apply log_blind_throw]. }
  intros targets. apply log_blind_bind; [apply log_blind_log|]. intros _.
  apply log_blind_bind; [apply log_blind_lift|]. intros t.
  apply log_blind_bind; [apply log_blind_get_self|]. intros q.
  apply log_blind_set_self.
Qed.

Lemma log_blind_tune_binary_threshold (o : objective) (pt : problem_type)
    (X_threshold_tuning : option table) (y : series value) :
  log_blind (G:=G) (tune_binary_threshold o pt X_threshold_tuning y).
Proof.
  unfold tune_binary_threshold.
  destruct (is_binary pt && is_defined_for_problem_type o pt
            && can_optimize_threshold o); [|apply log_blind_ret].
  apply log_blind_bind; [apply log_blind_get_self|]. intros p.
  apply log_blind_bind; [apply log_blind_set_self|]. intros _.
  destruct X_threshold_tuning as [X|]; [|apply log_blind_ret].
  apply log_blind_bind; [apply log_blind_predict_proba|]. intros proba.
  apply log_blind_bind; [apply log_blind_lift|]. intros column.
  apply log_blind_optimize_threshold.
Qed.

Lemma tune_binary_threshold_reset (p : pipeline G) (l : list call)
    (o : objective) (pt : problem_type) (X_threshold_tuning : option table)
    (y : series value) (earlier : option Q) :
  is_binary pt && is_defined_for_problem_type o pt
    && can_optimize_threshold o = true →
  tune_binary_threshold o pt X_threshold_tuning y
    (World (with_threshold p earlier) l)
  = tune_binary_threshold o pt X_threshold_tuning y (World p l).
Proof.
  intros Hacts. unfold tune_binary_threshold. rewrite Hacts.
  unfold bind at 1 2 5 6. unfold get_self, set_self. cbn [self calls].
  reflexivity.
Qed.

Lemma threshold_only_optimize_threshold (p : pipeline G) (l : list call)
    (X : table) (y : series value) (y_pred_proba : series Q) (o : objective) :
  with_threshold (self (optimize_threshold X y y_pred_proba o (World p l)).2)
                 (threshold p) = p.
Proof.
  rewrite optimize_threshold_run.
  destruct (can_tune_threshold_with_objective p o);
    [|apply with_threshold_self].
  destruct (LabelEncoder.transform _ _); [|apply with_threshold_self].
  destruct (objective_optimize_threshold _ _ _ _);
    cbn [snd self]; by destruct p.
Qed.

Lemma threshold_only_tune_binary_threshold (p : pipeline G) (l : list call)
    (o : objective) (pt : problem_type) (X_threshold_tuning : option table)
    (y : series value) :
  with_threshold
    (self (tune_binary_threshold o pt X_threshold_tuning y (World p l)).2)
    (threshold p) = p.
Proof.
  destruct (is_binary pt && is_defined_for_problem_type o pt
            && can_optimize_threshold o) eqn:Hacts.
  2:{ unfold tune_binary_threshold. rewrite Hacts.
      apply with_threshold_self. }
  destruct X_threshold_tuning as [X'|].
  2:{ unfold tune_binary_threshold. rewrite Hacts. by destruct p. }
  rewrite (tune_binary_threshold_run p l o pt X' y Hacts).
  pose proof (predict_proba_self (with_threshold p (Some (1 # 2)%Q)) l X')
    as Hself.
  destruct (predict_proba X' _) as [[proba|e] [q l']]; cbn [snd self] in *;
    subst q; [|by destruct p].
  destruct (iloc_column proba 1) as [column|e]; [|by destruct p].
  pose proof (threshold_only_optimize_threshold
                (with_threshold p (Some (1 # 2)%Q)) l' X' y column o)
    as Hoptimize.
  destruct (optimize_threshold X' y column o _) as [r [q l'']].
  cbn [snd self] in *. destruct p, q. unfold with_threshold in *.
  cbn in *. injection Hoptimize; intros; subst; reflexivity.
Qed.

(** X13.  When [tune_binary_threshold] acts (binary problem type, objective
    defined for it and optimizable), its whole result, the threshold it
    leaves included, does not depend on the threshold the pipeline had
    before the call. *)
Theorem tune_binary_threshold_forgets_threshold (p : pipeline G)
    (l : list call) (o : objective) (pt : problem_type)
    (X_threshold_tuning : option table) (y_threshold_tuning : series value)
    (earlier : option Q) :
  is_binary pt && is_defined_for_problem_type o pt
    && can_optimize_threshold o = true →
  tune_binary_threshold o pt X_threshold_tuning y_threshold_tuning
    (World (with_threshold p earlier) l)
  = tune_binary_threshold o pt X_threshold_tuning y_threshold_tuning
      (World p l).
Proof. apply tune_binary_threshold_reset. Qed.

(** X14.  Threshold tuning changes nothing but the threshold: after
    [optimize_threshold] and after [tune_binary_threshold], whatever they
    return or raise, the class, the parameters, the component graph, the
    encoder, the fitted flag and the recorded names of the pipeline are as
    before. *)
Theorem threshold_tuning_changes_threshold_only (p : pipeline G)
    (l : list call) (o : objective) (pt : problem_type) (X : table)
    (X_threshold_tuning : option table) (y : series value)
    (y_pred_proba : series Q) :
  with_threshold (self (optimize_threshold X y y_pred_proba o (World p l)).2)
                 (threshold p) = p
  ∧ with_threshold
      (self (tune_binary_threshold o pt X_threshold_tuning y (World p l)).2)
      (threshold p) = p.
Proof.
  split; [apply threshold_only_optimize_threshold|].
  apply threshold_only_tune_binary_threshold.
Qed.

(** X15.  [tune_binary_threshold] is idempotent: a second call with the
    same arguments, right after the first, returns or raises what the
    first did and leaves the pipeline, its threshold included, as the first
    call left it. *)
Theorem tune_binary_threshold_idempotent (p : pipeline G) (l : list call)
    (o : objective) (pt : problem_type) (X_threshold_tuning : option table)
    (y : series value) :
  let tune := tune_binary_threshold o pt X_threshold_tuning y in
  let first := tune (World p l) in
  let second := tune first.2 in
  second.1 = first.1 ∧ self second.2 = self first.2.
Proof.
  intros tune first second. subst second first tune.
  destruct (is_binary pt && is_defined_for_problem_type o pt
            && can_optimize_threshold o) eqn:Hacts.
  2:{ unfold tune_binary_threshold. by rewrite Hacts. }
  pose proof (threshold_only_tune_binary_threshold p l o pt
                X_threshold_tuning y) as Hframe.
  destruct (tune_binary_threshold o pt X_threshold_tuning y (World p l))
    as [r [q l']] eqn:Hfirst.
  cbn [fst snd self] in *.
  assert (Hq : q = with_threshold p (threshold q)).
  { rewrite <- Hframe. by destruct q. }
  rewrite Hq, (tune_binary_threshold_reset p l' o pt _ y _ Hacts).
  destruct (log_blind_tune_binary_threshold o pt X_threshold_tuning y p l' l)
    as [Hout Hself].
  rewrite Hout, Hself, Hfirst. cbn [fst snd self]. by rewrite <- Hq.
Qed.

End ThresholdEdges.

Lemma tune_binary_threshold_single_class_witness :
  is_binary BINARY && is_defined_for_problem_type accuracy_binary BINARY
    && can_optimize_threshold accuracy_binary = true
  ∧ _is_fitted (self example_fitted_one_class) = true
  ∧ LabelEncoder.classes_ (_encoder (self example_fitted_one_class))
    = Some [VStr "a"]
  ∧ ∃ msg,
      tune_binary_threshold accuracy_binary BINARY (Some example_X)
        example_y_one_class example_fitted_one_class
      = (raise IndexError msg,
         World (with_threshold (self example_fitted_one_class)
                  (Some (1 # 2)%Q))
               [CallEncodeTargets; CallPredictProba]).
Proof.
  split; [reflexivity|]. split; [reflexivity|]. split; [reflexivity|].
  assert (Hwidth :
    length (t_cols (estimator_proba (self example_fitted_one_class) example_X))
    = length [VStr "a"]) by (vm_compute; reflexivity).
  assert (Hfew : (length [VStr "a"] < 2)%nat) by (simpl; lia).
  exact (tune_binary_threshold_single_class (self example_fitted_one_class)
           (calls example_fitted_one_class) accuracy_binary BINARY example_X
           example_y_one_class [VStr "a"] eq_refl eq_refl eq_refl Hwidth Hfew).
Defined.

Lemma tune_binary_threshold_forgets_threshold_witness :
  is_binary BINARY && is_defined_for_problem_type accuracy_binary BINARY
    && can_optimize_threshold accuracy_binary = true
  ∧ tune_binary_threshold accuracy_binary BINARY (Some example_X) example_y
      (World (with_threshold (self example_fitted) (Some (9 # 10)%Q)) [])
    = tune_binary_threshold accuracy_binary BINARY (Some example_X) example_y
        (World (self example_fitted) []).
Proof.
  split; [reflexivity|].
  exact (tune_binary_threshold_forgets_threshold (self example_fitted) []
           accuracy_binary BINARY (Some example_X) example_y
           (Some (9 # 10)%Q) eq_refl).
Defined.

(** ** The choice of a data splitter *)

Lemma make_data_splitter_plain (X : table) (y : series value)
    (pt : problem_type) (problem_configuration : option (gmap string pyvalue))
    (n_splits : option Z) (shuffle : bool) (random_state : option Z)
    (seed : Z) :
  is_time_series pt = false →
  make_data_splitter X y pt problem_configuration n_splits shuffle
    random_state seed
  = let seed := deprecate_arg "random_state" "random_seed" random_state seed in
    Ok (Some
      (if decide (100000 < Z.of_nat (length (t_index X))) then
         if decide (pt = REGRESSION)
         then TrainingValidationSplit (3 # 4)%Q shuffle
         else BalancedClassificationDataTVSplit (3 # 4)%Q shuffle seed
       else
         if decide (pt = REGRESSION)
         then KFold n_splits seed shuffle
         else BalancedClassificationDataCVSplit n_splits seed shuffle)).
Proof.
  intros Hts. unfold make_data_splitter. rewrite Hts.
  unfold _LARGE_DATA_ROW_THRESHOLD, _LARGE_DATA_PERCENT_VALIDATION.
  assert (Hbinary : BINARY ∈ [BINARY; MULTICLASS]) by left.
  assert (Hmulticlass : MULTICLASS ∈ [BINARY; MULTICLASS]) by (right; left).
  destruct pt; try done;
    destruct (decide (100000 < Z.of_nat (length (t_index X))));
    rewrite ?(decide_True (P:=Z.of_nat _ > _)) by lia;
    rewrite ?(decide_False (P:=Z.of_nat _ > _)) by lia;
    rewrite ?(decide_False (P:=_ = REGRESSION)) by done;
    rewrite ?(decide_True (P:=_ = REGRESSION)) by done;
    rewrite ?(decide_True (P:=_ ∈ _)) by done; reflexivity.
Qed.

(** X16.  [make_data_splitter] never falls off its end with [None]: for
    each of the six problem types it ends in the error about the problem
    configuration or in the construction of a splitter.  It raises that
    error exactly when the problem type is a time series one and the
    problem configuration is missing or empty. *)
Theorem make_data_splitter_never_none (X : table) (y : series value)
    (pt : problem_type) (problem_configuration : option (gmap string pyvalue))
    (n_splits : option Z) (shuffle : bool) (random_state : option Z)
    (seed : Z) :
  let r := make_data_splitter X y pt problem_configuration n_splits shuffle
             random_state seed in
  let missing :=
    is_time_series pt = true
    ∧ (problem_configuration = None ∨ problem_configuration = Some ∅) in
  r ≠ Ok None
  ∧ (r = raise ValueError
           "problem_configuration is required for time series problem types"
     ↔ missing).
Proof.
  intros r missing. subst r missing.
  destruct (is_time_series pt) eqn:Hts.
  - unfold make_data_splitter. rewrite Hts.
    destruct problem_configuration as [configuration|].
    + case_decide as Hempty.
      * subst configuration. split; [done|]. by intuition.
      * split; [done|]. split; [done|]. intros [_ [?|?]]; simplify_eq.
    + split; [done|]. by intuition.
  - rewrite (make_data_splitter_plain X y pt _ _ _ _ _ Hts). cbn zeta.
    split; [done|]. by split; [|intros [? _]].
Qed.


(** X18.  For a time series problem type with a configuration, the
    splitter is built from [n_splits] and the configuration alone: the
    data, [shuffle] and both seed arguments play no part, and a key that
    the configuration lacks is passed on as [None]. *)
Theorem make_data_splitter_time_series (X X' : table) (y y' : series value)
    (pt : problem_type) (configuration : gmap string pyvalue)
    (n_splits : option Z) (shuffle shuffle' : bool)
    (random_state random_state' : option Z) (seed seed' : Z) :
  is_time_series pt = true →
  configuration ≠ ∅ →
  make_data_splitter X y pt (Some configuration) n_splits shuffle
    random_state seed
  = make_data_splitter X' y' pt (Some configuration) n_splits shuffle'
      random_state' seed'
  ∧ ∃ gap max_delay,
      make_data_splitter X y pt (Some configuration) n_splits shuffle
        random_state seed
      = Ok (Some (TimeSeriesSplit n_splits gap max_delay))
      ∧ (configuration !! "gap" = None → gap = PNone)
      ∧ (configuration !! "max_delay" = None → max_delay = PNone)
      ∧ (∀ v, configuration !! "gap" = Some v → gap = v)
      ∧ (∀ v, configuration !! "max_delay" = Some v → max_delay = v).
Proof.
  intros Hts Hne. unfold make_data_splitter. rewrite Hts.
  rewrite decide_False by done. split; [done|].
  eexists _, _. split; [reflexivity|]. unfold dict_get.
  repeat split; by intros; simplify_option_eq.
Qed.

(** X19.  For a regression on more than 100000 rows the splitter is made
    without the random seed and without [n_splits]: whatever is passed for
    [n_splits], [random_state] and [random_seed], the result is the same
    training-validation split with a test size of 0.75. *)
Theorem make_data_splitter_large_regression (X : table) (y : series value)
    (problem_configuration : option (gmap string pyvalue))
    (n_splits : option Z) (shuffle : bool) (random_state : option Z)
    (seed : Z) :
  100000 < Z.of_nat (length (t_index X)) →
  make_data_splitter X y REGRESSION problem_configuration n_splits shuffle
    random_state seed
  = Ok (Some (TrainingValidationSplit (3 # 4)%Q shuffle)).
Proof.
  intros Hrows. unfold make_data_splitter, _LARGE_DATA_ROW_THRESHOLD. simpl.
  by rewrite decide_True by lia.
Qed.


Lemma make_data_splitter_time_series_witness :
  is_time_series TIME_SERIES_REGRESSION = true
  ∧ ({["gap" := PInt 2]} : gmap string pyvalue) ≠ ∅
  ∧ make_data_splitter example_X example_y TIME_SERIES_REGRESSION
      (Some {["gap" := PInt 2]}) (Some 3) true None 0
    = Ok (Some (TimeSeriesSplit (Some 3) (PInt 2) PNone)).
Proof.
  assert (Hne : ({["gap" := PInt 2]} : gmap string pyvalue) ≠ ∅)
    by apply insert_non_empty.
  split; [reflexivity|]. split; [exact Hne|].
  destruct (make_data_splitter_time_series example_X example_X example_y
              example_y TIME_SERIES_REGRESSION {["gap" := PInt 2]} (Some 3)
              true true None None 0 0 eq_refl Hne)
    as (_ & gap & max_delay & -> & _ & Hdelay & Hgap & _).
  rewrite (Hgap (PInt 2)) by reflexivity.
  rewrite Hdelay by reflexivity. reflexivity.
Defined.

Lemma make_data_splitter_large_regression_witness :
  100000 < Z.of_nat (length (t_index (empty_rows (Z.to_nat 100001))))
  ∧ make_data_splitter (empty_rows (Z.to_nat 100001)) example_y REGRESSION
      None (Some 3) true None 7
    = Ok (Some (TrainingValidationSplit (3 # 4)%Q true)).
Proof.
  assert (Hrows :
    100000 < Z.of_nat (length (t_index (empty_rows (Z.to_nat 100001))))).
  { unfold empty_rows, range_index. cbn [t_index].
    rewrite length_fmap, length_seq, Z2Nat.id; lia. }
  split; [exact Hrows|].
  exact (make_data_splitter_large_regression (empty_rows (Z.to_nat 100001))
           example_y None (Some 3) true None 7 Hrows).
Defined.

(** ** Unique pipeline names *)

#[global] Instance string_le_trans : Transitive string_le.
Proof. intros s t u. unfold string_le. apply (transitivity (R:=value_le)). Qed.

#[global] Instance string_le_total : Total string_le.
Proof. intros s t. unfold string_le. apply (total value_le). Qed.

Lemma count_pos (n : string) (l : list string) :
  (0 < length (filter (λ m, m = n) l))%nat ↔ n ∈ l.
Proof.
  induction l as [|x l IH]; simpl.
  - rewrite elem_of_nil. split; [lia|done].
  - rewrite filter_cons, elem_of_cons. case_decide as Hx; simpl.
    + subst x. split; [by left|lia].
    + rewrite IH. split; [by right|]. by intros [->|].
Qed.

Lemma count_two (n : string) (l : list string) :
  (1 < length (filter (λ m, m = n) l))%nat ↔ occurs_twice n l.
Proof.
  unfold occurs_twice. induction l as [|x l IH].
  - simpl. split; [lia|]. by intros (i & j & _ & Hi & _).
  - rewrite filter_cons. case_decide as Hx; simpl.
    + subst x. split.
      * intros Hcount. assert (Hin : n ∈ l) by (apply count_pos; lia).
        apply list_elem_of_lookup in Hin as [j Hj].
        by exists 0%nat, (S j).
      * intros (i & j & Hne & Hi & Hj).
        assert (Hin : n ∈ l).
        { destruct i as [|i]; [destruct j as [|j]; [done|]|];
            by eapply list_elem_of_lookup_2. }
        apply count_pos in Hin. lia.
    + rewrite IH. split.
      * intros (i & j & Hne & Hi & Hj). exists (S i), (S j).
        split; [lia|done].
      * intros (i & j & Hne & Hi & Hj).
        destruct i as [|i]; [by simplify_eq/=|].
        destruct j as [|j]; [by simplify_eq/=|].
        exists i, j. split; [lia|done].
Qed.

Lemma duplicate_names_filter (l l' : list string) :
  fst <$> filter (λ entry : string * nat, (1 < entry.2)%nat)
            ((λ n, (n, length (filter (λ m, m = n) l))) <$> l')
  = filter (λ n, (1 < length (filter (λ m, m = n) l))%nat) l'.
Proof.
  induction l' as [|x l' IH]; [done|].
  rewrite fmap_cons, !filter_cons. cbn [snd].
  case_decide; [rewrite fmap_cons; cbn [fst]|]; by rewrite IH.
Qed.

Section PipelineNamesProperties.

Context {P : Type} (pipeline_name : P → string).

(** X20.  [check_all_pipeline_names_unique] returns exactly when the names
    of the pipelines are pairwise distinct (so also for no pipeline at
    all); otherwise it raises. *)
Theorem check_all_pipeline_names_unique_iff (pipelines : list P) :
  check_all_pipeline_names_unique pipeline_name pipelines = Ok tt
  ↔ NoDup (pipeline_name <$> pipelines).
Proof.
  unfold check_all_pipeline_names_unique, value_counts.
  rewrite duplicate_names_filter. set (names := pipeline_name <$> pipelines).
  set (dups := filter _ (remove_dups names)).
  assert (Hdups : dups = [] ↔ NoDup names).
  { rewrite NoDup_alt. split.
    - intros Hnil i j n Hi Hj. destruct (decide (i = j)) as [|Hne]; [done|].
      assert (Hin : n ∈ dups); [|by rewrite Hnil, elem_of_nil in Hin].
      apply list_elem_of_filter. split.
      + apply count_two. by exists i, j.
      + apply elem_of_remove_dups. by eapply list_elem_of_lookup_2.
    - intros Hnd. apply elem_of_nil_inv. intros n Hin.
      apply list_elem_of_filter in Hin as [Htwo _].
      apply count_two in Htwo as (i & j & Hne & Hi & Hj).
      by destruct (Hne (Hnd i j n Hi Hj)). }
  case_decide as Hnil.
  - split; [|done]. intros _. by apply Hdups.
  - split; [|by intros ?%Hdups]. by destruct (decide _).
Qed.

(** X21.  When names repeat, [check_all_pipeline_names_unique] raises a
    [ValueError] whose message lists the repeated names, and only those,
    each once, in increasing order, each in single quotes, separated by a
    comma and a space; it says [names ... were] for several repeated names
    and [name ... was] for one. *)
Theorem check_all_pipeline_names_unique_message (pipelines : list P) :
  ∃ repeated : list string,
    Sorted string_le repeated
    ∧ NoDup repeated
    ∧ (∀ n, n ∈ repeated ↔ occurs_twice n (pipeline_name <$> pipelines))
    ∧ check_all_pipeline_names_unique pipeline_name pipelines
      = match repeated with
        | [] => Ok tt
        | [n] =>
            raise ValueError
              ("All pipeline names must be unique. The name '" +:+ n
                 +:+ "' was repeated.")
        | _ =>
            raise ValueError
              ("All pipeline names must be unique. The names "
                 +:+ String.concat ", " ((λ n, "'" +:+ n +:+ "'") <$> repeated)
                 +:+ " were repeated.")
        end.
Proof.
  unfold check_all_pipeline_names_unique, value_counts.
  rewrite duplicate_names_filter. set (names := pipeline_name <$> pipelines).
  set (dups := filter _ (remove_dups names)).
  exists (merge_sort string_le dups).
  split; [apply Sorted_merge_sort; apply _|].
  split.
  { rewrite merge_sort_Permutation. apply NoDup_filter, NoDup_remove_dups. }
  split.
  { intros n. rewrite merge_sort_Permutation. unfold dups.
    rewrite list_elem_of_filter, elem_of_remove_dups, count_two. split; [tauto|].
    intros Htwo. split; [done|]. destruct Htwo as (i & _ & _ & Hi & _).
    by eapply list_elem_of_lookup_2. }
  assert (Hlen : length (merge_sort string_le dups) = length dups)
    by (by rewrite merge_sort_Permutation).
  destruct (merge_sort string_le dups) as [|n [|n' rest]] eqn:Hsorted.
  - destruct dups; [|done]. by rewrite decide_True.
  - destruct dups as [|d [|d' dups']]; try done.
    rewrite decide_False by done. rewrite decide_False by (simpl; lia).
    simpl. rewrite !string_app_assoc. reflexivity.
  - by destruct dups as [|d [|d' dups']].
Qed.

End PipelineNamesProperties.

Example check_all_pipeline_names_unique_two_repeated :
  check_all_pipeline_names_unique id ["b"; "a"; "b"; "c"; "a"; "a"]
  = raise ValueError
      "All pipeline names must be unique. The names 'a', 'b' were repeated.".
Proof. vm_compute. reflexivity. Qed.
